(** * The GitHub event summariser of gh-weebhooks

    A shallow embedding of [backend/src/services/github.ts]: the function
    [summarizeGithubEvent] that turns a webhook delivery (event type and
    JSON-decoded payload) into the HTML text sent to Telegram, with its
    helpers, its per-event handlers and its dispatch table.

    The module [Js] fixes the part of the host language the engine relies
    on: the universe of JSON-decoded values, the coercions [String(v)],
    truthiness, [??] and [||], exceptions as values of a result type, and
    the string methods the source calls.  The module [Github] is the
    engine, one definition per source function, under the source names. *)

From Stdlib Require Import String Ascii List ZArith Lia Bool Arith DecimalString Sorted.
Import ListNotations.
Open Scope string_scope.
Set Warnings "-register-all".

(* ================================================================== *)
(** * Host language *)
(* ================================================================== *)

Module Js.

(** Numbers.  A JSON payload carries doubles; GitHub sends integers (ids,
    counts, prices in cents).  [Int z] stands for the Number value for
    [z]: the double nearest to [z], which is [z] itself up to 2^53 and
    infinite from 2^1024 on; [NaN] is what a failed numeric coercion
    produces.  Numbers with a fractional part are outside the model. *)
Inductive number : Type :=
| Int (z : Z)
| NaN.

(** Values as [JSON.parse] builds them, plus [undefined], which a missing
    property reads as.  An object keeps its properties in insertion
    order; keys are taken to be distinct and a lookup reads the first
    binding. *)
Inductive value : Type :=
| VUndef
| VNull
| VBool (b : bool)
| VNum (n : number)
| VStr (s : string)
| VArr (items : list value)
| VObj (fields : list (string * value)).

(** A thrown value, by what a catch block of the engine can observe of
    it: whether it is [null] or [undefined] (reading a property of it
    throws), its [message] property, and how [util.inspect] prints it. *)
Record thrown : Type := mkThrown {
  thrown_nullish : bool;
  message : value;
  inspected : string
}.

Definition TypeError (msg : string) : thrown :=
  {| thrown_nullish := false; message := VStr msg; inspected := "TypeError: " ++ msg |}.

(** Evaluation either yields a value or throws. *)
Inductive result (A : Type) : Type :=
| Ok (a : A)
| Throw (e : thrown).
Arguments Ok {A} a.
Arguments Throw {A} e.

Definition bind {A B : Type} (c : result A) (k : A -> result B) : result B :=
  match c with
  | Ok a => k a
  | Throw e => Throw e
  end.

Notation "x <- c ;; k" := (bind c (fun x => k))
  (at level 61, c at next level, right associativity).

(** try { c } catch (error) { handler error } *)
Definition try_catch {A : Type} (c : result A) (handler : thrown -> result A) : result A :=
  match c with
  | Ok a => Ok a
  | Throw e => handler e
  end.

Fixpoint sequence {A : Type} (cs : list (result A)) : result (list A) :=
  match cs with
  | [] => Ok []
  | c :: rest => a <- c ;; l <- sequence rest ;; Ok (a :: l)
  end.

(** ** Characters and strings

    A string stands for a JavaScript string by its UTF-8 encoding, one
    byte per [ascii]; a surrogate that has no partner is encoded as the
    code points around it are, in three bytes.  JavaScript counts a
    string in UTF-16 code units: a sequence of one, two or three bytes
    is one unit, a sequence of four bytes is a pair of surrogates, two
    units.  [length] and [slice0] count in units.  The white-space class
    is the one of [trim] and of [\s].  Searching, splitting and
    replacing work on ASCII characters, which no longer sequence
    contains, and go byte by byte.  Case mapping acts on the letters of
    the ASCII range; the letters past it are outside the model, and the
    statements that depend on their case say so. *)

Definition dquote : string := String (ascii_of_nat 34) EmptyString.
Definition LF : ascii := ascii_of_nat 10.
Definition CR : ascii := ascii_of_nat 13.
Definition newline : string := String LF EmptyString.

Definition is_empty (s : string) : bool :=
  match s with
  | EmptyString => true
  | String _ _ => false
  end.

Definition is_ascii (c : ascii) : bool := (nat_of_ascii c <? 128)%nat.

(** The code units that a byte opens: none for a continuation byte, two
    for the first byte of a sequence of four, one for any other. *)
Definition units_of (c : ascii) : nat :=
  let n := nat_of_ascii c in
  if (n <? 128)%nat then 1
  else if (n <? 192)%nat then 0
  else if (n <? 240)%nat then 1
  else 2.

(** s.length *)
Fixpoint length (s : string) : nat :=
  match s with
  | EmptyString => 0
  | String c rest => units_of c + length rest
  end.

(** The white space of one byte: tab, line feed, vertical tab, form
    feed, carriage return and space. *)
Definition is_space (c : ascii) : bool :=
  let n := nat_of_ascii c in
  ((9 <=? n)%nat && (n <=? 13)%nat) || (n =? 32)%nat.

(** The white space of two and three bytes: U+00A0; U+1680; U+2000 to
    U+200A, U+2028, U+2029, U+202F and U+205F; U+3000; U+FEFF. *)
Definition is_space2 (a b : ascii) : bool :=
  (nat_of_ascii a =? 194)%nat && (nat_of_ascii b =? 160)%nat.

Definition is_space3 (a b c : ascii) : bool :=
  let x := nat_of_ascii a in
  let y := nat_of_ascii b in
  let z := nat_of_ascii c in
  ((x =? 225) && (y =? 154) && (z =? 128))%nat
  || ((x =? 226) && (y =? 128)
      && (((128 <=? z) && (z <=? 138)) || (z =? 168) || (z =? 169) || (z =? 175)))%nat
  || ((x =? 226) && (y =? 129) && (z =? 159))%nat
  || ((x =? 227) && (y =? 128) && (z =? 128))%nat
  || ((x =? 239) && (y =? 187) && (z =? 191))%nat.

(** The number of bytes of the white space character that a string
    starts with; 0 when it starts with none. *)
Definition space_width (s : string) : nat :=
  match s with
  | EmptyString => 0
  | String a rest =>
      if is_space a then 1
      else match rest with
           | EmptyString => 0
           | String b rest' =>
               if is_space2 a b then 2
               else match rest' with
                    | EmptyString => 0
                    | String c _ => if is_space3 a b c then 3 else 0
                    end
           end
  end.

Definition lower_char (c : ascii) : ascii :=
  let n := nat_of_ascii c in
  if ((65 <=? n) && (n <=? 90))%nat then ascii_of_nat (n + 32) else c.

Definition upper_char (c : ascii) : ascii :=
  let n := nat_of_ascii c in
  if ((97 <=? n) && (n <=? 122))%nat then ascii_of_nat (n - 32) else c.

Fixpoint map_chars (f : ascii -> ascii) (s : string) : string :=
  match s with
  | EmptyString => EmptyString
  | String c rest => String (f c) (map_chars f rest)
  end.

Definition toLowerCase (s : string) : string := map_chars lower_char s.
Definition toUpperCase (s : string) : string := map_chars upper_char s.

(** [trimStart] drops the white space characters that a string starts
    with; [inside] counts the bytes still to drop of the character that
    is being dropped. *)
Fixpoint skip_spaces (inside : nat) (s : string) : string :=
  match s with
  | EmptyString => EmptyString
  | String _ rest =>
      match inside with
      | S more => skip_spaces more rest
      | O =>
          match space_width s with
          | O => s
          | S more => skip_spaces more rest
          end
      end
  end.

Definition trimStart (s : string) : string := skip_spaces 0 s.

(** A string of white space characters only. *)
Fixpoint blank_from (inside : nat) (s : string) : bool :=
  match s with
  | EmptyString => true
  | String _ rest =>
      match inside with
      | S more => blank_from more rest
      | O =>
          match space_width s with
          | O => false
          | S more => blank_from more rest
          end
      end
  end.

Definition blank (s : string) : bool := blank_from 0 s.

(** [trimEnd] drops the trailing white space: the string is cut where
    what is left of it is blank. *)
Fixpoint trimEnd (s : string) : string :=
  match s with
  | EmptyString => EmptyString
  | String c rest => if blank s then EmptyString else String c (trimEnd rest)
  end.

Definition trim (s : string) : string := trimEnd (trimStart s).

(** The first of the two surrogates of the code point that a sequence
    of four bytes encodes, in three bytes. *)
Definition high_surrogate (a b c d : ascii) : string :=
  let point := ((N_of_ascii a mod 8) * 262144 + (N_of_ascii b mod 64) * 4096
                + (N_of_ascii c mod 64) * 64 + N_of_ascii d mod 64)%N in
  let unit := (55296 + (point - 65536) / 1024)%N in
  String (ascii_of_N 237)
    (String (ascii_of_N (128 + (unit / 64) mod 64))
       (String (ascii_of_N (128 + unit mod 64)) EmptyString)).

(** s.slice(0, n): the first [n] code units.  A continuation byte goes
    with the byte that opened its sequence; a cut between the two
    surrogates of a pair keeps the first. *)
Fixpoint slice0 (n : nat) (s : string) : string :=
  match s with
  | EmptyString => EmptyString
  | String a rest =>
      match units_of a, n with
      | O, _ => String a (slice0 n rest)
      | _, O => EmptyString
      | 1, S m => String a (slice0 m rest)
      | _, 1 =>
          match rest with
          | String b (String c (String d _)) => high_surrogate a b c d
          | _ => EmptyString
          end
      | _, S (S m) => String a (slice0 m rest)
      end
  end.

(** s.charAt(0) and s.slice(1), which the engine calls on the same
    word, to map the case of the first and to join the two again: the
    word is cut after its first byte.  For a word that starts with an
    ASCII character these are the two methods; for any other word the
    case mapping of this model keeps the first byte and the two parts
    join to the word again. *)
Definition slice1 (s : string) : string :=
  match s with
  | EmptyString => EmptyString
  | String _ rest => rest
  end.

Definition charAt0 (s : string) : string :=
  match s with
  | EmptyString => EmptyString
  | String c _ => String c EmptyString
  end.

Definition startsWith (s p : string) : bool := prefix p s.

(** The text after the first [n] bytes: s.slice(n) past a prefix of
    ASCII characters. *)
Fixpoint drop (n : nat) (s : string) : string :=
  match n, s with
  | O, _ => s
  | S _, EmptyString => EmptyString
  | S m, String _ rest => drop m rest
  end.

(** s.replace(/c/g, by) for a one-character pattern. *)
Fixpoint replace_all (c : ascii) (by_ : string) (s : string) : string :=
  match s with
  | EmptyString => EmptyString
  | String d rest =>
      if Ascii.eqb d c then by_ ++ replace_all c by_ rest
      else String d (replace_all c by_ rest)
  end.

(** s.split(c) for a one-character separator: never empty. *)
Fixpoint split_char (c : ascii) (s : string) : list string :=
  match s with
  | EmptyString => [EmptyString]
  | String d rest =>
      if Ascii.eqb d c then EmptyString :: split_char c rest
      else match split_char c rest with
           | [] => [String d EmptyString]
           | seg :: segs => String d seg :: segs
           end
  end.

(** s.split(/\s+/): a run of white space is one separator.  The flag
    tells that the previous character belonged to a separator, and
    [inside] counts the bytes still to pass of a white space
    character. *)
Fixpoint split_spaces_from (in_separator : bool) (inside : nat) (s : string)
  : list string :=
  match s with
  | EmptyString => [EmptyString]
  | String d rest =>
      match inside with
      | S more => split_spaces_from true more rest
      | O =>
          match space_width s with
          | S more =>
              if in_separator then split_spaces_from true more rest
              else EmptyString :: split_spaces_from true more rest
          | O =>
              match split_spaces_from false 0 rest with
              | [] => [String d EmptyString]
              | seg :: segs => String d seg :: segs
              end
          end
      end
  end.

Definition split_spaces (s : string) : list string := split_spaces_from false 0 s.

(** array.pop(): the last element, [undefined] on an empty array. *)
Fixpoint pop {A : Type} (l : list A) : option A :=
  match l with
  | [] => None
  | [x] => Some x
  | _ :: rest => pop rest
  end.

(** array.join(sep) on strings. *)
Definition join (sep : string) (l : list string) : string := String.concat sep l.

(** s.split(/\r?\n/, 1)[0]: the text before the first line break. *)
Fixpoint first_segment (s : string) : string :=
  match s with
  | EmptyString => EmptyString
  | String c rest =>
      if Ascii.eqb c LF then EmptyString
      else if Ascii.eqb c CR && startsWith rest newline then EmptyString
      else String c (first_segment rest)
  end.

(** ** Coercions and operators *)

(** The integer that a double holds for [z >= 0]: [z] rounded to 53
    significant bits, a tie going to the even significand. *)
Definition round53 (z : Z) : Z :=
  if (z <? 2 ^ 53)%Z then z
  else
    let shift := (Z.log2 z - 52)%Z in
    let kept := Z.shiftr z shift in
    let left := (z - Z.shiftl kept shift)%Z in
    let half := Z.shiftl 1 (shift - 1) in
    let kept := if (half <? left)%Z || ((left =? half)%Z && Z.odd kept)
                then (kept + 1)%Z else kept in
    Z.shiftl kept shift.

(** The Number value for [z], as an integer, and whether it is infinite. *)
Definition double_of (z : Z) : Z := (Z.sgn z * round53 (Z.abs z))%Z.
Definition is_infinite (z : Z) : bool := (2 ^ 1024 <=? round53 (Z.abs z))%Z.

Definition decimal (z : Z) : string := NilZero.string_of_int (Z.to_int z).

Fixpoint zeros (n : nat) : string :=
  match n with
  | O => EmptyString
  | S m => String "0" (zeros m)
  end.

(** Number::toString prints the fewest digits that still denote the
    number.  [significand x n k] is the number of [k] digits that,
    followed by [n - k] zeros, rounds to [x], a number of [n] digits;
    of two such numbers it is the one nearer to [x]. *)
Definition significand (x : Z) (n k : nat) : option Z :=
  let scale := (10 ^ Z.of_nat (n - k))%Z in
  let below := (x / scale)%Z in
  let above := (below + 1)%Z in
  let denotes s :=
    ((10 ^ Z.of_nat (k - 1) <=? s) && (s <? 10 ^ Z.of_nat k)
     && (round53 (s * scale) =? x))%Z in
  match denotes below, denotes above with
  | true, true =>
      let under := (x - below * scale)%Z in
      let over := (above * scale - x)%Z in
      if (under <? over)%Z || ((under =? over)%Z && Z.even below)
      then Some below else Some above
  | true, false => Some below
  | false, true => Some above
  | false, false => None
  end.

Fixpoint shortest (x : Z) (n fuel k : nat) : Z * nat :=
  match fuel with
  | O => (x, n)
  | S fuel' =>
      match significand x n k with
      | Some s => (s, k)
      | None => shortest x n fuel' (S k)
      end
  end.

(** The digits of a positive double: as they are up to 21 digits, with
    an exponent from 22 digits on. *)
Definition digits_of (x : Z) : string :=
  let n := String.length (decimal x) in
  let (s, k) := shortest x n n 1 in
  if (n <=? 21)%nat then decimal s ++ zeros (n - k)
  else
    match decimal s with
    | EmptyString => EmptyString
    | String d EmptyString => String d ("e+" ++ decimal (Z.of_nat (n - 1)))
    | String d more => String d ("." ++ more ++ "e+" ++ decimal (Z.of_nat (n - 1)))
    end.

Definition number_to_string (n : number) : string :=
  match n with
  | Int z =>
      if (z =? 0)%Z then "0"
      else
        (if (z <? 0)%Z then "-" else "")
        ++ (if is_infinite z then "Infinity" else digits_of (round53 (Z.abs z)))
  | NaN => "NaN"
  end.

Definition nat_to_string (n : nat) : string := number_to_string (Int (Z.of_nat n)).

Definition nullish (v : value) : bool :=
  match v with
  | VUndef | VNull => true
  | _ => false
  end.

Definition truthy (v : value) : bool :=
  match v with
  | VUndef | VNull => false
  | VBool b => b
  | VNum (Int z) => negb (Z.eqb z 0)
  | VNum NaN => false
  | VStr s => negb (is_empty s)
  | VArr _ | VObj _ => true
  end.

(** a ?? b *)
Definition nullish_or (a b : value) : value := if nullish a then b else a.
Infix "??" := nullish_or (at level 45, left associativity).

(** a || b *)
Definition or_else (a b : value) : value := if truthy a then a else b.

(** a || b on strings *)
Definition str_or (a b : string) : string := if is_empty a then b else a.

(** typeof v === "string" *)
Definition is_string (v : value) : bool :=
  match v with
  | VStr _ => true
  | _ => false
  end.

(** typeof v === "object": null, arrays and objects. *)
Definition typeof_object (v : value) : bool :=
  match v with
  | VNull | VArr _ | VObj _ => true
  | _ => false
  end.

Definition isArray (v : value) : bool :=
  match v with
  | VArr _ => true
  | _ => false
  end.

Fixpoint lookup (key : string) (fields : list (string * value)) : value :=
  match fields with
  | [] => VUndef
  | (k, v) :: rest => if String.eqb key k then v else lookup key rest
  end.

Fixpoint has_own (key : string) (fields : list (string * value)) : bool :=
  match fields with
  | [] => false
  | (k, _) :: rest => String.eqb key k || has_own key rest
  end.

(** Property read [v.key] (and [v?.key]) for the keys the engine names.
    None of them is an array index, [length], or a member of a built-in
    prototype, so only own properties of objects are ever found. *)
Definition get (v : value) (key : string) : value :=
  match v with
  | VObj fields => lookup key fields
  | _ => VUndef
  end.

(** [String(v)], which is also what a template literal applies to an
    interpolated value.  An array joins its elements with commas, null
    and undefined elements printing as nothing.  An object prints through
    [Object.prototype.toString] unless it has a property [toString] of
    its own: a JSON value is never callable, and the conversion then
    fails with a TypeError. *)
Definition join_elements (to_string : value -> result string)
  : list value -> result string :=
  fix join_items (l : list value) : result string :=
    match l with
    | [] => Ok EmptyString
    | x :: rest =>
        s <- (if nullish x then Ok EmptyString else to_string x) ;;
        match rest with
        | [] => Ok s
        | _ :: _ => t <- join_items rest ;; Ok (s ++ "," ++ t)
        end
    end.

Fixpoint js_String (v : value) : result string :=
  match v with
  | VUndef => Ok "undefined"
  | VNull => Ok "null"
  | VBool true => Ok "true"
  | VBool false => Ok "false"
  | VNum n => Ok (number_to_string n)
  | VStr s => Ok s
  | VArr items => join_elements js_String items
  | VObj fields =>
      if has_own "toString" fields
      then Throw (TypeError "Cannot convert object to primitive value")
      else Ok "[object Object]"
  end.

(** v === "s" *)
Definition is_str (v : value) (s : string) : bool :=
  match v with
  | VStr t => String.eqb t s
  | _ => false
  end.

(** Array.isArray(v) ? v : [] *)
Definition array_or_empty (v : value) : list value :=
  match v with
  | VArr items => items
  | _ => []
  end.

(** typeof v === "string" ? v.slice(0, n) : "" *)
Definition string_slice_or_empty (n : nat) (v : value) : string :=
  match v with
  | VStr s => slice0 n s
  | _ => ""
  end.

(** The method call [v.toLowerCase()] on a value that is not nullish:
    only a string has the method. *)
Definition call_toLowerCase (v : value) : result string :=
  match v with
  | VStr s => Ok (toLowerCase s)
  | _ => Throw (TypeError "toLowerCase is not a function")
  end.

(** The method call [v.slice(0, n)] on a value that is not nullish:
    strings and arrays have the method. *)
Definition call_slice0 (n : nat) (v : value) : result value :=
  match v with
  | VStr s => Ok (VStr (slice0 n s))
  | VArr items => Ok (VArr (firstn n items))
  | _ => Throw (TypeError "slice is not a function")
  end.

(** ** Property order

    [Object.keys], [Object.entries] and [JSON.stringify] list the array
    indices first, in ascending order, then the other keys in insertion
    order. *)

Definition is_digit (c : ascii) : bool :=
  let n := nat_of_ascii c in ((48 <=? n) && (n <=? 57))%nat.

Fixpoint all_digits (s : string) : bool :=
  match s with
  | EmptyString => true
  | String c rest => is_digit c && all_digits rest
  end.

Fixpoint digits_value (acc : N) (s : string) : N :=
  match s with
  | EmptyString => acc
  | String c rest => digits_value (acc * 10 + N.of_nat (nat_of_ascii c - 48)) rest
  end.

(** A canonical numeric string below 2^32 - 1. *)
Definition array_index (key : string) : option N :=
  match key with
  | EmptyString => None
  | String c rest =>
      if all_digits key && (negb (Ascii.eqb c "0") || is_empty rest)
         && (String.length key <=? 10)%nat
      then let n := digits_value 0 key in
           if (n <? 4294967295)%N then Some n else None
      else None
  end.

Section PropertyOrder.
Context {A : Type}.

Fixpoint insert_index (n : N) (kv : string * A) (l : list (N * (string * A)))
  : list (N * (string * A)) :=
  match l with
  | [] => [(n, kv)]
  | (m, kv') :: rest =>
      if (n <? m)%N then (n, kv) :: l else (m, kv') :: insert_index n kv rest
  end.

Fixpoint index_entries (fields : list (string * A)) : list (N * (string * A)) :=
  match fields with
  | [] => []
  | (k, v) :: rest =>
      match array_index k with
      | Some n => insert_index n (k, v) (index_entries rest)
      | None => index_entries rest
      end
  end.

Definition named_entries (fields : list (string * A)) : list (string * A) :=
  filter (fun kv => match array_index (fst kv) with Some _ => false | None => true end)
         fields.

Definition own_entries (fields : list (string * A)) : list (string * A) :=
  (map snd (index_entries fields) ++ named_entries fields)%list.
End PropertyOrder.

Fixpoint indexed_from (i : nat) (items : list value) : list (string * value) :=
  match items with
  | [] => []
  | x :: rest => (nat_to_string i, x) :: indexed_from (S i) rest
  end.

(** Object.entries(v) for an array or an object. *)
Definition entries (v : value) : list (string * value) :=
  match v with
  | VObj fields => own_entries fields
  | VArr items => indexed_from 0 items
  | _ => []
  end.

(** Object.keys(v).length > 0 *)
Definition has_keys (v : value) : bool :=
  match entries v with
  | [] => false
  | _ :: _ => true
  end.

(** ** JSON.stringify *)

Definition hex_digit (n : nat) : ascii :=
  if (n <? 10)%nat then ascii_of_nat (48 + n) else ascii_of_nat (87 + n).

Definition quote_char (c : ascii) : string :=
  let n := nat_of_ascii c in
  if (n =? 8)%nat then "\b"
  else if (n =? 9)%nat then "\t"
  else if (n =? 10)%nat then "\n"
  else if (n =? 12)%nat then "\f"
  else if (n =? 13)%nat then "\r"
  else if (n =? 34)%nat then "\" ++ dquote
  else if (n =? 92)%nat then "\\"
  else if (n <? 32)%nat
       then "\u00" ++ String (hex_digit (n / 16)) (String (hex_digit (n mod 16)) EmptyString)
  else String c EmptyString.

Fixpoint quote_chars (s : string) : string :=
  match s with
  | EmptyString => EmptyString
  | String c rest => quote_char c ++ quote_chars rest
  end.

Definition quote_json (s : string) : string := dquote ++ quote_chars s ++ dquote.

(** [None] is the [undefined] that JSON.stringify returns for undefined:
    an object drops such a property, an array prints null for it. *)
Fixpoint stringify (v : value) : option string :=
  match v with
  | VUndef => None
  | VNull => Some "null"
  | VBool true => Some "true"
  | VBool false => Some "false"
  | VNum NaN => Some "null"
  | VNum (Int z) => Some (if is_infinite z then "null" else number_to_string (Int z))
  | VStr s => Some (quote_json s)
  | VArr items =>
      Some ("[" ++ join ","
              ((fix each (l : list value) : list string :=
                  match l with
                  | [] => []
                  | x :: rest =>
                      match stringify x with
                      | Some t => t
                      | None => "null"
                      end :: each rest
                  end) items) ++ "]")
  | VObj fields =>
      let rendered :=
        (fix each (l : list (string * value)) : list (string * option string) :=
           match l with
           | [] => []
           | (k, x) :: rest => (k, stringify x) :: each rest
           end) fields in
      Some ("{" ++ join ","
              (flat_map (fun kt => match snd kt with
                                   | Some t => [quote_json (fst kt) ++ ":" ++ t]
                                   | None => []
                                   end)
                        (own_entries rendered)) ++ "}")
  end.

(** ** Numeric coercion and product (marketplace totals)

    [Number(v)] on a string reads a numeric literal, with white space
    around it: the empty string is 0; a decimal literal may have a
    sign, a fraction and an exponent; [Infinity] may have a sign; a
    literal in base 16, 8 or 2 has its prefix and no sign.  Any other
    string is NaN.  A literal whose value has a fractional part
    denotes a number outside the model and is read as NaN as well.  An
    array or an object is first converted to a string. *)

(** The text before the first character that passes [test], and the
    text after it when there is one. *)
Fixpoint break_at (test : ascii -> bool) (s : string) : string * option string :=
  match s with
  | EmptyString => (EmptyString, None)
  | String c rest =>
      if test c then (EmptyString, Some rest)
      else let (before, after) := break_at test rest in (String c before, after)
  end.

Definition digit_of (base : N) (c : ascii) : option N :=
  let n := N.of_nat (nat_of_ascii c) in
  let d := if ((48 <=? n) && (n <=? 57))%N then Some (n - 48)%N
           else if ((97 <=? n) && (n <=? 102))%N then Some (n - 87)%N
           else if ((65 <=? n) && (n <=? 70))%N then Some (n - 55)%N
           else None in
  match d with
  | Some v => if (v <? base)%N then Some v else None
  | None => None
  end.

(** The value of a non-empty string of digits of a base. *)
Fixpoint radix_value (base : N) (acc : N) (s : string) : option N :=
  match s with
  | EmptyString => Some acc
  | String c rest =>
      match digit_of base c with
      | Some d => radix_value base (acc * base + d) rest
      | None => None
      end
  end.

Definition radix_literal (base : N) (digits : string) : number :=
  match digits, radix_value base 0 digits with
  | String _ _, Some n => Int (Z.of_N n)
  | _, _ => NaN
  end.

(** A signed exponent: [e] or [E] was read before it. *)
Definition exponent_value (s : string) : option Z :=
  let unsigned digits :=
    if all_digits digits && negb (is_empty digits)
    then Some (Z.of_N (digits_value 0 digits)) else None in
  match s with
  | String c rest =>
      if Ascii.eqb c "-" then option_map Z.opp (unsigned rest)
      else if Ascii.eqb c "+" then unsigned rest
      else unsigned s
  | EmptyString => None
  end.

(** An unsigned decimal literal: digits, a fraction, an exponent. *)
Definition decimal_literal (s : string) : number :=
  let (mantissa, exponent) :=
    break_at (fun c => Ascii.eqb c "e" || Ascii.eqb c "E") s in
  let (whole, fraction) := break_at (fun c => Ascii.eqb c ".") mantissa in
  let fraction_digits := match fraction with Some f => f | None => EmptyString end in
  let written := all_digits whole && all_digits fraction_digits
                 && negb (is_empty whole && is_empty fraction_digits) in
  let power := match exponent with
               | Some e => exponent_value e
               | None => Some 0%Z
               end in
  match written, power with
  | true, Some e =>
      let digits := Z.of_N (digits_value 0 (whole ++ fraction_digits)) in
      let e := (e - Z.of_nat (String.length fraction_digits))%Z in
      if (0 <=? e)%Z then Int (digits * 10 ^ e)
      else if (digits mod 10 ^ (- e) =? 0)%Z then Int (digits / 10 ^ (- e))
      else NaN
  | _, _ => NaN
  end.

Definition signed_literal (s : string) : number :=
  if String.eqb s "Infinity" then Int (2 ^ 1024) else decimal_literal s.

Definition negated (n : number) : number :=
  match n with
  | Int z => Int (- z)
  | NaN => NaN
  end.

Definition string_to_number (s : string) : number :=
  match trim s with
  | EmptyString => Int 0
  | String c rest as t =>
      if Ascii.eqb c "-" then negated (signed_literal rest)
      else if Ascii.eqb c "+" then signed_literal rest
      else if startsWith t "0x" || startsWith t "0X" then radix_literal 16 (drop 2 t)
      else if startsWith t "0o" || startsWith t "0O" then radix_literal 8 (drop 2 t)
      else if startsWith t "0b" || startsWith t "0B" then radix_literal 2 (drop 2 t)
      else signed_literal t
  end.

Definition to_number (v : value) : result number :=
  match v with
  | VUndef => Ok NaN
  | VNull => Ok (Int 0)
  | VBool true => Ok (Int 1)
  | VBool false => Ok (Int 0)
  | VNum n => Ok n
  | VStr s => Ok (string_to_number s)
  | VArr _ | VObj _ => s <- js_String v ;; Ok (string_to_number s)
  end.

(** a * b *)
Definition times (a b : value) : result number :=
  x <- to_number a ;;
  y <- to_number b ;;
  Ok match x, y with
     | Int m, Int n =>
         if (is_infinite m && (n =? 0)%Z) || (is_infinite n && (m =? 0)%Z) then NaN
         else Int (double_of m * double_of n)
     | _, _ => NaN
     end.

(** ** Arrays of strings and substring replacement *)

(** array.includes(x) on strings. *)
Definition includes (l : list string) (x : string) : bool := existsb (String.eqb x) l.

(** array.sort() with the default comparison, on strings: ascending by
    code units.  The sort is stable, which equal strings cannot show. *)
Fixpoint insert_sorted (x : string) (l : list string) : list string :=
  match l with
  | [] => [x]
  | y :: rest => if String.leb x y then x :: l else y :: insert_sorted x rest
  end.

Definition sort (l : list string) : list string := fold_right insert_sorted [] l.

(** s.replace(pattern, "") for a string pattern: the first occurrence
    is removed. *)
Fixpoint remove_first (pattern s : string) : string :=
  if prefix pattern s then drop (String.length pattern) s
  else match s with
       | EmptyString => EmptyString
       | String c rest => String c (remove_first pattern rest)
       end.

Definition RangeError (msg : string) : thrown :=
  {| thrown_nullish := false; message := VStr msg; inspected := "RangeError: " ++ msg |}.

End Js.


(* ================================================================== *)
(** * The engine *)
(* ================================================================== *)

Module Github.
Import Js.

Definition MAX_COMMITS : nat := 5.
Definition UNKNOWN : string := "unknown".

(** ** Text primitives *)

(** The chain of four replacements of [esc], the ampersand first. *)
Definition html_escape (s : string) : string :=
  replace_all (ascii_of_nat 34) "&quot;"
    (replace_all ">"%char "&gt;"
      (replace_all "<"%char "&lt;"
        (replace_all "&"%char "&amp;" s))).

Definition esc (v : value) : result string :=
  s <- js_String (v ?? VStr "") ;;
  Ok (html_escape s).

(** A template literal: its pieces are evaluated from left to right and
    concatenated; [lit] is literal text, [raw v] an interpolation of [v]
    with no escaping. *)
Definition lit (s : string) : result string := Ok s.
Definition raw (v : value) : result string := js_String v.
Definition tmpl (pieces : list (result string)) : result string :=
  l <- sequence pieces ;;
  Ok (String.concat "" l).

(** The [lines] array of a handler: the lines are computed in order and
    joined by a line feed; [when_ c line] is a conditional [push]. *)
Definition lines (ls : list (result string)) : result string :=
  l <- sequence ls ;;
  Ok (join newline l).
Definition when_ (c : bool) (line : result string) : list (result string) :=
  if c then [line] else [].

Definition link (url text : value) : result string :=
  match url with
  | VStr u =>
      if is_empty u then Ok ""
      else
        label <- (if truthy text then js_String text else Ok u) ;;
        tmpl [lit "<a href="; lit dquote; esc (VStr u); lit dquote; lit ">";
              esc (VStr label); lit "</a>"]
  | _ => Ok ""
  end.

Definition firstLine (text : value) (limit : nat) : string :=
  match text with
  | VStr s => if is_empty s then "" else slice0 limit (first_segment s)
  | _ => ""
  end.

(** ** Payload navigation *)

Definition ensureMapping (data : value) : value :=
  match data with
  | VObj _ => data
  | _ => VObj []
  end.

Fixpoint dig (data : value) (path : list string) : value :=
  match path with
  | [] => data
  | key :: rest =>
      if negb (truthy data) || negb (typeof_object data) then VUndef
      else
        let current := get data key in
        if nullish current then current else dig current rest
  end.

Definition SUBJECT_NAME_FIELDS : list (list string) :=
  [ ["title"]; ["name"]; ["login"]; ["slug"]; ["ref"]; ["branch"]; ["tag"];
    ["tag_name"]; ["environment"]; ["key"]; ["pattern"]; ["sha"]; ["node_id"];
    ["id"]; ["number"] ].

Definition SUBJECT_URL_FIELDS : list (list string) :=
  [ ["html_url"]; ["url"]; ["target_url"]; ["links"; "html"]; ["links"; "self"] ].

(** The value of [extra]: a plain value, or a function of the payload. *)
Inductive Extra : Type :=
| ExtraValue (v : value)
| ExtraResolver (f : value -> result value).

Record Subject : Type := mkSubject { name : string; url : string }.

(** The cut to 160 characters that [extractSubject] applies twice. *)
Definition clip (text : string) : string :=
  if (160 <? length text)%nat then slice0 157 text ++ "..." else text.

(** candidate[candidate.length - 1] === "number" *)
Definition ends_in_number (candidate : list string) : bool :=
  match pop candidate with
  | Some k => String.eqb k "number"
  | None => false
  end.

(** The loop over the name candidates; [continue] is the recursive call,
    [break] the return.  The test [text.length > 0] asks for one code
    unit, which a text has exactly when it has a byte. *)
Fixpoint subject_name (data : value) (nameFields : list (list string)) : result string :=
  match nameFields with
  | [] => Ok ""
  | candidate :: rest =>
      let v := dig data candidate in
      if nullish v then subject_name data rest
      else if typeof_object v then subject_name data rest
      else
        s <- js_String v ;;
        let text := trim s in
        if is_empty text then subject_name data rest
        else
          let text :=
            if ends_in_number candidate && (0 <? String.length text)%nat
               && negb (startsWith text "#")
            then "#" ++ text else text in
          Ok (clip text)
  end.

(** The loops that stop at the first candidate holding a non-empty
    string; [""] when there is none. *)
Fixpoint first_string (data : value) (paths : list (list string)) : string :=
  match paths with
  | [] => ""
  | path :: rest =>
      match dig data path with
      | VStr s => if is_empty s then first_string data rest else s
      | _ => first_string data rest
      end
  end.

Definition extractSubject (data : value) (fields : option (list (list string)))
  : result Subject :=
  if truthy data && typeof_object data && negb (isArray data) then
    let nameFields :=
      match fields with
      | Some l => l
      | None => SUBJECT_NAME_FIELDS
      end in
    text <- subject_name data nameFields ;;
    Ok {| name := text; url := first_string data SUBJECT_URL_FIELDS |}
  else
    match data with
    | VNull | VUndef | VStr EmptyString => Ok {| name := ""; url := "" |}
    | _ =>
        text <- js_String data ;;
        Ok {| name := clip text; url := "" |}
    end.

(** The [spec] argument of [resolveSubject]: nothing, one field name, or
    an array whose items are field names or paths. *)
Inductive SpecItem : Type :=
| ItemField (field : string)
| ItemPath (path : list string).

Inductive SubjectSpec : Type :=
| SpecNone
| SpecField (field : string)
| SpecItems (items : list SpecItem).

Definition spec_paths (spec : SubjectSpec) : list (list string) :=
  match spec with
  | SpecNone => []
  | SpecField field => [[field]]
  | SpecItems items =>
      map (fun item => match item with
                       | ItemField field => [field]
                       | ItemPath path => path
                       end) items
  end.

Fixpoint first_truthy (payload : value) (paths : list (list string)) : value :=
  match paths with
  | [] => VNull
  | path :: rest =>
      let subject := dig payload path in
      if truthy subject then subject else first_truthy payload rest
  end.

Definition resolveSubject (payload : value) (spec : SubjectSpec) : value :=
  match spec with
  | SpecNone => VNull
  | _ => first_truthy payload (spec_paths spec)
  end.

Definition actor (payload : value) : string :=
  first_string payload
    [ ["sender"; "login"]; ["sender"; "name"]; ["user"; "login"]; ["user"; "name"];
      ["actor"; "login"]; ["actor"; "name"]; ["pusher"; "name"]; ["pusher"; "email"];
      ["installation"; "account"; "login"]; ["installation"; "account"; "name"] ].

Definition repo (payload : value) : string :=
  first_string payload [ ["repository"; "full_name"]; ["repository"; "name"] ].

Definition capitalize (word : string) : string :=
  toUpperCase (charAt0 word) ++ slice1 word.

Definition prettyLabel (event : string) : string :=
  let words := trim (replace_all "_"%char " " event) in
  if is_empty words then "Event"
  else join " " (map capitalize (split_spaces words)).

(** What [callableExtra] makes of a value: a non-empty string is one
    line, an array gives its truthy items as strings. *)
Definition extra_lines (v : value) : result (list string) :=
  match v with
  | VStr s => Ok (if is_empty s then [] else [s])
  | VArr items => sequence (map js_String (filter truthy items))
  | _ => Ok []
  end.

(** error.message || inspect(error), escaped; reading [message] off
    null or undefined throws. *)
Definition extra_error (error : thrown) : result (list string) :=
  if thrown_nullish error
  then Throw (TypeError "Cannot read properties of undefined (reading 'message')")
  else
    line <- tmpl [lit "<i>extra error: ";
                  esc (or_else (message error) (VStr (inspected error)));
                  lit "</i>"] ;;
    Ok [line].

Definition callableExtra (extra : Extra) (payload : value) : result (list string) :=
  match extra with
  | ExtraResolver f =>
      try_catch (r <- f payload ;; extra_lines r) extra_error
  | ExtraValue v =>
      if negb (truthy v) then Ok [] else extra_lines v
  end.

Definition formatMainLine (label action subjectName repoName actorName : string) : string :=
  let line := "<b>" ++ html_escape label ++ "</b>" in
  let line := if is_empty subjectName then line
              else line ++ ": " ++ html_escape subjectName in
  let line := if is_empty action then line
              else line ++ " <b>" ++ html_escape action ++ "</b>" in
  let line := if is_empty repoName then line
              else line ++ " in <code>" ++ html_escape repoName ++ "</code>" in
  if negb (is_empty actorName) && negb (String.eqb actorName UNKNOWN)
  then line ++ " by <b>" ++ html_escape actorName ++ "</b>"
  else line.

Record Options : Type := mkOptions {
  subject : SubjectSpec;
  subjectFields : option (list (list string));
  urlFields : option (list (list string));
  extra : Extra
}.

Definition no_options : Options :=
  {| subject := SpecNone; subjectFields := None; urlFields := None;
     extra := ExtraValue VUndef |}.

Definition genericActionSummary (label : string) (payloadInput : value) (options : Options)
  : result string :=
  let payload := ensureMapping payloadInput in
  action_text <- js_String (get payload "action" ?? VStr "") ;;
  let action := trim action_text in
  let actorName := str_or (actor payload) UNKNOWN in
  let repoName := repo payload in
  let subjectData := resolveSubject payload (subject options) in
  found <-
    (if nullish subjectData then Ok {| name := ""; url := "" |}
     else
       s <- extractSubject subjectData (subjectFields options) ;;
       let subjectUrl :=
         match urlFields options with
         | Some candidates =>
             if is_empty (url s) && typeof_object subjectData
             then first_string subjectData candidates
             else url s
         | None => url s
         end in
       Ok {| name := name s; url := subjectUrl |}) ;;
  let head := [formatMainLine label action (name found) repoName actorName] in
  details <- (if is_empty (url found) then Ok []
              else l <- link (VStr (url found)) (VStr "View details") ;; Ok [l]) ;;
  extras <- callableExtra (extra options) payload ;;
  Ok (join newline (head ++ details ++ filter (fun l => negb (is_empty l)) extras)%list).

(** ** Handlers

    A handler receives the payload and the event key.  Each one follows
    its source function line by line: the constants first, then the
    [lines] array. *)

Definition Handler : Type := value -> string -> result string.

(** items.map(f).join(sep) *)
Definition map_join (sep : string) (f : value -> result string) (items : list value)
  : result string :=
  l <- sequence (map f items) ;;
  Ok (join sep l).

Definition summarizePing (payload : value) : result string :=
  let data := ensureMapping payload in
  let repoName := str_or (repo data) "?" in
  let zen := get data "zen" ?? VStr "" in
  let hook := ensureMapping (get data "hook") in
  let hookId := get data "hook_id" ?? get hook "id" ?? VStr "?" in
  let cfg := ensureMapping (get hook "config") in
  let events := array_or_empty (get hook "events") in
  let lastResponse :=
    get (ensureMapping (get hook "last_response")) "status" ?? VStr "unknown" in
  let createdAt := get hook "created_at" ?? VStr "" in
  let updatedAt := get hook "updated_at" ?? VStr "" in
  let payloadUrl := get cfg "url" in
  let testUrl := get hook "test_url" in
  let pingUrl := get hook "ping_url" in
  lines
    ([ lit "<b>GitHub webhook ping received</b>";
       tmpl [lit "repository: <code>"; esc (VStr repoName); lit "</code>"];
       tmpl [lit "hook_id: <code>"; esc hookId; lit "</code>"];
       (if (0 <? List.length events)%nat
        then tmpl [lit "events: ";
                   map_join ", " (fun evt => tmpl [lit "<code>"; esc evt; lit "</code>"])
                            events]
        else lit "events: <code>*</code>");
       tmpl [lit "payload_url: ";
             if truthy payloadUrl then link payloadUrl VUndef else lit "<code>-</code>"];
       tmpl [lit "last_response: <code>"; esc lastResponse; lit "</code>"] ]
     ++ when_ (truthy createdAt) (tmpl [lit "created_at: <code>"; esc createdAt; lit "</code>"])
     ++ when_ (truthy updatedAt) (tmpl [lit "updated_at: <code>"; esc updatedAt; lit "</code>"])
     ++ when_ (truthy testUrl) (tmpl [lit "test_url: "; link testUrl VUndef])
     ++ when_ (truthy pingUrl) (tmpl [lit "ping_url: "; link pingUrl VUndef])
     ++ when_ (truthy zen) (tmpl [lit "zen: "; esc zen]))%list.

Definition summarizeCreate (payload : value) : result string :=
  let data := ensureMapping payload in
  let repoName := repo data in
  let refType := get data "ref_type" ?? VStr "ref" in
  let ref := get data "ref" ?? VStr "?" in
  let actorName := str_or (actor data) UNKNOWN in
  repoPart <- (if is_empty repoName then Ok ""
               else tmpl [lit " in <code>"; esc (VStr repoName); lit "</code>"]) ;;
  tmpl [lit "<b>Create</b> "; esc refType; lit " <code>"; esc ref; lit "</code>";
        lit repoPart; lit " by <b>"; esc (VStr actorName); lit "</b>"].

Definition summarizeDelete (payload : value) : result string :=
  let data := ensureMapping payload in
  let repoName := repo data in
  let refType := get data "ref_type" ?? VStr "ref" in
  let ref := get data "ref" ?? VStr "?" in
  let actorName := str_or (actor data) UNKNOWN in
  repoPart <- (if is_empty repoName then Ok ""
               else tmpl [lit " from <code>"; esc (VStr repoName); lit "</code>"]) ;;
  tmpl [lit "<b>Delete</b> "; esc refType; lit " <code>"; esc ref; lit "</code>";
        lit repoPart; lit " by <b>"; esc (VStr actorName); lit "</b>"].

(** The constants of [summarizePush] that the headline is made of. *)
Definition push_branch (ref : value) : string :=
  match ref with
  | VStr r =>
      if is_empty r then "unknown"
      else match pop (split_char "/" r) with
           | Some last => last
           | None => "unknown"
           end
  | _ => "unknown"
  end.

Definition push_isTag (ref : value) : bool :=
  match ref with
  | VStr r => startsWith r "refs/tags/"
  | _ => false
  end.

Definition push_actorName (data : value) : value :=
  or_else (dig data ["pusher"; "name"] ?? VStr (actor data)) (VStr UNKNOWN).

(** The body of the loop over the shown commits, at [index]. *)
Definition push_commit (commits : list value) (shown index : nat) : list (result string) :=
  let commit := ensureMapping (nth index commits VUndef) in
  let sha := string_slice_or_empty 7 (get commit "id") in
  let message := firstLine (get commit "message") 120 in
  let url := match get commit "url" with VStr u => u | _ => "" end in
  ([tmpl [lit "<code>"; esc (VStr sha); lit "</code> "; esc (VStr message)]]
   ++ when_ (negb (is_empty url)) (link (VStr url) (VStr "View commit"))
   ++ when_ (index <? shown - 1)%nat (lit ""))%list.

(** for (let index = ...; index < shown; index += 1), with [remaining]
    iterations to go. *)
Fixpoint push_commits_from (commits : list value) (shown index remaining : nat)
  : list (result string) :=
  match remaining with
  | O => []
  | S remaining' =>
      (push_commit commits shown index
       ++ push_commits_from commits shown (S index) remaining')%list
  end.

Definition summarizePush (payload : value) : result string :=
  let data := ensureMapping payload in
  let repoName := str_or (repo data) "?" in
  let repoUrl := dig data ["repository"; "html_url"] in
  let ref := get data "ref" ?? VStr "" in
  let isTag := push_isTag ref in
  let branch := push_branch ref in
  let deleted := truthy (get data "deleted") in
  let forced := truthy (get data "forced") in
  let actorName := push_actorName data in
  let commits := array_or_empty (get data "commits") in
  let compareUrl := match get data "compare" with VStr u => u | _ => "" end in
  let targetLabel := if isTag then "tag" else "branch" in
  lines
    ((if deleted then
        [tmpl [lit "<b>Deleted</b> "; lit targetLabel; lit " <code>"; esc (VStr branch);
               lit "</code>"; lit " from <code>"; esc (VStr repoName);
               lit "</code> by <b>"; esc actorName; lit "</b>"]]
      else
        let commitCount := List.length commits in
        let plural := if (commitCount =? 1)%nat then "commit" else "commits" in
        [tmpl [lit "<b>Push</b> to "; lit targetLabel; lit " <code>"; esc (VStr branch);
               lit "</code>"; lit " in <code>"; esc (VStr repoName);
               lit "</code> by <b>"; esc actorName; lit "</b>";
               lit " ("; lit (nat_to_string commitCount); lit " "; lit plural; lit ")";
               lit (if forced then " <i>(forced)</i>" else "")]]
        ++ when_ (negb (is_empty compareUrl)) (link (VStr compareUrl) (VStr "Compare"))
        ++ (if (0 <? List.length commits)%nat then
              let shown := Nat.min (List.length commits) MAX_COMMITS in
              let overflow := (Z.of_nat (List.length commits) - Z.of_nat MAX_COMMITS)%Z in
              [lit ""]
              ++ push_commits_from commits shown 0 shown
              ++ when_ (0 <? overflow)%Z
                   (tmpl [lit "<i>+"; lit (number_to_string (Int overflow));
                          lit " more commits</i>"])
            else []))
     ++ when_ (deleted && truthy repoUrl) (link repoUrl (VStr "Repository")))%list.

Definition summarizePullRequest (payload : value) : result string :=
  let data := ensureMapping payload in
  let action := get data "action" ?? VStr "" in
  let repoName := str_or (repo data) "?" in
  let pr := ensureMapping (get data "pull_request") in
  let number := get pr "number" ?? get data "number" ?? VStr "?" in
  let title := get pr "title" ?? VStr "" in
  let actorName := str_or (actor data) UNKNOWN in
  let headRef := dig pr ["head"; "ref"] ?? VStr "?" in
  let baseRef := dig pr ["base"; "ref"] ?? VStr "?" in
  let merged := truthy (get pr "merged") in
  let url := get pr "html_url" in
  let action := if is_str action "closed" && merged then VStr "merged" else action in
  lines
    ([tmpl [lit "<b>Pull request</b> <code>"; esc (VStr repoName); lit "</code> #";
            esc number; lit " <b>"; esc action; lit "</b> by <b>"; esc (VStr actorName);
            lit "</b>"]]
     ++ when_ (truthy title) (tmpl [lit "<b>"; esc title; lit "</b>"])
     ++ [tmpl [esc headRef; lit " → "; esc baseRef]]
     ++ when_ (truthy url) (link url (VStr "View pull request")))%list.

Definition summarizeIssues (payload : value) : result string :=
  let data := ensureMapping payload in
  let action := get data "action" ?? VStr "" in
  let repoName := str_or (repo data) "?" in
  let issue := ensureMapping (get data "issue") in
  let number := get issue "number" ?? get data "number" ?? VStr "?" in
  let title := get issue "title" ?? VStr "" in
  let actorName := str_or (actor data) UNKNOWN in
  let url := get issue "html_url" in
  lines
    ([tmpl [lit "<b>Issue</b> <code>"; esc (VStr repoName); lit "</code> #"; esc number;
            lit " <b>"; esc action; lit "</b> by <b>"; esc (VStr actorName); lit "</b>"]]
     ++ when_ (truthy title) (tmpl [lit "<b>"; esc title; lit "</b>"])
     ++ when_ (truthy url) (link url (VStr "View issue")))%list.

Definition summarizeIssueComment (payload : value) : result string :=
  let data := ensureMapping payload in
  let action := get data "action" ?? VStr "" in
  let issue := ensureMapping (get data "issue") in
  let comment := ensureMapping (get data "comment") in
  let actorName := str_or (actor data) UNKNOWN in
  let repoName := str_or (repo data) "?" in
  let number := get issue "number" ?? VStr "?" in
  let excerpt := firstLine (get comment "body") 200 in
  let url := get comment "html_url" ?? get issue "html_url" in
  lines
    ([tmpl [lit "<b>Issue comment</b> on <code>"; esc (VStr repoName); lit "</code> #";
            esc number; lit " <b>"; esc action; lit "</b> by <b>"; esc (VStr actorName);
            lit "</b>"]]
     ++ when_ (negb (is_empty excerpt)) (esc (VStr excerpt))
     ++ when_ (truthy url) (link url (VStr "View comment")))%list.

Definition summarizePullRequestReview (payload : value) : result string :=
  let data := ensureMapping payload in
  let action := get data "action" ?? VStr "" in
  let review := ensureMapping (get data "review") in
  let pr := ensureMapping (get data "pull_request") in
  let actorName := str_or (actor data) UNKNOWN in
  let repoName := str_or (repo data) "?" in
  let number := get pr "number" ?? get data "number" ?? VStr "?" in
  let state := get review "state" ?? VStr "" in
  let body := firstLine (get review "body") 200 in
  let url := get review "html_url" ?? get pr "html_url" in
  head <- tmpl [lit "<b>Pull request review</b> on <code>"; esc (VStr repoName);
                lit "</code> #"; esc number; lit " <b>"; esc (or_else action state);
                lit "</b> by <b>"; esc (VStr actorName); lit "</b>"] ;;
  (* state && state.toLowerCase() !== String(action).toLowerCase() *)
  differs <- (if truthy state then
                s <- call_toLowerCase state ;;
                a <- js_String action ;;
                Ok (negb (String.eqb s (toLowerCase a)))
              else Ok false) ;;
  lines
    ([lit head]
     ++ when_ differs (tmpl [lit "state: <code>"; esc state; lit "</code>"])
     ++ when_ (negb (is_empty body)) (esc (VStr body))
     ++ when_ (truthy url) (link url (VStr "View review")))%list.

Definition summarizePullRequestReviewComment (payload : value) : result string :=
  let data := ensureMapping payload in
  let action := get data "action" ?? VStr "" in
  let comment := ensureMapping (get data "comment") in
  let pr := ensureMapping (get data "pull_request") in
  let repoName := str_or (repo data) "?" in
  let actorName := str_or (actor data) UNKNOWN in
  let number := get pr "number" ?? get data "number" ?? VStr "?" in
  let path := get comment "path" ?? VStr "" in
  let position := get comment "position" in
  let body := firstLine (get comment "body") 200 in
  let url := get comment "html_url" ?? get pr "html_url" in
  lines
    ([tmpl [lit "<b>PR review comment</b> on <code>"; esc (VStr repoName); lit "</code> #";
            esc number; lit " <b>"; esc action; lit "</b> by <b>"; esc (VStr actorName);
            lit "</b>"]]
     ++ when_ (truthy path)
          (positionText <- (if nullish position then Ok ""
                            else tmpl [lit " (line "; raw position; lit ")"]) ;;
           tmpl [lit "file: <code>"; esc path; lit "</code>"; lit positionText])
     ++ when_ (negb (is_empty body)) (esc (VStr body))
     ++ when_ (truthy url) (link url (VStr "View comment")))%list.

Definition summarizePullRequestReviewThread (payload : value) : result string :=
  let data := ensureMapping payload in
  let action := get data "action" ?? VStr "" in
  let thread := ensureMapping (get data "thread") in
  let pr := ensureMapping (get data "pull_request") in
  let repoName := str_or (repo data) "?" in
  let number := get pr "number" ?? get data "number" ?? VStr "?" in
  let actorName := str_or (actor data) UNKNOWN in
  let url := get thread "html_url" ?? get pr "html_url" in
  let path := get thread "path" ?? VStr "" in
  lines
    ([tmpl [lit "<b>PR review thread</b> on <code>"; esc (VStr repoName); lit "</code> #";
            esc number; lit " <b>"; esc action; lit "</b> by <b>"; esc (VStr actorName);
            lit "</b>"]]
     ++ when_ (truthy path) (tmpl [lit "file: <code>"; esc path; lit "</code>"])
     ++ when_ (truthy url) (link url (VStr "View thread")))%list.

Definition summarizeRelease (payload : value) : result string :=
  let data := ensureMapping payload in
  let action := get data "action" ?? VStr "" in
  let release := ensureMapping (get data "release") in
  let repoName := str_or (repo data) "?" in
  let name := get release "name" ?? get release "tag_name" ?? VStr "release" in
  let url := get release "html_url" in
  let body := firstLine (get release "body") 200 in
  let draft := if truthy (get release "draft") then " (draft)" else "" in
  let prerelease := if truthy (get release "prerelease") then " (pre-release)" else "" in
  let actorName := str_or (actor data) UNKNOWN in
  lines
    ([tmpl [lit "<b>Release</b> <code>"; esc (VStr repoName); lit "</code> <b>"; esc action;
            lit "</b> by <b>"; esc (VStr actorName); lit "</b>"];
      tmpl [lit "<b>"; esc name; lit "</b>"; lit draft; lit prerelease]]
     ++ when_ (negb (is_empty body)) (esc (VStr body))
     ++ when_ (truthy url) (link url (VStr "View release")))%list.

Definition summarizeStatus (payload : value) : result string :=
  let data := ensureMapping payload in
  let state := get data "state" ?? VStr "" in
  let repoName := str_or (repo data) "?" in
  let sha := string_slice_or_empty 7 (get data "sha") in
  let context := get data "context" ?? VStr "" in
  let description := get data "description" ?? VStr "" in
  let targetUrl := get data "target_url" ?? VStr "" in
  lines
    ([tmpl [lit "<b>Status</b> <code>"; esc (VStr repoName); lit "</code> <code>";
            esc context; lit "</code> → <b>"; esc state; lit "</b> for <code>";
            esc (VStr sha); lit "</code>"]]
     ++ when_ (truthy description) (esc description)
     ++ when_ (truthy targetUrl) (link targetUrl (VStr "View status")))%list.

Definition summarizeDeployment (payload : value) : result string :=
  let data := ensureMapping payload in
  let deployment := ensureMapping (get data "deployment") in
  let repoName := str_or (repo data) "?" in
  let actorName := str_or (actor data) UNKNOWN in
  let environment := get deployment "environment" ?? VStr "?" in
  let ref := get deployment "ref" ?? VStr "" in
  let description := get deployment "description" ?? VStr "" in
  let url := get deployment "statuses_url" ?? get deployment "url" in
  lines
    ([tmpl [lit "<b>Deployment</b> <code>"; esc (VStr repoName); lit "</code> → <b>";
            esc environment; lit "</b> by <b>"; esc (VStr actorName); lit "</b>"]]
     ++ when_ (truthy ref) (tmpl [lit "ref: <code>"; esc ref; lit "</code>"])
     ++ when_ (truthy description) (esc description)
     ++ when_ (truthy url) (link url (VStr "Deployment API")))%list.

Definition summarizeDeploymentStatus (payload : value) : result string :=
  let data := ensureMapping payload in
  let deployment := ensureMapping (get data "deployment") in
  let status := ensureMapping (get data "deployment_status") in
  let repoName := str_or (repo data) "?" in
  let actorName := str_or (actor data) UNKNOWN in
  let environment :=
    get deployment "environment" ?? get status "environment" ?? VStr "?" in
  let state := get status "state" ?? VStr "" in
  let description := get status "description" ?? VStr "" in
  let targetUrl := get status "target_url" ?? VStr "" in
  lines
    ([tmpl [lit "<b>Deployment status</b> <code>"; esc (VStr repoName);
            lit "</code> → <b>"; esc environment; lit "</b> is <b>"; esc state;
            lit "</b> by <b>"; esc (VStr actorName); lit "</b>"]]
     ++ when_ (truthy description) (esc description)
     ++ when_ (truthy targetUrl) (link targetUrl (VStr "Target")))%list.

Definition summarizeDeploymentReview (payload : value) : result string :=
  let data := ensureMapping payload in
  let deployment := ensureMapping (get data "deployment") in
  let review := ensureMapping (get data "review") in
  let environment :=
    get deployment "environment" ?? get review "environment" ?? VStr "?" in
  let state := get review "state" ?? VStr "" in
  let actorName := str_or (actor data) UNKNOWN in
  let repoName := str_or (repo data) "?" in
  let url := get review "html_url" in
  lines
    ([tmpl [lit "<b>Deployment review</b> <code>"; esc (VStr repoName);
            lit "</code> → <b>"; esc environment; lit "</b> <b>"; esc state;
            lit "</b> by <b>"; esc (VStr actorName); lit "</b>"]]
     ++ when_ (truthy url) (link url (VStr "View review")))%list.

Definition summarizeDeploymentProtectionRule (payload : value) : result string :=
  let data := ensureMapping payload in
  let environment :=
    get data "environment" ?? dig data ["deployment_protection_rule"; "environment"]
      ?? VStr "?" in
  let actorName := str_or (actor data) UNKNOWN in
  let action := get data "action" ?? VStr "" in
  let repoName := str_or (repo data) "?" in
  tmpl [lit "<b>Deployment protection rule</b> <code>"; esc (VStr repoName);
        lit "</code> → <b>"; esc environment; lit "</b> <b>"; esc action;
        lit "</b> by <b>"; esc (VStr actorName); lit "</b>"].

Definition summarizeDiscussion (payload : value) : result string :=
  let data := ensureMapping payload in
  let discussion := ensureMapping (get data "discussion") in
  let action := get data "action" ?? VStr "" in
  let title := get discussion "title" ?? VStr "" in
  let url := get discussion "html_url" in
  let repoName := repo data in
  let actorName := str_or (actor data) UNKNOWN in
  let category := dig discussion ["category"; "name"] ?? VStr "" in
  head <- tmpl [lit "<b>Discussion</b> <b>"; esc action; lit "</b> by <b>";
                esc (VStr actorName); lit "</b>"] ;;
  head <- (if is_empty repoName then Ok head
           else tmpl [lit head; lit " in <code>"; esc (VStr repoName); lit "</code>"]) ;;
  lines
    ([lit head]
     ++ when_ (truthy title) (tmpl [lit "<b>"; esc title; lit "</b>"])
     ++ when_ (truthy category) (tmpl [lit "category: <code>"; esc category; lit "</code>"])
     ++ when_ (truthy url) (link url (VStr "View discussion")))%list.

Definition summarizeDiscussionComment (payload : value) : result string :=
  let data := ensureMapping payload in
  let discussion := ensureMapping (get data "discussion") in
  let comment := ensureMapping (get data "comment") in
  let action := get data "action" ?? VStr "" in
  let actorName := str_or (actor data) UNKNOWN in
  let url := get comment "html_url" ?? get discussion "html_url" in
  let body := firstLine (get comment "body") 200 in
  let title := get discussion "title" ?? VStr "" in
  head <- tmpl [lit "<b>Discussion comment</b> <b>"; esc action; lit "</b> by <b>";
                esc (VStr actorName); lit "</b>"] ;;
  head <- (if truthy title
           then tmpl [lit head; lit " on <b>"; esc title; lit "</b>"]
           else Ok head) ;;
  lines
    ([lit head]
     ++ when_ (negb (is_empty body)) (esc (VStr body))
     ++ when_ (truthy url) (link url (VStr "View comment")))%list.

Definition summarizeFork (payload : value) : result string :=
  let data := ensureMapping payload in
  let repoName := str_or (repo data) "?" in
  let forkee := ensureMapping (get data "forkee") in
  let forkFull := get forkee "full_name" ?? get forkee "name" ?? VStr "?" in
  let forkUrl := get forkee "html_url" ?? get forkee "svn_url" in
  let actorName := str_or (actor data) UNKNOWN in
  lines
    ([tmpl [lit "<b>Fork</b> of <code>"; esc (VStr repoName); lit "</code> created by <b>";
            esc (VStr actorName); lit "</b>"];
      tmpl [lit "new repo: <code>"; esc forkFull; lit "</code>"]]
     ++ when_ (truthy forkUrl) (link forkUrl (VStr "View fork")))%list.

Definition summarizeGollum (payload : value) : result string :=
  let data := ensureMapping payload in
  let pages := array_or_empty (get data "pages") in
  let repoName := str_or (repo data) "?" in
  let actorName := str_or (actor data) UNKNOWN in
  lines
    ([tmpl [lit "<b>Wiki update</b> in <code>"; esc (VStr repoName); lit "</code> by <b>";
            esc (VStr actorName); lit "</b>"]]
     ++ flat_map
          (fun page =>
             let pageData := ensureMapping page in
             let title := get pageData "title" ?? VStr "page" in
             let action := get pageData "action" ?? VStr "" in
             let url := get pageData "html_url" ?? get pageData "page_name" in
             [tmpl [lit "• <b>"; esc action; lit "</b> "; esc title]]
             ++ when_ (truthy url) (link url (VStr "View page")))
          pages)%list.

(** repositories.slice(0, 5).map(...).join(", ") of the installation
    handlers. *)
Definition repo_names (repositories : list value) : result string :=
  map_join ", "
    (fun repoInfo =>
       let repoData := ensureMapping repoInfo in
       esc (get repoData "full_name" ?? get repoData "name" ?? VStr "?"))
    (firstn 5 repositories).

Definition summarizeInstallation (payload : value) : result string :=
  let data := ensureMapping payload in
  let installation := ensureMapping (get data "installation") in
  let action := get data "action" ?? VStr "" in
  let account := ensureMapping (get installation "account") in
  let accountLogin := get account "login" ?? get account "name" ?? VStr "?" in
  let repositories := array_or_empty (get installation "repositories") in
  let repoCount := List.length repositories in
  lines
    ([tmpl [lit "<b>Installation</b> <b>"; esc action; lit "</b> for <b>";
            esc accountLogin; lit "</b>"]]
     ++ when_ (0 <? repoCount)%nat
          (summary <- repo_names repositories ;;
           tmpl [lit "repositories: "; lit summary;
                 lit (if (5 <? repoCount)%nat
                      then " … (+" ++ nat_to_string (repoCount - 5) ++ ")"
                      else "")]))%list.

Definition summarizeInstallationRepositories (payload : value) : result string :=
  let data := ensureMapping payload in
  let action := get data "action" ?? VStr "" in
  let installation := ensureMapping (get data "installation") in
  let account := ensureMapping (get installation "account") in
  let accountLogin := get account "login" ?? get account "name" ?? VStr "?" in
  let added := array_or_empty (get data "repositories_added") in
  let removed := array_or_empty (get data "repositories_removed") in
  let listed (title : string) (repos : list value) : result string :=
    text <- repo_names repos ;;
    tmpl [lit title; lit text;
          lit (if (5 <? List.length repos)%nat
               then " … (+" ++ nat_to_string (List.length repos - 5) ++ ")"
               else "")] in
  lines
    ([tmpl [lit "<b>Installation repositories</b> <b>"; esc action; lit "</b> for <b>";
            esc accountLogin; lit "</b>"]]
     ++ when_ (0 <? List.length added)%nat (listed "added: " added)
     ++ when_ (0 <? List.length removed)%nat (listed "removed: " removed))%list.

Definition summarizeInstallationTarget (payload : value) : result string :=
  let data := ensureMapping payload in
  let action := get data "action" ?? VStr "" in
  let installation := ensureMapping (get data "installation") in
  let account := ensureMapping (get installation "account") in
  let targetType := get installation "target_type" ?? VStr "" in
  let login := get account "login" ?? get account "name" ?? VStr "?" in
  let repoSelection := get installation "repository_selection" ?? VStr "" in
  lines
    ([tmpl [lit "<b>Installation target</b> <b>"; esc action; lit "</b> for <b>";
            esc login; lit "</b>"]]
     ++ when_ (truthy targetType) (tmpl [lit "target: <code>"; esc targetType; lit "</code>"])
     ++ when_ (truthy repoSelection)
          (tmpl [lit "repository_selection: <code>"; esc repoSelection; lit "</code>"]))%list.

(** The options object of the handlers that only name a subject and its
    candidate fields. *)
Definition subject_options (spec : SubjectSpec) (fields : list (list string)) : Options :=
  {| subject := spec; subjectFields := Some fields; urlFields := None;
     extra := ExtraValue VUndef |}.

Definition summarizeMember (payload : value) : result string :=
  genericActionSummary "Member" payload
    (subject_options (SpecField "member") [["login"]; ["name"]]).

Definition summarizeMembership (payload : value) : result string :=
  let data := ensureMapping payload in
  let action := get data "action" ?? VStr "" in
  let team := ensureMapping (get data "team") in
  let org := ensureMapping (get data "organization") in
  let user := ensureMapping (get data "user") in
  let teamName := get team "name" ?? get team "slug" ?? VStr "team" in
  let orgLogin := get org "login" ?? VStr "?" in
  let userLogin := get user "login" ?? get user "name" ?? VStr "?" in
  lines
    [tmpl [lit "<b>Membership</b> <b>"; esc action; lit "</b> in <b>"; esc teamName;
           lit "</b> @"; esc orgLogin];
     tmpl [lit "member: <b>"; esc userLogin; lit "</b>"]].

(** JSON.stringify(v) as a value. *)
Definition JSON_stringify (v : value) : value :=
  match stringify v with
  | Some text => VStr text
  | None => VUndef
  end.

Definition summarizeMeta (payload : value) : result string :=
  let data := ensureMapping payload in
  let hook := ensureMapping (get data "hook") in
  let hookId := get hook "id" ?? VStr "?" in
  let changes := ensureMapping (get data "changes") in
  tmpl [lit "<b>Meta</b> webhook <code>"; esc hookId; lit "</code> updated: ";
        esc (JSON_stringify changes)].

Definition summarizeMilestone (payload : value) : result string :=
  genericActionSummary "Milestone" payload
    (subject_options (SpecField "milestone") [["title"]; ["description"]; ["number"]]).

Definition summarizeOrgBlock (payload : value) : result string :=
  let data := ensureMapping payload in
  let action := get data "action" ?? VStr "" in
  let organization := ensureMapping (get data "organization") in
  let blockedUser := ensureMapping (get data "blocked_user") in
  let orgLogin := get organization "login" ?? VStr "?" in
  let userLogin := get blockedUser "login" ?? get blockedUser "name" ?? VStr "?" in
  tmpl [lit "<b>Org block</b> <b>"; esc action; lit "</b> @"; esc orgLogin;
        lit " user <b>"; esc userLogin; lit "</b>"].

Definition summarizeOrganization (payload : value) : result string :=
  let data := ensureMapping payload in
  let action := get data "action" ?? VStr "" in
  let membership := ensureMapping (get data "membership") in
  let invitation := ensureMapping (get data "invitation") in
  lines
    ([tmpl [lit "<b>Organization</b> <b>"; esc action; lit "</b>"]]
     ++ when_ (truthy membership && has_keys membership)
          (let login := get (get membership "user") "login" ?? VStr "?" in
           let role := get membership "role" ?? VStr "" in
           tmpl [lit "member: <b>"; esc login; lit "</b> role <code>"; esc role;
                 lit "</code>"])
     ++ when_ (truthy invitation && has_keys invitation)
          (let invitee := get invitation "login" ?? get invitation "email" ?? VStr "?" in
           tmpl [lit "invitation: <code>"; esc invitee; lit "</code>"]))%list.

Definition summarizePageBuild (payload : value) : result string :=
  let data := ensureMapping payload in
  let build := ensureMapping (get data "build") in
  let status := get build "status" ?? VStr "" in
  let url := get build "url" ?? VStr "" in
  let error := ensureMapping (get build "error") in
  let message := get error "message" ?? VStr "" in
  let repoName := str_or (repo data) "?" in
  lines
    ([tmpl [lit "<b>Page build</b> <code>"; esc (VStr repoName); lit "</code> → <b>";
            esc status; lit "</b>"]]
     ++ when_ (truthy message) (esc message)
     ++ when_ (truthy url) (link url (VStr "View build")))%list.

Definition summarizePersonalAccessTokenRequest (payload : value) : result string :=
  let data := ensureMapping payload in
  let action := get data "action" ?? VStr "" in
  let request := ensureMapping (get data "personal_access_token_request") in
  let requestId := get request "id" ?? VStr "?" in
  let state := get request "state" ?? VStr "" in
  let actorName := str_or (actor data) UNKNOWN in
  let org := dig data ["organization"; "login"] ?? VStr "?" in
  lines
    ([tmpl [lit "<b>Personal access token request</b> <b>"; esc action;
            lit "</b> — request <code>"; esc requestId; lit "</code> for @"; esc org]]
     ++ when_ (truthy state) (tmpl [lit "state: <code>"; esc state; lit "</code>"])
     ++ [tmpl [lit "by <b>"; esc (VStr actorName); lit "</b>"]])%list.

Definition summarizeProject (payload : value) : result string :=
  genericActionSummary "Project" payload
    (subject_options (SpecField "project") [["name"]; ["body"]; ["number"]]).

Definition summarizeProjectCard (payload : value) : result string :=
  genericActionSummary "Project card" payload
    (subject_options (SpecField "project_card") [["note"]; ["column_name"]; ["id"]]).

Definition summarizeProjectColumn (payload : value) : result string :=
  genericActionSummary "Project column" payload
    (subject_options (SpecField "project_column") [["name"]; ["id"]]).

Definition summarizeProjectsV2 (payload : value) : result string :=
  genericActionSummary "Project" payload
    (subject_options (SpecField "projects_v2") [["title"]; ["number"]; ["id"]]).

Definition summarizeProjectsV2Item (payload : value) : result string :=
  genericActionSummary "Project item" payload
    (subject_options (SpecField "projects_v2_item") [["title"]; ["content_type"]; ["id"]]).

Definition summarizeProjectsV2StatusUpdate (payload : value) : result string :=
  genericActionSummary "Project status update" payload
    (subject_options (SpecField "projects_v2_status_update")
       [["status"]; ["title"]; ["id"]]).

Definition summarizePublic (payload : value) : result string :=
  let data := ensureMapping payload in
  let repoName := str_or (repo data) "?" in
  let actorName := str_or (actor data) UNKNOWN in
  tmpl [lit "<b>Repository public</b> <code>"; esc (VStr repoName); lit "</code> by <b>";
        esc (VStr actorName); lit "</b>"].

Definition summarizeRegistryPackage (payload : value) : result string :=
  genericActionSummary "Registry package" payload
    (subject_options (SpecField "registry_package") [["name"]; ["package_type"]; ["id"]]).

Definition summarizeRepository (payload : value) : result string :=
  genericActionSummary "Repository" payload
    (subject_options (SpecField "repository") [["full_name"]; ["name"]; ["id"]]).

Definition summarizeRepositoryDispatch (payload : value) : result string :=
  let data := ensureMapping payload in
  let eventType := get data "action" ?? get data "event_type" ?? VStr "dispatch" in
  let repoName := str_or (repo data) "?" in
  let actorName := str_or (actor data) UNKNOWN in
  let clientPayload := get data "client_payload" in
  lines
    ([tmpl [lit "<b>Repository dispatch</b> <code>"; esc (VStr repoName);
            lit "</code> event <code>"; esc eventType; lit "</code> by <b>";
            esc (VStr actorName); lit "</b>"]]
     ++ (if truthy clientPayload && typeof_object clientPayload then
           let shown := firstn 6 (entries clientPayload) in
           when_ (0 <? List.length shown)%nat
             (snippet <- sequence
                           (map (fun kv => tmpl [esc (VStr (fst kv)); lit "="; esc (snd kv)])
                                shown) ;;
              tmpl [lit "payload: "; lit (join ", " snippet)])
         else []))%list.

Definition summarizeRepositoryImport (payload : value) : result string :=
  let data := ensureMapping payload in
  let status := get data "status" ?? VStr "" in
  let repoName := str_or (repo data) "?" in
  let human := get data "human_name" ?? VStr "" in
  let progress := get data "progress" in
  lines
    ([tmpl [lit "<b>Repository import</b> <code>"; esc (VStr repoName);
            lit "</code> → <b>"; esc status; lit "</b>"]]
     ++ when_ (truthy human) (esc human)
     ++ when_ (negb (nullish progress))
          (tmpl [lit "progress: <code>"; esc progress; lit "</code>"]))%list.

Definition summarizeRepositoryRuleset (payload : value) : result string :=
  genericActionSummary "Repository ruleset" payload
    (subject_options (SpecField "ruleset") [["name"]; ["target"]; ["id"]]).

Definition summarizeRepositoryVulnerabilityAlert (payload : value) : result string :=
  let data := ensureMapping payload in
  let alert := ensureMapping (get data "alert") in
  let action := get data "action" ?? VStr "" in
  let repoName := str_or (repo data) "?" in
  let actorName := str_or (actor data) UNKNOWN in
  let dependency := ensureMapping (get alert "affected_package") in
  let packageName :=
    get dependency "name" ?? dig alert ["security_advisory"; "summary"]
      ?? VStr "dependency" in
  let severity := dig alert ["security_advisory"; "severity"] ?? VStr "" in
  let url := dig alert ["security_advisory"; "html_url"] in
  lines
    ([tmpl [lit "<b>Repository vulnerability alert</b> <code>"; esc (VStr repoName);
            lit "</code> <b>"; esc action; lit "</b> — <b>"; esc packageName;
            lit "</b> by <b>"; esc (VStr actorName); lit "</b>"]]
     ++ when_ (truthy severity) (tmpl [lit "severity: <code>"; esc severity; lit "</code>"])
     ++ when_ (truthy url) (link url (VStr "View advisory")))%list.

Definition summarizeSecretScanningAlert (payload : value) : result string :=
  let data := ensureMapping payload in
  let alert := ensureMapping (get data "alert") in
  let action := get data "action" ?? VStr "" in
  let repoName := str_or (repo data) "?" in
  let secretType :=
    get alert "secret_type_display_name" ?? get alert "secret_type" ?? VStr "secret" in
  let state := get alert "state" ?? VStr "" in
  let url := get alert "html_url" in
  lines
    ([tmpl [lit "<b>Secret scanning alert</b> <code>"; esc (VStr repoName);
            lit "</code> <b>"; esc action; lit "</b> — <b>"; esc secretType; lit "</b>"]]
     ++ when_ (truthy state) (tmpl [lit "state: <code>"; esc state; lit "</code>"])
     ++ when_ (truthy url) (link url (VStr "View alert")))%list.

Definition summarizeSecretScanningAlertLocation (payload : value) : result string :=
  let data := ensureMapping payload in
  let location := ensureMapping (get data "location") in
  let alert := ensureMapping (get data "alert") in
  let repoName := str_or (repo data) "?" in
  let typeName := get location "type" ?? VStr "location" in
  let details := ensureMapping (get location "details") in
  let path := get details "path" ?? VStr "" in
  let url := get alert "html_url" in
  lines
    ([tmpl [lit "<b>Secret scanning location</b> <code>"; esc (VStr repoName);
            lit "</code> → <b>"; esc typeName; lit "</b>"]]
     ++ when_ (truthy path) (tmpl [lit "path: <code>"; esc path; lit "</code>"])
     ++ when_ (truthy url) (link url (VStr "View alert")))%list.

Definition summarizeSecretScanningScan (payload : value) : result string :=
  genericActionSummary "Secret scanning scan" payload no_options.

Definition summarizeSecurityAdvisory (payload : value) : result string :=
  genericActionSummary "Security advisory" payload
    (subject_options (SpecField "security_advisory") [["summary"]; ["ghsa_id"]; ["cve_id"]]).

Definition summarizeSecurityAndAnalysis (payload : value) : result string :=
  genericActionSummary "Security & analysis" payload
    {| subject := SpecField "security_and_analysis"; subjectFields := None;
       urlFields := None; extra := ExtraValue VUndef |}.

Definition summarizeSponsorship (payload : value) : result string :=
  let data := ensureMapping payload in
  let action := get data "action" ?? VStr "" in
  let sponsorship := ensureMapping (get data "sponsorship") in
  let sponsor := get sponsorship "sponsor" ?? get sponsorship "account" in
  let sponsorName :=
    get (ensureMapping sponsor) "login" ?? get (ensureMapping sponsor) "name"
      ?? VStr "sponsor" in
  let sponsorable := ensureMapping (get sponsorship "sponsorable") in
  let sponsorableName :=
    get sponsorable "login" ?? get sponsorable "name" ?? VStr "sponsorable" in
  let tier := ensureMapping (get sponsorship "tier") in
  let amount := get tier "monthly_price_in_dollars" ?? get tier "monthly_price" ?? VStr "" in
  let tierName := get tier "name" ?? VStr "" in
  lines
    ([tmpl [lit "<b>Sponsorship</b> <b>"; esc action; lit "</b> — <b>"; esc sponsorName;
            lit "</b> → <b>"; esc sponsorableName; lit "</b>"]]
     ++ when_ (truthy tierName) (tmpl [lit "tier: <code>"; esc tierName; lit "</code>"])
     ++ when_ (truthy amount) (tmpl [lit "amount: <code>"; esc amount; lit "</code>"]))%list.

Definition summarizeStar (payload : value) : result string :=
  let data := ensureMapping payload in
  let action := get data "action" ?? VStr "" in
  let repoName := str_or (repo data) "?" in
  let actorName := str_or (actor data) UNKNOWN in
  tmpl [lit "<b>Star</b> <code>"; esc (VStr repoName); lit "</code> <b>"; esc action;
        lit "</b> by <b>"; esc (VStr actorName); lit "</b>"].

Definition summarizeSubIssues (payload : value) : result string :=
  genericActionSummary "Sub-issues" payload
    (subject_options (SpecItems [ItemField "sub_issue"; ItemField "issue"])
       [["title"]; ["number"]]).

Definition summarizeTeam (payload : value) : result string :=
  genericActionSummary "Team" payload
    (subject_options (SpecField "team") [["name"]; ["slug"]; ["id"]]).

Definition summarizeTeamAdd (payload : value) : result string :=
  let data := ensureMapping payload in
  let team := ensureMapping (get data "team") in
  let repoData := ensureMapping (get data "repository") in
  let teamName := get team "name" ?? get team "slug" ?? VStr "team" in
  let repoName := get repoData "full_name" ?? get repoData "name" ?? VStr "repository" in
  tmpl [lit "<b>Team add</b> team <b>"; esc teamName; lit "</b> added to <code>";
        esc repoName; lit "</code>"].

Definition summarizeWatch (payload : value) (event : string) : result string :=
  let data := ensureMapping payload in
  let action := get data "action" ?? VStr "started" in
  let repoName := str_or (repo data) "?" in
  let actorName := str_or (actor data) UNKNOWN in
  tmpl [lit "<b>"; esc (VStr (prettyLabel event)); lit "</b> <code>"; esc (VStr repoName);
        lit "</code> <b>"; esc action; lit "</b> by <b>"; esc (VStr actorName); lit "</b>"].

Definition summarizeWorkflowDispatch (payload : value) : result string :=
  genericActionSummary "Workflow dispatch" payload
    (subject_options (SpecField "workflow") [["name"]; ["path"]]).

Definition summarizeWorkflowJob (payload : value) : result string :=
  let data := ensureMapping payload in
  let action := get data "action" ?? VStr "" in
  let workflowJob := ensureMapping (get data "workflow_job") in
  let name := get workflowJob "name" ?? VStr "job" in
  let status := get workflowJob "status" ?? VStr "" in
  let conclusion := get workflowJob "conclusion" ?? VStr "" in
  let steps := array_or_empty (get workflowJob "steps") in
  lines
    ([tmpl [lit "<b>Workflow job</b> <b>"; esc action; lit "</b> — <b>"; esc name;
            lit "</b>"]]
     ++ when_ (truthy status) (tmpl [lit "status: <code>"; esc status; lit "</code>"])
     ++ when_ (truthy conclusion)
          (tmpl [lit "conclusion: <code>"; esc conclusion; lit "</code>"])
     ++ (if (0 <? List.length steps)%nat then
           map (fun step =>
                  let stepData := ensureMapping step in
                  tmpl [lit "• "; esc (get stepData "name" ?? VStr "step"); lit " (";
                        esc (get stepData "conclusion" ?? get stepData "status" ?? VStr "");
                        lit ")"])
               (firstn 5 steps)
           ++ when_ (5 <? List.length steps)%nat
                (tmpl [lit "<i>+"; lit (nat_to_string (List.length steps - 5));
                       lit " more steps</i>"])
         else []))%list.

Definition summarizeWorkflowRun (payload : value) : result string :=
  let data := ensureMapping payload in
  let action := get data "action" ?? VStr "" in
  let workflowRun := ensureMapping (get data "workflow_run") in
  let name := get workflowRun "name" ?? VStr "workflow" in
  let status := get workflowRun "status" ?? VStr "" in
  let conclusion := get workflowRun "conclusion" ?? VStr "" in
  let url := get workflowRun "html_url" ?? get workflowRun "url" in
  let repoName := str_or (repo data) "?" in
  lines
    ([tmpl [lit "<b>Workflow run</b> <code>"; esc (VStr repoName); lit "</code> <b>";
            esc action; lit "</b> — <b>"; esc name; lit "</b>"]]
     ++ when_ (truthy status) (tmpl [lit "status: <code>"; esc status; lit "</code>"])
     ++ when_ (truthy conclusion)
          (tmpl [lit "conclusion: <code>"; esc conclusion; lit "</code>"])
     ++ when_ (truthy url) (link url (VStr "View run")))%list.

Definition summarizeCheckRun (payload : value) : result string :=
  let data := ensureMapping payload in
  let action := get data "action" ?? VStr "" in
  let checkRun := ensureMapping (get data "check_run") in
  let name := get checkRun "name" ?? VStr "check" in
  let status := get checkRun "status" ?? VStr "" in
  let conclusion := get checkRun "conclusion" ?? VStr "" in
  let url := get checkRun "html_url" ?? get checkRun "details_url" in
  let output := ensureMapping (get checkRun "output") in
  let summary := firstLine (get output "summary") 200 in
  let text := firstLine (get output "text") 200 in
  lines
    ([tmpl [lit "<b>Check run</b> <b>"; esc action; lit "</b> — <b>"; esc name; lit "</b>"]]
     ++ when_ (truthy status) (tmpl [lit "status: <code>"; esc status; lit "</code>"])
     ++ when_ (truthy conclusion)
          (tmpl [lit "conclusion: <code>"; esc conclusion; lit "</code>"])
     ++ (if negb (is_empty summary) then [esc (VStr summary)]
         else when_ (negb (is_empty text)) (esc (VStr text)))
     ++ when_ (truthy url) (link url (VStr "View check")))%list.

Definition summarizeCheckSuite (payload : value) : result string :=
  let data := ensureMapping payload in
  let action := get data "action" ?? VStr "" in
  let checkSuite := ensureMapping (get data "check_suite") in
  let status := get checkSuite "status" ?? VStr "" in
  let conclusion := get checkSuite "conclusion" ?? VStr "" in
  let url := get checkSuite "html_url" ?? get checkSuite "url" in
  lines
    ([tmpl [lit "<b>Check suite</b> <b>"; esc action; lit "</b>"]]
     ++ when_ (truthy status) (tmpl [lit "status: <code>"; esc status; lit "</code>"])
     ++ when_ (truthy conclusion)
          (tmpl [lit "conclusion: <code>"; esc conclusion; lit "</code>"])
     ++ when_ (truthy url) (link url (VStr "View suite")))%list.

Definition summarizeCodeScanningAlert (payload : value) : result string :=
  let data := ensureMapping payload in
  let action := get data "action" ?? VStr "" in
  let alert := ensureMapping (get data "alert") in
  let rule := ensureMapping (get alert "rule") in
  let ruleId := get rule "id" ?? get rule "security_severity_level" ?? VStr "rule" in
  let severity := get alert "severity" ?? get alert "security_severity_level" ?? VStr "" in
  let url := get alert "html_url" ?? VStr "" in
  lines
    ([tmpl [lit "<b>Code scanning alert</b> <b>"; esc action; lit "</b> — <b>"; esc ruleId;
            lit "</b>"]]
     ++ when_ (truthy severity) (tmpl [lit "severity: <code>"; esc severity; lit "</code>"])
     ++ when_ (truthy url) (link url (VStr "View alert")))%list.

Definition summarizeCommitComment (payload : value) : result string :=
  let data := ensureMapping payload in
  let comment := ensureMapping (get data "comment") in
  let repoName := str_or (repo data) "?" in
  let actorName := str_or (actor data) UNKNOWN in
  let body := firstLine (get comment "body") 200 in
  let url := get comment "html_url" in
  let commitId := get comment "commit_id" ?? VStr "" in
  lines
    ([tmpl [lit "<b>Commit comment</b> on <code>"; esc (VStr repoName); lit "</code> by <b>";
            esc (VStr actorName); lit "</b>"]]
     ++ when_ (truthy commitId)
          (short <- call_slice0 7 commitId ;;
           tmpl [lit "sha: <code>"; esc short; lit "</code>"])
     ++ when_ (negb (is_empty body)) (esc (VStr body))
     ++ when_ (truthy url) (link url (VStr "View comment")))%list.

Definition summarizeDependabotAlert (payload : value) : result string :=
  let data := ensureMapping payload in
  let action := get data "action" ?? VStr "" in
  let alert := ensureMapping (get data "alert") in
  let dependency := ensureMapping (get alert "dependency") in
  let packageName := get (get dependency "package") "name" ?? VStr "dependency" in
  let severity := get (get alert "security_vulnerability") "severity" ?? VStr "" in
  let advisoryUrl := get (get alert "security_advisory") "ghsa_id" ?? VStr "" in
  lines
    ([tmpl [lit "<b>Dependabot alert</b> <b>"; esc action; lit "</b> — <b>"; esc packageName;
            lit "</b>"]]
     ++ when_ (truthy severity) (tmpl [lit "severity: <code>"; esc severity; lit "</code>"])
     ++ when_ (truthy advisoryUrl)
          (tmpl [lit "advisory: <code>"; esc advisoryUrl; lit "</code>"]))%list.

Definition summarizeLabel (payload : value) : result string :=
  genericActionSummary "Label" payload
    (subject_options (SpecField "label") [["name"]; ["color"]; ["id"]]).

Definition summarizePackage (payload : value) : result string :=
  genericActionSummary "Package" payload
    (subject_options (SpecField "package") [["name"]; ["package_type"]; ["id"]]).

Definition summarizeRepositoryAdvisory (payload : value) : result string :=
  genericActionSummary "Repository advisory" payload
    (subject_options (SpecField "repository_advisory")
       [["summary"]; ["ghsa_id"]; ["cve_id"]]).

Definition summarizeCustomProperty (payload : value) : result string :=
  genericActionSummary "Custom property" payload
    (subject_options (SpecField "custom_property") [["name"]; ["full_name"]; ["id"]]).

Definition summarizeCustomPropertyValues (payload : value) : result string :=
  let data := ensureMapping payload in
  let repoName := str_or (repo data) "?" in
  let actorName := str_or (actor data) UNKNOWN in
  let newValues := array_or_empty (get data "new_property_values") in
  let oldValues := array_or_empty (get data "old_property_values") in
  lines
    ([tmpl [lit "<b>Custom property values</b> updated in <code>"; esc (VStr repoName);
            lit "</code> by <b>"; esc (VStr actorName); lit "</b>"]]
     ++ when_ (0 <? List.length newValues)%nat
          (tmpl [lit (nat_to_string (List.length newValues)); lit " new values"])
     ++ when_ (0 <? List.length oldValues)%nat
          (tmpl [lit (nat_to_string (List.length oldValues)); lit " previous values"]))%list.

Definition summarizeDeployKey (payload : value) : result string :=
  genericActionSummary "Deploy key" payload
    (subject_options (SpecField "key") [["title"]; ["id"]; ["fingerprint"]]).

Definition summarizeGithubAppAuthorization (payload : value) : result string :=
  let data := ensureMapping payload in
  let action := get data "action" ?? VStr "" in
  let user := ensureMapping (get data "sender") in
  let login := get user "login" ?? get user "name" ?? VStr "user" in
  tmpl [lit "<b>GitHub App authorization</b> <b>"; esc action; lit "</b> by <b>"; esc login;
        lit "</b>"].

Definition summarizeIssueDependencies (payload : value) : result string :=
  genericActionSummary "Issue dependencies" payload
    (subject_options (SpecItems [ItemField "dependent"; ItemField "issue"])
       [["title"]; ["number"]]).

Definition summarizeBranchProtectionConfiguration (payload : value) : result string :=
  genericActionSummary "Branch protection configuration" payload no_options.

Definition summarizeBranchProtectionRule (payload : value) : result string :=
  genericActionSummary "Branch protection rule" payload
    (subject_options (SpecField "rule") [["name"]; ["pattern"]; ["id"]]).

Definition summarizeMarketplacePurchase (payload : value) : result string :=
  let data := ensureMapping payload in
  let action := get data "action" ?? VStr "" in
  let purchase := get data "marketplace_purchase" in
  let account := ensureMapping (get purchase "account") in
  let login := get account "login" ?? get account "name" ?? VStr "?" in
  let plan := ensureMapping (get purchase "plan") in
  let planName := get plan "name" ?? VStr "plan" in
  let unitPrice := get plan "price_per_unit" ?? VNum (Int 0) in
  let unitCount := get purchase "units" ?? VNum (Int 0) in
  total <- times unitPrice unitCount ;;
  lines
    [tmpl [lit "<b>Marketplace purchase</b> <b>"; esc action; lit "</b> by <b>"; esc login;
           lit "</b>"];
     tmpl [lit "plan: <code>"; esc planName; lit "</code> ("; raw unitCount; lit " × ";
           raw unitPrice; lit ") = "; lit (number_to_string total)]].

Definition summarizeMergeGroup (payload : value) : result string :=
  let data := ensureMapping payload in
  let action := get data "action" ?? VStr "" in
  let mergeGroup := ensureMapping (get data "merge_group") in
  let headCommit := get mergeGroup "head_commit" ?? VStr "" in
  let headSha := string_slice_or_empty 7 headCommit in
  tmpl [lit "<b>Merge group</b> <b>"; esc action; lit "</b> head <code>"; esc (VStr headSha);
        lit "</code>"].

Definition summarizeMetaEvent (payload : value) : result string := summarizeMeta payload.
Definition summarizeOrg (payload : value) : result string := summarizeOrganization payload.
Definition summarizeSponsorshipEvent (payload : value) : result string :=
  summarizeSponsorship payload.
Definition summarizeWatchDefault (payload : value) (event : string) : result string :=
  summarizeWatch payload event.
Definition summarizeWorkflow (payload : value) : result string := summarizeWorkflowRun payload.

(** ** Dispatch *)

Record Meta : Type := mkMeta {
  handler : option Handler;
  label : option string
}.

Definition with_handler (h : Handler) : Meta := {| handler := Some h; label := None |}.

(** A handler declared with the payload as its only parameter. *)
Definition ignoring_event (h : value -> result string) : Handler := fun payload _ => h payload.

Definition EVENTS_METADATA : list (string * Meta) :=
  [
    ("branch_protection_configuration", with_handler (ignoring_event summarizeBranchProtectionConfiguration));
    ("branch_protection_rule", with_handler (ignoring_event summarizeBranchProtectionRule));
    ("check_run", with_handler (ignoring_event summarizeCheckRun));
    ("check_suite", with_handler (ignoring_event summarizeCheckSuite));
    ("code_scanning_alert", with_handler (ignoring_event summarizeCodeScanningAlert));
    ("commit_comment", with_handler (ignoring_event summarizeCommitComment));
    ("create", with_handler (ignoring_event summarizeCreate));
    ("custom_property", with_handler (ignoring_event summarizeCustomProperty));
    ("custom_property_values", with_handler (ignoring_event summarizeCustomPropertyValues));
    ("delete", with_handler (ignoring_event summarizeDelete));
    ("dependabot_alert", with_handler (ignoring_event summarizeDependabotAlert));
    ("deploy_key", with_handler (ignoring_event summarizeDeployKey));
    ("deployment", with_handler (ignoring_event summarizeDeployment));
    ("deployment_protection_rule", with_handler (ignoring_event summarizeDeploymentProtectionRule));
    ("deployment_review", with_handler (ignoring_event summarizeDeploymentReview));
    ("deployment_status", with_handler (ignoring_event summarizeDeploymentStatus));
    ("discussion", with_handler (ignoring_event summarizeDiscussion));
    ("discussion_comment", with_handler (ignoring_event summarizeDiscussionComment));
    ("fork", with_handler (ignoring_event summarizeFork));
    ("github_app_authorization", with_handler (ignoring_event summarizeGithubAppAuthorization));
    ("gollum", with_handler (ignoring_event summarizeGollum));
    ("installation", with_handler (ignoring_event summarizeInstallation));
    ("installation_repositories", with_handler (ignoring_event summarizeInstallationRepositories));
    ("installation_target", with_handler (ignoring_event summarizeInstallationTarget));
    ("issue_comment", with_handler (ignoring_event summarizeIssueComment));
    ("issue_dependencies", with_handler (ignoring_event summarizeIssueDependencies));
    ("issues", with_handler (ignoring_event summarizeIssues));
    ("label", with_handler (ignoring_event summarizeLabel));
    ("marketplace_purchase", with_handler (ignoring_event summarizeMarketplacePurchase));
    ("member", with_handler (ignoring_event summarizeMember));
    ("membership", with_handler (ignoring_event summarizeMembership));
    ("merge_group", with_handler (ignoring_event summarizeMergeGroup));
    ("meta", with_handler (ignoring_event summarizeMetaEvent));
    ("milestone", with_handler (ignoring_event summarizeMilestone));
    ("org_block", with_handler (ignoring_event summarizeOrgBlock));
    ("organization", with_handler (ignoring_event summarizeOrganization));
    ("package", with_handler (ignoring_event summarizePackage));
    ("page_build", with_handler (ignoring_event summarizePageBuild));
    ("personal_access_token_request", with_handler (ignoring_event summarizePersonalAccessTokenRequest));
    ("ping", with_handler (ignoring_event summarizePing));
    ("project", with_handler (ignoring_event summarizeProject));
    ("project_card", with_handler (ignoring_event summarizeProjectCard));
    ("project_column", with_handler (ignoring_event summarizeProjectColumn));
    ("projects_v2", with_handler (ignoring_event summarizeProjectsV2));
    ("projects_v2_item", with_handler (ignoring_event summarizeProjectsV2Item));
    ("projects_v2_status_update", with_handler (ignoring_event summarizeProjectsV2StatusUpdate));
    ("public", with_handler (ignoring_event summarizePublic));
    ("pull_request", with_handler (ignoring_event summarizePullRequest));
    ("pull_request_review", with_handler (ignoring_event summarizePullRequestReview));
    ("pull_request_review_comment", with_handler (ignoring_event summarizePullRequestReviewComment));
    ("pull_request_review_thread", with_handler (ignoring_event summarizePullRequestReviewThread));
    ("push", with_handler (ignoring_event summarizePush));
    ("registry_package", with_handler (ignoring_event summarizeRegistryPackage));
    ("release", with_handler (ignoring_event summarizeRelease));
    ("repository", with_handler (ignoring_event summarizeRepository));
    ("repository_advisory", with_handler (ignoring_event summarizeRepositoryAdvisory));
    ("repository_dispatch", with_handler (ignoring_event summarizeRepositoryDispatch));
    ("repository_import", with_handler (ignoring_event summarizeRepositoryImport));
    ("repository_ruleset", with_handler (ignoring_event summarizeRepositoryRuleset));
    ("repository_vulnerability_alert", with_handler (ignoring_event summarizeRepositoryVulnerabilityAlert));
    ("secret_scanning_alert", with_handler (ignoring_event summarizeSecretScanningAlert));
    ("secret_scanning_alert_location", with_handler (ignoring_event summarizeSecretScanningAlertLocation));
    ("secret_scanning_scan", with_handler (ignoring_event summarizeSecretScanningScan));
    ("security_advisory", with_handler (ignoring_event summarizeSecurityAdvisory));
    ("security_and_analysis", with_handler (ignoring_event summarizeSecurityAndAnalysis));
    ("sponsorship", with_handler (ignoring_event summarizeSponsorshipEvent));
    ("star", with_handler (ignoring_event summarizeStar));
    ("status", with_handler (ignoring_event summarizeStatus));
    ("sub_issues", with_handler (ignoring_event summarizeSubIssues));
    ("team", with_handler (ignoring_event summarizeTeam));
    ("team_add", with_handler (ignoring_event summarizeTeamAdd));
    ("watch", with_handler summarizeWatchDefault);
    ("workflow_dispatch", with_handler (ignoring_event summarizeWorkflowDispatch));
    ("workflow_job", with_handler (ignoring_event summarizeWorkflowJob));
    ("workflow_run", with_handler (ignoring_event summarizeWorkflowRun))
  ].

Definition fallbackSummary (event : string) (payload : value) : result string :=
  let label := prettyLabel (str_or event "event") in
  let repoName := str_or (repo payload) "" in
  let actorName := str_or (actor payload) UNKNOWN in
  line <- tmpl [lit "<b>"; esc (VStr label); lit "</b> event"] ;;
  line <- (if is_empty repoName then Ok line
           else tmpl [lit line; lit " for <code>"; esc (VStr repoName); lit "</code>"]) ;;
  if is_empty actorName then Ok line
  else tmpl [lit line; lit " by <b>"; esc (VStr actorName); lit "</b>"].

(** HANDLERS[event] = h on an object kept as its list of own
    properties. *)
Fixpoint assign (table : list (string * Handler)) (event : string) (h : Handler)
  : list (string * Handler) :=
  match table with
  | [] => [(event, h)]
  | (k, h') :: rest =>
      if String.eqb k event then (k, h) :: rest else (k, h') :: assign rest event h
  end.

(** The handler made for an entry of the table that has none. *)
Definition labelled_handler (label : string) : Handler :=
  fun payload evt =>
    text <- genericActionSummary label payload no_options ;;
    if is_empty text then fallbackSummary evt payload else Ok text.

(** The loop that fills HANDLERS from the entries of the table. *)
Definition HANDLERS : list (string * Handler) :=
  fold_left
    (fun table entry =>
       let event := fst entry in
       let meta := snd entry in
       match handler meta with
       | Some h => assign table event h
       | None =>
           let label := match label meta with
                        | Some l => l
                        | None => prettyLabel event
                        end in
           assign table event (labelled_handler label)
       end)
    (own_entries EVENTS_METADATA) [].

(** What HANDLERS[key] reads.  HANDLERS is an object literal, so a key
    that is not one of its own properties is looked up in
    Object.prototype: [constructor] is the function Object, [__proto__]
    is Object.prototype itself, and the other members are methods. *)
Inductive Slot : Type :=
| SlotHandler (h : Handler)
| SlotObjectFunction
| SlotObjectPrototype
| SlotMethod (name : string)
| SlotUndefined.

Definition OBJECT_PROTOTYPE_METHODS : list string :=
  [ "hasOwnProperty"; "isPrototypeOf"; "propertyIsEnumerable"; "toLocaleString";
    "toString"; "valueOf"; "__defineGetter__"; "__defineSetter__";
    "__lookupGetter__"; "__lookupSetter__" ].

Fixpoint own_handler (table : list (string * Handler)) (key : string) : option Handler :=
  match table with
  | [] => None
  | (k, h) :: rest => if String.eqb key k then Some h else own_handler rest key
  end.

Definition handler_slot (key : string) : Slot :=
  match own_handler HANDLERS key with
  | Some h => SlotHandler h
  | None =>
      if String.eqb key "constructor" then SlotObjectFunction
      else if String.eqb key "__proto__" then SlotObjectPrototype
      else if existsb (String.eqb key) OBJECT_PROTOTYPE_METHODS then SlotMethod key
      else SlotUndefined
  end.

(** The call handler(mappedPayload, eventKey).  The function Object
    returns its argument when that is an object, which a mapped payload
    always is.  Object.prototype is not callable.  A method of
    Object.prototype is called with no receiver: toString answers for
    undefined, the others fail on it. *)
Definition call_slot (slot : Slot) (mappedPayload : value) (eventKey : string)
  : result value :=
  match slot with
  | SlotHandler h => text <- h mappedPayload eventKey ;; Ok (VStr text)
  | SlotObjectFunction => Ok mappedPayload
  | SlotObjectPrototype => Throw (TypeError "handler is not a function")
  | SlotMethod name =>
      if String.eqb name "toString" then Ok (VStr "[object Undefined]")
      else Throw (TypeError "Cannot convert undefined or null to object")
  | SlotUndefined => Throw (TypeError "handler is not a function")
  end.

(** The entry point over a host whose [toLowerCase] is [lower]. *)
Definition summarizeGithubEvent_by (lower : string -> string)
           (event : string) (payload : value) : result value :=
  let eventKey := lower (str_or event "") in
  let mappedPayload := ensureMapping payload in
  let fallback := text <- fallbackSummary eventKey mappedPayload ;; Ok (VStr text) in
  match handler_slot eventKey with
  | SlotUndefined => fallback
  | slot => try_catch (call_slot slot mappedPayload eventKey) (fun _ => fallback)
  end.

Definition summarizeGithubEvent (event : string) (payload : value) : result value :=
  summarizeGithubEvent_by toLowerCase event payload.

Definition EVENT_NAMES : list string := map fst (own_entries EVENTS_METADATA).

End Github.

(* ================================================================== *)
(** * The routes that call the engine *)
(* ================================================================== *)

Module Routes.
Import Js Github.

(** ** GET /events *)

(** res.json({ events: EVENT_NAMES.slice().sort() }) *)
Definition events : list string := sort EVENT_NAMES.

(** ** POST /wh/:hookId

    The route reads a subscription, a bot and a destination from the
    database, checks the signature of the body, parses it, sends the
    summary to Telegram and writes an entry to the event log.  The
    database, the keyed hash, the JSON parser and the call to Telegram
    are the services the route runs against; of a record only the
    columns that the route reads are kept. *)

Record Subscription : Type := mkSubscription {
  secret : string;
  eventsCsv : string;
  botId : Z;
  destinationId : Z
}.

Record Bot : Type := mkBot { token : string }.

Record Destination : Type := mkDestination {
  chatId : string;
  topicId : option Z
}.

Record Services : Type := mkServices {
  getSubscriptionByHook : string -> option Subscription;
  getBot : Z -> option Bot;
  getDestination : Z -> option Destination;
  (* crypto.createHmac("sha256", secret).update(body).digest("hex") *)
  hmac_sha256_hex : string -> string -> string;
  JSON_parse : string -> result value;
  (* the promise of sendTelegramMessage: resolved or rejected *)
  sendTelegramMessage : string -> string -> value -> option Z -> result unit;
  (* the insert statement of the event log, run on an event type, a
     status and a summary *)
  insertLog : string -> string -> string -> result unit
}.

(** What the route reads of a request: the raw body, the two headers and
    the hook id of the path. *)
Record Request : Type := mkRequest {
  rawBody : option string;
  x_hub_signature_256 : option string;
  x_github_event : option string;
  hookId : string
}.

Record Response : Type := mkResponse {
  status : nat;
  body : string
}.

(** What the route does besides answering: the entries it writes to the
    event log, by event type, status and summary, and the messages it
    hands to Telegram. *)
Inductive Effect : Type :=
| logged (eventType status : string) (summary : value)
| telegramMessage (token chatId : string) (text : value) (topicId : option Z).

(** createLog of the event log service.  The statement binds the fields
    of the entry as its parameters; a summary that is not a text cannot
    be bound, and the statement throws.  The other fields that the
    route passes are texts, numbers or null. *)
Definition createLog (world : Services) (eventType status : string) (summary : value)
  : result Effect :=
  match summary with
  | VStr text =>
      _ <- insertLog world eventType status text ;;
      Ok (logged eventType status summary)
  | _ => Throw (TypeError "SQLite3 can only bind numbers, strings, bigints, buffers, and null")
  end.

(** crypto.timingSafeEqual on the bytes of two strings: buffers of
    different lengths are refused with a RangeError. *)
Definition timingSafeEqual (a b : string) : result bool :=
  if (String.length a =? String.length b)%nat then Ok (String.eqb a b)
  else Throw (RangeError "Input buffers must have the same byte length").

Definition verifyGithubSignature (world : Services) (secret body : string)
           (signatureHeader : option string) : result bool :=
  match signatureHeader with
  | None => Ok false
  | Some header =>
      if is_empty header then Ok false
      else
        let expected := hmac_sha256_hex world secret body in
        let signature := remove_first "sha256=" header in
        timingSafeEqual expected signature
  end.

(** req.header("x-github-event") || "unknown" *)
Definition eventType (req : Request) : string :=
  match x_github_event req with
  | Some name => str_or name "unknown"
  | None => "unknown"
  end.

(** eventsCsv.split(",").map((item) => item.trim()).filter(Boolean) *)
Definition allowed_events (eventsCsv : string) : list string :=
  filter (fun item => negb (is_empty item)) (map trim (split_char "," eventsCsv)).

(** The test that sends an event to the ignored branch. *)
Definition event_ignored (subscription : Subscription) (eventType : string) : bool :=
  let eventsCsv := str_or (eventsCsv subscription) "*" in
  if String.eqb eventsCsv "*" then false
  else
    let allowed := allowed_events eventsCsv in
    negb (List.length allowed =? 0)%nat && negb (includes allowed eventType).

Definition answer (status : nat) (body : string) (effects : list Effect)
  : result (Response * list Effect) :=
  Ok ({| status := status; body := body |}, effects).

(** The handler of the route.  [Throw] is a rejection of its promise:
    the handler itself then writes no response.  The entry of a
    forwarded event is written inside the try block of the send, so a
    failure to write it is handled like a failure to send. *)
Definition webhook (world : Services) (req : Request) : result (Response * list Effect) :=
  let eventType := eventType req in
  match rawBody req with
  | None => answer 400 "Missing body" []
  | Some bodyBuffer =>
      match getSubscriptionByHook world (hookId req) with
      | None => answer 404 "Hook not found" []
      | Some subscription =>
          verified <- verifyGithubSignature world (secret subscription) bodyBuffer
                        (x_hub_signature_256 req) ;;
          if negb verified then
            entry <- createLog world eventType "error" (VStr "Invalid signature") ;;
            answer 401 "Invalid signature" [entry]
          else if event_ignored subscription eventType then
            entry <- createLog world eventType "ignored"
                       (VStr ("Event " ++ eventType ++ " ignored")) ;;
            answer 200 "ignored" [entry]
          else
            match JSON_parse world bodyBuffer with
            | Throw _ =>
                entry <- createLog world eventType "error" (VStr "Invalid JSON") ;;
                answer 400 "Invalid JSON" [entry]
            | Ok payload =>
                match getBot world (botId subscription),
                      getDestination world (destinationId subscription) with
                | Some bot, Some destination =>
                    summary <- summarizeGithubEvent eventType payload ;;
                    let message :=
                      telegramMessage (token bot) (chatId destination) summary
                                      (topicId destination) in
                    let failed :=
                      entry <- createLog world eventType "error" summary ;;
                      answer 500 "Failed to forward" [message; entry] in
                    match sendTelegramMessage world (token bot) (chatId destination) summary
                                              (topicId destination) with
                    | Ok _ =>
                        match createLog world eventType "success" summary with
                        | Ok entry =>
                            answer 200 ("Event " ++ eventType ++ " forwarded")
                                   [message; entry]
                        | Throw _ => failed
                        end
                    | Throw _ => failed
                    end
                | _, _ =>
                    entry <- createLog world eventType "error"
                               (VStr "Bot or destination missing") ;;
                    answer 500 "Missing resources" [entry]
                end
            end
      end
  end.

End Routes.

(* ================================================================== *)
(** * Notions used in the statements *)
(* ================================================================== *)

Module Notions.
Import Js Github.

(** The keys of HANDLERS, in property order. *)
Definition HANDLER_KEYS : list string := map fst HANDLERS.

Definition before (a b : string) : Prop := String.ltb a b = true.

(** The pure text of a link whose target is a string. *)
Definition link_text (u label : string) : string :=
  if is_empty u then ""
  else "<a href=" ++ dquote ++ html_escape u ++ dquote ++ ">" ++ html_escape label ++ "</a>".

(** ** Plain text

    The text of a template whose pieces are all known. *)
Definition text (pieces : list string) : string := String.concat "" pieces.

(** The text of [link(url, label)] for any url. *)
Definition link_value_text (url : value) (label : string) : string :=
  match url with
  | VStr u => link_text u label
  | _ => ""
  end.

(** ** The push summary, line by line *)

(** The one or two lines of a commit: its short sha and the first line
    of its message, then its link when it has a url. *)
Definition commit_entry (commit : value) : list string :=
  let c := ensureMapping commit in
  let sha := string_slice_or_empty 7 (get c "id") in
  let message := firstLine (get c "message") 120 in
  (text ["<code>"; html_escape sha; "</code> "; html_escape message]
   :: match get c "url" with
      | VStr u => if is_empty u then [] else [link_text u "View commit"]
      | _ => []
      end)%list.

(** Entries separated by one empty line. *)
Fixpoint separated (entries : list (list string)) : list string :=
  match entries with
  | [] => []
  | [e] => e
  | e :: rest => (e ++ "" :: separated rest)%list
  end.

Definition target_label (data : value) : string :=
  if push_isTag (get data "ref" ?? VStr "") then "tag" else "branch".

Definition branch_name (data : value) : string := push_branch (get data "ref" ?? VStr "").

Definition push_headline (data : value) (actor_text : string) : string :=
  let count := List.length (array_or_empty (get data "commits")) in
  text ["<b>Push</b> to "; target_label data; " <code>"; html_escape (branch_name data);
        "</code>"; " in <code>"; html_escape (str_or (repo data) "?");
        "</code> by <b>"; actor_text; "</b>";
        " ("; nat_to_string count; " "; if (count =? 1)%nat then "commit" else "commits";
        ")"; if truthy (get data "forced") then " <i>(forced)</i>" else ""].

Definition deleted_headline (data : value) (actor_text : string) : string :=
  text ["<b>Deleted</b> "; target_label data; " <code>"; html_escape (branch_name data);
        "</code>"; " from <code>"; html_escape (str_or (repo data) "?");
        "</code> by <b>"; actor_text; "</b>"].

Definition compare_lines (data : value) : list string :=
  match get data "compare" with
  | VStr u => if is_empty u then [] else [link_text u "Compare"]
  | _ => []
  end.

(** The trailer of a push of [count] commits. *)
Definition more_commits (count : nat) : list string :=
  if (MAX_COMMITS <? count)%nat
  then [text ["<i>+"; nat_to_string (count - MAX_COMMITS); " more commits</i>"]]
  else [].

(** The commit block: nothing for no commit, else an empty line, the
    entries of the first commits and the trailer. *)
Definition commit_block (commits : list value) : list string :=
  match commits with
  | [] => []
  | _ :: _ =>
      ("" :: separated (map commit_entry (firstn MAX_COMMITS commits))
          ++ more_commits (List.length commits))%list
  end.

Definition push_lines (data : value) (actor_text : string) : list string :=
  if truthy (get data "deleted") then
    (deleted_headline data actor_text
     :: if truthy (dig data ["repository"; "html_url"])
        then [link_value_text (dig data ["repository"; "html_url"]) "Repository"]
        else [])%list
  else
    (push_headline data actor_text
     :: compare_lines data ++ commit_block (array_or_empty (get data "commits")))%list.

(** ** The branch name of a push, as the specification words it *)

Fixpoint has_char (c : ascii) (s : string) : bool :=
  match s with
  | EmptyString => false
  | String d rest => Ascii.eqb d c || has_char c rest
  end.

(** The substring after the final slash; the whole string when it has
    no slash. *)
Fixpoint after_final_slash (s : string) : string :=
  match s with
  | EmptyString => EmptyString
  | String d rest =>
      if has_char "/" rest then after_final_slash rest
      else if Ascii.eqb d "/" then rest
      else s
  end.

(** The name the specification gives to a push: what follows the final
    slash of a ref that is a string, the word unknown otherwise. *)
Definition branch_as_specified (ref : value) : string :=
  match ref with
  | VStr r => after_final_slash r
  | _ => "unknown"
  end.

(** ** The pull request summary *)

(** The number shown after the hash sign. *)
Definition pull_request_number (data : value) : value :=
  get (ensureMapping (get data "pull_request")) "number" ?? get data "number" ?? VStr "?".

(** The payload values that the pull request summary prints with
    [esc]: number, title, head and base refs. *)
Definition pull_request_printed (data : value) : list value :=
  let pr := ensureMapping (get data "pull_request") in
  [ pull_request_number data;
    get pr "title" ?? VStr "";
    dig pr ["head"; "ref"] ?? VStr "?";
    dig pr ["base"; "ref"] ?? VStr "?" ].

Definition pull_request_headline (data : value) (number_text action_text : string)
  : string :=
  text ["<b>Pull request</b> <code>"; html_escape (str_or (repo data) "?"); "</code> #";
        number_text; " <b>"; action_text; "</b> by <b>";
        html_escape (str_or (actor data) UNKNOWN); "</b>"].

Definition merged_pull_request : value :=
  VObj [("action", VStr "closed");
        ("pull_request",
         VObj [("number", VNum (Int 7)); ("merged", VBool true); ("title", VStr "T");
               ("head", VObj [("ref", VStr "feat")]);
               ("base", VObj [("ref", VStr "main")])]);
        ("repository", VObj [("full_name", VStr "a/b")])].

Definition closed_pull_request : value :=
  VObj [("action", VStr "closed");
        ("pull_request", VObj [("number", VNum (Int 8)); ("merged", VBool false)]);
        ("repository", VObj [("full_name", VStr "a/b")])].

(** ** The subject of an event *)








(** ** The extra lines of the generic summary *)

(** error.message || inspect(error) *)
Definition error_text (error : thrown) : value :=
  or_else (message error) (VStr (inspected error)).

Definition without_extra (options : Options) : Options :=
  {| subject := subject options; subjectFields := subjectFields options;
     urlFields := urlFields options; extra := ExtraValue VUndef |}.

(** An extra that fails with an Error, and one that throws undefined. *)
Definition failing_extra : Extra :=
  ExtraResolver (fun _ => Throw (TypeError "no <label> here")).

Definition throwing_undefined : Extra :=
  ExtraResolver
    (fun _ => Throw {| thrown_nullish := true; message := VUndef; inspected := "undefined" |}).

Definition options_with (e : Extra) : Options :=
  {| subject := SpecField "label"; subjectFields := None; urlFields := None; extra := e |}.

Definition label_created : value :=
  VObj [("action", VStr "created"); ("label", VObj [("name", VStr "bug")])].

(** ** Text answers *)

(** A computation that, when it returns, returns a non-empty string. *)
Definition texty (c : result string) : Prop :=
  forall s, c = Ok s -> is_empty s = false.

(** ** Sample payloads *)

Definition sample_commit (id : string) : value :=
  VObj [("id", VStr id); ("message", VStr ("fix " ++ id ++ newline ++ "details"))].

Definition six_commits : list value :=
  map sample_commit ["aaaaaaa1111"; "bbbbbbb2222"; "ccccccc3333"; "ddddddd4444";
                     "eeeeeee5555"; "fffffff6666"].

Definition push_of_six : value :=
  VObj [("ref", VStr "refs/heads/feature/x"); ("commits", VArr six_commits)].

Definition push_of_empty_ref : value := VObj [("ref", VStr "")].

(** ** Values that can be printed

    [String(v)] fails exactly on an object with a [toString] property of
    its own, met directly or as an element of nested arrays. *)

Definition all_printable_with (printable : value -> bool) : list value -> bool :=
  fix all (l : list value) : bool :=
    match l with
    | [] => true
    | x :: rest => (nullish x || printable x) && all rest
    end.

Fixpoint printable (v : value) : bool :=
  match v with
  | VArr items => all_printable_with printable items
  | VObj fields => negb (has_own "toString" fields)
  | _ => true
  end.

Section ValueInduction.
Variable P : value -> Prop.
Hypothesis Hundef : P VUndef.
Hypothesis Hnull : P VNull.
Hypothesis Hbool : forall b, P (VBool b).
Hypothesis Hnum : forall n, P (VNum n).
Hypothesis Hstr : forall s, P (VStr s).
Hypothesis Harr : forall items, Forall P items -> P (VArr items).
Hypothesis Hobj : forall fields, Forall (fun kv => P (snd kv)) fields -> P (VObj fields).

Fixpoint value_induction (v : value) : P v :=
  match v with
  | VUndef => Hundef
  | VNull => Hnull
  | VBool b => Hbool b
  | VNum n => Hnum n
  | VStr s => Hstr s
  | VArr items =>
      Harr items
        ((fix each (l : list value) : Forall P l :=
            match l with
            | [] => Forall_nil P
            | x :: rest => Forall_cons x (value_induction x) (each rest)
            end) items)
  | VObj fields =>
      Hobj fields
        ((fix each (l : list (string * value)) : Forall (fun kv => P (snd kv)) l :=
            match l with
            | [] => Forall_nil _
            | kv :: rest => Forall_cons kv (value_induction (snd kv)) (each rest)
            end) fields)
  end.
End ValueInduction.

(** ** Event types that differ in the case of their letters *)

(** The place of an ASCII letter in the alphabet. *)
Definition letter_index (c : ascii) : option nat :=
  let n := nat_of_ascii c in
  if ((65 <=? n) && (n <=? 90))%nat then Some (n - 65)
  else if ((97 <=? n) && (n <=? 122))%nat then Some (n - 97)
  else None.

Definition same_letter (c d : ascii) : bool :=
  Ascii.eqb c d
  || match letter_index c, letter_index d with
     | Some i, Some j => (i =? j)%nat
     | _, _ => false
     end.

(** Two strings that differ at most in the case of their ASCII
    letters. *)
Fixpoint same_ignoring_case (a b : string) : bool :=
  match a, b with
  | EmptyString, EmptyString => true
  | String c a', String d b' => same_letter c d && same_ignoring_case a' b'
  | _, _ => false
  end.

(** ** Escaping, character by character *)

(** The entity that stands for a character, or the character itself. *)
Definition escape_char (c : ascii) : string :=
  if Ascii.eqb c "&" then "&amp;"
  else if Ascii.eqb c "<" then "&lt;"
  else if Ascii.eqb c ">" then "&gt;"
  else if Ascii.eqb c (ascii_of_nat 34) then "&quot;"
  else String c EmptyString.

Fixpoint escape_each (s : string) : string :=
  match s with
  | EmptyString => EmptyString
  | String c rest => escape_char c ++ escape_each rest
  end.

(** A string that is not empty, as a value. *)
Definition nonempty_string (v : value) : bool :=
  match v with
  | VStr s => negb (is_empty s)
  | _ => false
  end.

(** ** The fallback line *)

Definition fallback_line (event : string) (payload : value) : string :=
  text ["<b>"; html_escape (prettyLabel (str_or event "event")); "</b> event";
        if is_empty (repo payload) then ""
        else text [" for <code>"; html_escape (repo payload); "</code>"];
        " by <b>"; html_escape (str_or (actor payload) UNKNOWN); "</b>"].

(** A comment on a commit whose id came as a number, and an object that
    cannot be printed. *)
Definition numbered_commit_comment : value :=
  VObj [("comment", VObj [("commit_id", VNum (Int 1234567))]);
        ("repository", VObj [("full_name", VStr "a/b")])].

Definition unprintable : value := VObj [("toString", VNull)].

(** A closed and merged pull request whose title cannot be printed, and
    a push of six commits whose pusher name cannot be printed. *)
Definition untitled_pull_request : value :=
  VObj [("action", VStr "closed");
        ("pull_request",
         VObj [("number", VNum (Int 7)); ("merged", VBool true); ("title", unprintable)]);
        ("repository", VObj [("full_name", VStr "a/b")])].

Definition push_by_unprintable : value :=
  VObj [("ref", VStr "refs/heads/main"); ("commits", VArr six_commits);
        ("pusher", VObj [("name", unprintable)])].

(** An extra that fails with an Error whose message has two lines. *)
Definition two_line_extra : Extra :=
  ExtraResolver (fun _ => Throw (TypeError ("first" ++ newline ++ "second"))).

(** Every character of a string passes a test. *)
Fixpoint has_only (test : ascii -> bool) (s : string) : bool :=
  match s with
  | EmptyString => true
  | String c rest => test c && has_only test rest
  end.

(** A text of ASCII characters, and a text with no character past
    U+FFFF, which is one whose characters are one code unit each. *)
Definition ascii_text (s : string) : bool := has_only is_ascii s.
Definition one_unit_each (s : string) : bool :=
  has_only (fun c => (units_of c <? 2)%nat) s.

(** ** A world for the webhook route

    One subscription under the hook id [h1], whose secret hashes every
    body to the same digest; the parser knows one body. *)

Definition sample_digest : string :=
  "0123456789abcdef0123456789abcdef0123456789abcdef0123456789abcdef".

Definition sample_world : Routes.Services :=
  {| Routes.getSubscriptionByHook :=
       fun hook =>
         if String.eqb hook "h1"
         then Some {| Routes.secret := "s3cret"; Routes.eventsCsv := "push, issues";
                      Routes.botId := 1; Routes.destinationId := 2 |}
         else None;
     Routes.getBot := fun _ => Some {| Routes.token := "t" |};
     Routes.getDestination :=
       fun _ => Some {| Routes.chatId := "c"; Routes.topicId := None |};
     Routes.hmac_sha256_hex := fun _ _ => sample_digest;
     Routes.JSON_parse :=
       fun text_ => if String.eqb text_ "{}" then Ok (VObj [])
                    else Throw (TypeError "Unexpected token");
     Routes.sendTelegramMessage := fun _ _ _ _ => Ok tt;
     Routes.insertLog := fun _ _ _ => Ok tt |}.

Definition signed_push : Routes.Request :=
  {| Routes.rawBody := Some "{}";
     Routes.x_hub_signature_256 := Some ("sha256=" ++ sample_digest);
     Routes.x_github_event := Some "push";
     Routes.hookId := "h1" |}.

Definition short_signature : Routes.Request :=
  {| Routes.rawBody := Some "{}";
     Routes.x_hub_signature_256 := Some "sha256=00";
     Routes.x_github_event := Some "push";
     Routes.hookId := "h1" |}.

End Notions.

(* ================================================================== *)
(** * Properties of the engine *)
(* ================================================================== *)

Import Js Github Notions.

(** ** Case mapping *)

Lemma lower_char_idempotent (c : ascii) : lower_char (lower_char c) = lower_char c.
Proof.
  destruct c as [[] [] [] [] [] [] [] []]; reflexivity.
Qed.

Lemma toLowerCase_idempotent (s : string) : toLowerCase (toLowerCase s) = toLowerCase s.
Proof.
  unfold toLowerCase.
  induction s as [| c s IH]; simpl.
  - reflexivity.
  - rewrite lower_char_idempotent, IH. reflexivity.
Qed.

Lemma str_or_empty (s : string) : str_or s "" = s.
Proof.
  destruct s; reflexivity.
Qed.

(** ** Dispatch *)

Lemma lower_char_letter (c : ascii) (i : nat) :
  letter_index c = Some i -> lower_char c = ascii_of_nat (97 + i).
Proof.
  unfold letter_index, lower_char.
  destruct ((65 <=? nat_of_ascii c) && (nat_of_ascii c <=? 90))%nat eqn:Hupper.
  - apply andb_true_iff in Hupper as [Hlow Hhigh].
    apply Nat.leb_le in Hlow. intros [= <-]. f_equal. lia.
  - destruct ((97 <=? nat_of_ascii c) && (nat_of_ascii c <=? 122))%nat eqn:Hlower;
      [| discriminate].
    apply andb_true_iff in Hlower as [Hlow Hhigh].
    apply Nat.leb_le in Hlow. intros [= <-].
    rewrite <- (ascii_nat_embedding c) at 1. f_equal. lia.
Qed.

Lemma lower_char_same_letter (c d : ascii) :
  same_letter c d = true -> lower_char c = lower_char d.
Proof.
  unfold same_letter. intro H.
  apply orb_true_iff in H as [H | H].
  - apply Ascii.eqb_eq in H. now subst.
  - destruct (letter_index c) as [i |] eqn:Hc; [| discriminate].
    destruct (letter_index d) as [j |] eqn:Hd; [| discriminate].
    apply Nat.eqb_eq in H. subst j.
    now rewrite (lower_char_letter c i Hc), (lower_char_letter d i Hd).
Qed.

Lemma toLowerCase_same_ignoring_case (a : string) :
  forall b, same_ignoring_case a b = true -> toLowerCase a = toLowerCase b.
Proof.
  induction a as [| c a IH]; intros [| d b] H; try discriminate H; [reflexivity |].
  cbn [same_ignoring_case] in H. apply andb_true_iff in H as [Hletter Hrest].
  unfold toLowerCase. cbn [map_chars].
  rewrite (lower_char_same_letter c d Hletter).
  f_equal. apply IH. exact Hrest.
Qed.

(** C6.  The entry point is case-insensitive in its event type.  It
    lower-cases the event type before anything else, so, whatever the
    lower-casing of the host is, as long as lower-casing what is
    lower-cased changes nothing, the summary of an event is the summary
    of the lower-cased event, for every event type and every payload.
    On the case mapping of the model, that of the ASCII letters, this
    is the summary of the lower-cased event as well, and two event
    types that differ only in the case of their letters have the same
    summary. *)
Theorem summarizeGithubEvent_case_insensitive
        (lower : string -> string) (event : string) (payload : value) :
  (forall s, lower (lower s) = lower s) ->
  summarizeGithubEvent_by lower event payload
  = summarizeGithubEvent_by lower (lower event) payload
  /\ summarizeGithubEvent event payload = summarizeGithubEvent (toLowerCase event) payload
  /\ (forall other,
        same_ignoring_case event other = true ->
        summarizeGithubEvent event payload = summarizeGithubEvent other payload).
Proof.
  intro Hlower.
  split; [| split].
  - unfold summarizeGithubEvent_by.
    rewrite !str_or_empty, Hlower. reflexivity.
  - unfold summarizeGithubEvent, summarizeGithubEvent_by.
    rewrite !str_or_empty, toLowerCase_idempotent. reflexivity.
  - intros other Hsame.
    unfold summarizeGithubEvent, summarizeGithubEvent_by.
    rewrite !str_or_empty, (toLowerCase_same_ignoring_case event other Hsame).
    reflexivity.
Qed.

(** C6 on the case mapping of the model: [PuSh] is summarised as [push]
    is. *)
Lemma summarizeGithubEvent_case_insensitive_witness :
  summarizeGithubEvent_by toLowerCase "PuSh" (VObj [])
  = summarizeGithubEvent_by toLowerCase "push" (VObj [])
  /\ summarizeGithubEvent "PuSh" (VObj []) = summarizeGithubEvent "pUSH" (VObj []).
Proof.
  destruct (summarizeGithubEvent_case_insensitive
              toLowerCase "PuSh" (VObj []) toLowerCase_idempotent)
    as [Hby [_ Hsame]].
  split; [exact Hby |].
  apply Hsame. reflexivity.
Defined.

(** C8.  EVENT_NAMES lists exactly the keys of the dispatch table
    HANDLERS, each once, and is sorted in ascending order of code units. *)
Theorem EVENT_NAMES_are_the_sorted_handler_keys :
  EVENT_NAMES = HANDLER_KEYS
  /\ (forall key, In key EVENT_NAMES <-> own_handler HANDLERS key <> None)
  /\ Sorted before EVENT_NAMES.
Proof.
  assert (Hkeys : EVENT_NAMES = HANDLER_KEYS) by (vm_compute; reflexivity).
  split; [exact Hkeys | split].
  - intro key. rewrite Hkeys. unfold HANDLER_KEYS.
    generalize HANDLERS as table.
    induction table as [| [k h] rest IH]; simpl.
    + split; [intros [] | intro H; apply H; reflexivity].
    + destruct (String.eqb key k) eqn:E.
      * apply String.eqb_eq in E. subst k.
        split; [discriminate | intros _; left; reflexivity].
      * apply String.eqb_neq in E.
        rewrite <- IH. split; [intros [H | H]; [congruence | exact H] | intro H; right; exact H].
  - let names := eval vm_compute in EVENT_NAMES in change EVENT_NAMES with names.
    repeat (apply Sorted_cons; [| first [apply HdRel_nil | apply HdRel_cons; reflexivity]]).
    apply Sorted_nil.
Qed.

(** *** The fallback line *)

Lemma esc_string (s : string) : esc (VStr s) = Ok (html_escape s).
Proof. reflexivity. Qed.

Lemma str_or_not_empty (a b : string) : is_empty b = false -> is_empty (str_or a b) = false.
Proof.
  intro H. unfold str_or. destruct a; simpl; [exact H | reflexivity].
Qed.

Lemma append_empty_r (s : string) : s ++ "" = s.
Proof.
  induction s as [| c s IH]; simpl; [reflexivity | now rewrite IH].
Qed.

Lemma append_assoc (a b c : string) : (a ++ b) ++ c = a ++ b ++ c.
Proof.
  induction a as [| x a IH]; simpl; [reflexivity | now rewrite IH].
Qed.

(** Strings built from literals and unknown parts are compared after
    re-association to the right; the unknown parts are generalised first
    so that no conversion looks into them. *)
Ltac string_norm :=
  cbn [append];
  repeat match goal with
         | |- context [append (append ?a ?b) ?c] =>
             rewrite (append_assoc a b c); cbn [append]
         | |- context [append ?a EmptyString] =>
             rewrite (append_empty_r a); cbn [append]
         end.

Ltac run_tmpl :=
  unfold tmpl, lines, lit, raw; rewrite ?esc_string;
  cbn [sequence bind String.concat join].

(** What [fallbackSummary] returns: the label, the repository segment
    when a repository name is found, and the actor segment in every
    case, with the word unknown when no actor is found. *)
Lemma fallbackSummary_value (event : string) (payload : value) :
  fallbackSummary event payload =
  Ok ("<b>" ++ html_escape (prettyLabel (str_or event "event")) ++ "</b> event"
      ++ (if is_empty (repo payload) then ""
          else " for <code>" ++ html_escape (repo payload) ++ "</code>")
      ++ " by <b>" ++ html_escape (str_or (actor payload) UNKNOWN) ++ "</b>").
Proof.
  unfold fallbackSummary.
  rewrite str_or_empty.
  rewrite (str_or_not_empty (actor payload) UNKNOWN eq_refl).
  rewrite !esc_string.
  generalize (html_escape (prettyLabel (str_or event "event"))) as L.
  generalize (html_escape (str_or (actor payload) UNKNOWN)) as A.
  generalize (html_escape (repo payload)) as R.
  generalize (is_empty (repo payload)) as e.
  intros e R A L.
  run_tmpl.
  destruct e; cbn [bind]; string_norm; reflexivity.
Qed.

Lemma handler_slot_constructor : handler_slot "constructor" = SlotObjectFunction.
Proof. vm_compute. reflexivity. Qed.

(** C1, at the failing input.  For the event type [constructor] the
    lookup in HANDLERS finds the function Object of the prototype, the
    call returns the mapped payload, and the entry point returns that
    object: not a string, whatever the payload. *)
Theorem summarizeGithubEvent_constructor_returns_the_payload :
  summarizeGithubEvent "constructor" (VObj []) = Ok (VObj [])
  /\ (forall payload, summarizeGithubEvent "constructor" payload = Ok (ensureMapping payload))
  /\ (forall payload text, summarizeGithubEvent "constructor" payload <> Ok (VStr text)).
Proof.
  assert (H : forall payload,
             summarizeGithubEvent "constructor" payload = Ok (ensureMapping payload)).
  { intro payload. unfold summarizeGithubEvent, summarizeGithubEvent_by.
    change (toLowerCase (str_or "constructor" "")) with "constructor".
    rewrite handler_slot_constructor. reflexivity. }
  split; [apply H | split; [exact H |]].
  intros payload text. rewrite H.
  destruct payload; discriminate.
Qed.

(** C2, at the failing input.  A marketplace purchase whose [units] is
    the string <script> is summarised with that string copied as it
    is into the second line: the unit count, the unit price and the
    total are interpolated without [esc]. *)
Theorem summarizeMarketplacePurchase_copies_units_unescaped :
  summarizeGithubEvent "marketplace_purchase"
    (VObj [("marketplace_purchase", VObj [("units", VStr "<script>")])])
  = Ok (VStr ("<b>Marketplace purchase</b> <b></b> by <b>?</b>" ++ newline
              ++ "plan: <code>plan</code> (<script> × 0) = NaN")).
Proof. vm_compute. reflexivity. Qed.

(** C3, at the failing input.  No actor can be extracted from the
    payload, the event type has no handler, and the fallback line still
    ends with an actor segment, for the word unknown. *)
Theorem fallbackSummary_names_an_unknown_actor :
  actor (VObj [("repository", VObj [("full_name", VStr "a/b")])]) = ""
  /\ handler_slot "totally_unknown_event" = SlotUndefined
  /\ summarizeGithubEvent "totally_unknown_event"
       (VObj [("repository", VObj [("full_name", VStr "a/b")])])
     = Ok (VStr "<b>Totally Unknown Event</b> event for <code>a/b</code> by <b>unknown</b>").
Proof. repeat split; vm_compute; reflexivity. Qed.

(** The entry point never throws: whatever the handler does, the
    fallback is there to answer. *)
Lemma summarizeGithubEvent_never_throws (event : string) (payload : value) :
  exists v, summarizeGithubEvent event payload = Ok v.
Proof.
  unfold summarizeGithubEvent, summarizeGithubEvent_by.
  rewrite fallbackSummary_value. cbn [bind].
  destruct (handler_slot _) as [h | | | name |]; cbn [try_catch call_slot bind];
    try (eexists; reflexivity).
  - destruct (h _ _); cbn [bind try_catch]; eexists; reflexivity.
  - destruct (String.eqb name "toString"); eexists; reflexivity.
Qed.

(** ** Lines that cannot throw

    A handler whose pieces all evaluate is the join of plain lines. *)

Lemma sequence_map_Ok {A : Type} (l : list A) : sequence (map Ok l) = Ok l.
Proof.
  induction l as [| a l IH]; cbn [map sequence bind]; [reflexivity |].
  rewrite IH. reflexivity.
Qed.

Lemma lines_map_Ok (l : list string) : lines (map Ok l) = Ok (join newline l).
Proof.
  unfold lines. rewrite sequence_map_Ok. reflexivity.
Qed.

Lemma when_Ok (c : bool) (line : string) :
  when_ c (Ok line) = map Ok (if c then [line] else []).
Proof.
  destruct c; reflexivity.
Qed.

Lemma sequence_app {A : Type} (a b : list (result A)) :
  sequence (a ++ b) =
  (x <- sequence a ;; y <- sequence b ;; Ok (x ++ y)%list).
Proof.
  induction a as [| c a IH]; cbn [app sequence bind].
  - destruct (sequence b); reflexivity.
  - destruct c as [v | e]; cbn [bind]; [| reflexivity].
    rewrite IH. destruct (sequence a); cbn [bind]; [| reflexivity].
    destruct (sequence b); reflexivity.
Qed.

(** The first line of a joined text is a prefix of it. *)
Lemma join_cons (line : string) (rest : list string) :
  exists tail, join newline (line :: rest) = line ++ tail.
Proof.
  destruct rest as [| l rest].
  - exists "". cbn. now rewrite append_empty_r.
  - eexists. cbn [join String.concat]. reflexivity.
Qed.

Lemma link_string (u label : string) :
  is_empty label = false -> link (VStr u) (VStr label) = Ok (link_text u label).
Proof.
  intro H. unfold link, link_text. cbn [truthy]. rewrite H. cbn [negb].
  destruct (is_empty u); [reflexivity |].
  cbn [js_String bind]. rewrite !esc_string.
  generalize (html_escape u) as U. generalize (html_escape label) as L. intros L U.
  run_tmpl. string_norm. reflexivity.
Qed.

(** A link never throws when its label is a string. *)
Lemma link_total (url : value) (label : string) :
  is_empty label = false -> exists t, link url (VStr label) = Ok t.
Proof.
  intro H. destruct url; try (eexists; reflexivity).
  eexists. apply link_string. exact H.
Qed.


(** ** Values that can be printed *)

Lemma js_String_printable (v : value) :
  printable v = true <-> exists s, js_String v = Ok s.
Proof.
  induction v as [| | b | n | s | items IH | fields _] using value_induction.
  - split; [intros _; eexists; reflexivity | reflexivity].
  - split; [intros _; eexists; reflexivity | reflexivity].
  - split; [intros _; destruct b; eexists; reflexivity | reflexivity].
  - split; [intros _; eexists; reflexivity | reflexivity].
  - split; [intros _; eexists; reflexivity | reflexivity].
  - cbn [printable js_String].
    induction IH as [| x rest Hx _ IH].
    + split; [intros _; eexists; reflexivity | reflexivity].
    + cbn [all_printable_with join_elements].
      fold (all_printable_with printable). fold (join_elements js_String).
      rewrite andb_true_iff, IH.
      assert (Hhead : (nullish x || printable x) = true <->
                      exists s, (if nullish x then Ok EmptyString else js_String x) = Ok s).
      { destruct (nullish x); cbn [orb]; [| exact Hx].
        split; [intros _; eexists; reflexivity | reflexivity]. }
      rewrite Hhead. clear Hhead Hx IH.
      destruct (if nullish x then Ok EmptyString else js_String x) as [s | e]; cbn [bind].
      * destruct rest as [| y rest'].
        -- split; [intros _; eexists; reflexivity | intros _; split; eexists; reflexivity].
        -- destruct (join_elements js_String (y :: rest')) as [t | e]; cbn [bind].
           ++ split; [intros _; eexists; reflexivity | intros _; split; eexists; reflexivity].
           ++ split; [intros [_ [t Ht]]; discriminate | intros [t Ht]; discriminate].
      * split; [intros [[s Hs] _]; discriminate | intros [t Ht]; discriminate].
  - cbn [printable js_String]. destruct (has_own "toString" fields); cbn [negb].
    + split; [discriminate | intros [s Hs]; discriminate].
    + split; [intros _; eexists; reflexivity | reflexivity].
Qed.

Lemma esc_printable (v : value) : printable v = true -> exists s, esc v = Ok s.
Proof.
  intro H. unfold esc, nullish_or.
  destruct (nullish v); [eexists; reflexivity |].
  apply js_String_printable in H as [s Hs]. rewrite Hs. eexists. reflexivity.
Qed.

(** ** Templates of known pieces *)

Lemma tmpl_map_Ok (pieces : list string) : tmpl (map Ok pieces) = Ok (text pieces).
Proof.
  unfold tmpl, text. rewrite sequence_map_Ok. reflexivity.
Qed.

Lemma text_cons (piece : string) (pieces : list string) :
  text (piece :: pieces) = piece ++ text pieces.
Proof.
  unfold text. destruct pieces as [| p ps]; cbn [String.concat].
  - now rewrite append_empty_r.
  - reflexivity.
Qed.

Lemma link_value (url : value) (label : string) :
  is_empty label = false -> link url (VStr label) = Ok (link_value_text url label).
Proof.
  intro H. destruct url; try reflexivity. apply link_string. exact H.
Qed.

(** ** The push summary *)

Lemma push_commit_entry (commits : list value) (shown index : nat) :
  push_commit commits shown index =
  map Ok (commit_entry (nth index commits VUndef)
          ++ if (index <? shown - 1)%nat then [""] else [])%list.
Proof.
  unfold push_commit, commit_entry.
  generalize (ensureMapping (nth index commits VUndef)) as c. intro c.
  rewrite !esc_string.
  change [lit "<code>"; Ok (html_escape (string_slice_or_empty 7 (get c "id")));
          lit "</code> "; Ok (html_escape (firstLine (get c "message") 120))]
    with (map Ok ["<code>"; html_escape (string_slice_or_empty 7 (get c "id"));
                  "</code> "; html_escape (firstLine (get c "message") 120)]).
  rewrite tmpl_map_Ok.
  generalize (text ["<code>"; html_escape (string_slice_or_empty 7 (get c "id"));
                    "</code> "; html_escape (firstLine (get c "message") 120)]) as line.
  intro line.
  destruct (get c "url") as [| | b | n | u | items | fields]; cbn [is_empty negb when_ app map];
    try (destruct (index <? shown - 1)%nat; reflexivity).
  destruct (is_empty u) eqn:Hu; cbn [negb when_ app map].
  - destruct (index <? shown - 1)%nat; reflexivity.
  - rewrite link_string by reflexivity.
    destruct (index <? shown - 1)%nat; reflexivity.
Qed.

Lemma push_commits_from_entries (commits : list value) (shown : nat) :
  forall remaining index,
    index + remaining = shown ->
    shown <= List.length commits ->
    push_commits_from commits shown index remaining =
    map Ok (separated (map commit_entry (firstn remaining (skipn index commits)))).
Proof.
  induction remaining as [| r IH]; intros index Hsum Hlen.
  - reflexivity.
  - cbn [push_commits_from].
    rewrite push_commit_entry, (IH (S index)) by lia.
    rewrite <- map_app. f_equal.
    assert (Hidx : index < List.length commits) by lia.
    destruct (skipn index commits) as [| c rest] eqn:Hskip.
    { apply (f_equal (@List.length value)) in Hskip.
      rewrite length_skipn in Hskip. cbn in Hskip. lia. }
    assert (Hnth : nth index commits VUndef = c).
    { rewrite <- (firstn_skipn index commits) at 1.
      rewrite app_nth2; rewrite length_firstn; [| lia].
      replace (index - Nat.min index (List.length commits)) with 0 by lia.
      rewrite Hskip. reflexivity. }
    assert (Hrest : skipn (S index) commits = rest).
    { replace (S index) with (1 + index) by lia.
      rewrite <- skipn_skipn, Hskip. reflexivity. }
    rewrite Hnth, Hrest. cbn [firstn map].
    destruct r as [| r'].
    + replace (index <? shown - 1)%nat with false
        by (symmetry; apply Nat.ltb_ge; lia).
      cbn [firstn map separated]. now rewrite !app_nil_r.
    + replace (index <? shown - 1)%nat with true
        by (symmetry; apply Nat.ltb_lt; lia).
      destruct rest as [| c' rest'].
      { exfalso. apply (f_equal (@List.length value)) in Hrest.
        rewrite length_skipn in Hrest. cbn in Hrest. lia. }
      cbn [firstn map separated]. rewrite <- app_assoc. reflexivity.
Qed.

(** Turns a template whose pieces are all known into its text. *)
Ltac known_pieces l :=
  lazymatch l with
  | @nil _ => constr:(@nil string)
  | cons (lit ?a) ?r => let r' := known_pieces r in constr:(cons a r')
  | cons (Ok ?a) ?r => let r' := known_pieces r in constr:(cons a r')
  end.

Ltac pure_tmpl :=
  repeat match goal with
         | |- context [tmpl ?l] =>
             let l' := known_pieces l in
             change (tmpl l) with (tmpl (map Ok l')); rewrite (tmpl_map_Ok l')
         end.

Lemma cons_Ok {A : Type} (x : A) (l : list A) : Ok x :: map Ok l = map Ok (x :: l).
Proof. reflexivity. Qed.

Lemma single_Ok {A : Type} (x : A) : [Ok x] = map Ok [x].
Proof. reflexivity. Qed.

Lemma firstn_min_length {A : Type} (n : nat) (l : list A) :
  firstn (Nat.min (List.length l) n) l = firstn n l.
Proof.
  destruct (Nat.le_ge_cases n (List.length l)) as [H | H].
  - now rewrite Nat.min_r.
  - rewrite Nat.min_l by exact H. now rewrite firstn_all, firstn_all2.
Qed.

Lemma summarizePush_value (payload : value) (actor_text : string) :
  esc (push_actorName (ensureMapping payload)) = Ok actor_text ->
  summarizePush payload =
  Ok (join newline (push_lines (ensureMapping payload) actor_text)).
Proof.
  unfold summarizePush. cbv zeta.
  generalize (ensureMapping payload) as data. intros data Hactor.
  rewrite Hactor, !esc_string. clear Hactor.
  unfold push_lines.
  destruct (truthy (get data "deleted")) eqn:Hdeleted.
  - pure_tmpl.
    rewrite (link_value _ "Repository") by reflexivity.
    rewrite when_Ok, single_Ok, <- map_app, lines_map_Ok.
    cbn [andb app]. reflexivity.
  - pure_tmpl.
    rewrite andb_false_l. cbn [when_]. rewrite app_nil_r.
    unfold push_headline, target_label, branch_name, compare_lines.
    match goal with
    | |- context [Ok (text ?l) :: nil] => generalize (text l) as head
    end.
    intro head.
    assert (Hcompare :
              when_ (negb (is_empty match get data "compare" with
                                    | VStr u => u
                                    | _ => ""
                                    end))
                    (link (VStr match get data "compare" with
                                | VStr u => u
                                | _ => ""
                                end) (VStr "Compare"))
              = map Ok match get data "compare" with
                       | VStr u => if is_empty u then [] else [link_text u "Compare"]
                       | _ => []
                       end).
    { destruct (get data "compare") as [| | b | n | u | items | fields]; try reflexivity.
      rewrite link_string by reflexivity. rewrite when_Ok.
      destruct (is_empty u); reflexivity. }
    rewrite Hcompare. clear Hcompare.
    generalize (match get data "compare" with
                | VStr u => if is_empty u then [] else [link_text u "Compare"]
                | _ => []
                end) as compare.
    generalize (array_or_empty (get data "commits")) as commits.
    intros commits compare.
    assert (Hblock :
              (if (0 <? List.length commits)%nat
               then
                 ([lit ""]
                  ++ push_commits_from commits (Nat.min (List.length commits) MAX_COMMITS) 0
                       (Nat.min (List.length commits) MAX_COMMITS)
                  ++ when_ (0 <? Z.of_nat (List.length commits) - Z.of_nat MAX_COMMITS)%Z
                       (Ok (text ["<i>+";
                                  number_to_string
                                    (Int (Z.of_nat (List.length commits)
                                          - Z.of_nat MAX_COMMITS));
                                  " more commits</i>"])))%list
               else [])
              = map Ok (commit_block commits)).
    { unfold commit_block, more_commits.
      destruct commits as [| c rest]; [reflexivity |].
      change (0 <? List.length (c :: rest))%nat with true. cbv iota.
      rewrite push_commits_from_entries by (try reflexivity; apply Nat.le_min_l).
      cbn [skipn]. rewrite firstn_min_length.
      rewrite when_Ok.
      change [lit ""] with (map (@Ok string) [""]).
      rewrite <- !map_app. f_equal. cbn [app]. f_equal. f_equal.
      generalize (List.length (c :: rest)) as count. intro count.
      destruct (MAX_COMMITS <? count)%nat eqn:Hmore.
      - apply Nat.ltb_lt in Hmore.
        replace (0 <? Z.of_nat count - Z.of_nat MAX_COMMITS)%Z with true
          by (symmetry; apply Z.ltb_lt; lia).
        unfold nat_to_string.
        replace (Z.of_nat (count - MAX_COMMITS))
          with (Z.of_nat count - Z.of_nat MAX_COMMITS)%Z by lia.
        reflexivity.
      - apply Nat.ltb_ge in Hmore.
        replace (0 <? Z.of_nat count - Z.of_nat MAX_COMMITS)%Z with false
          by (symmetry; apply Z.ltb_ge; lia).
        reflexivity. }
    rewrite Hblock. clear Hblock.
    rewrite single_Ok, <- !map_app, lines_map_Ok. reflexivity.
Qed.

(** [split] on a character never gives the empty array. *)
Lemma split_char_cons (c : ascii) (s : string) :
  exists seg segs, split_char c s = seg :: segs.
Proof.
  destruct s as [| d rest]; cbn [split_char].
  - eexists. eexists. reflexivity.
  - destruct (Ascii.eqb d c); [eexists; eexists; reflexivity |].
    destruct (split_char c rest); eexists; eexists; reflexivity.
Qed.

Lemma split_char_without (c : ascii) (s : string) :
  has_char c s = false -> split_char c s = [s].
Proof.
  induction s as [| d rest IH]; cbn [has_char split_char]; [reflexivity |].
  intro H. apply orb_false_iff in H as [Hd Hrest].
  rewrite Hd, (IH Hrest). reflexivity.
Qed.

Lemma split_char_with (c : ascii) (s : string) :
  has_char c s = true -> exists seg seg' segs, split_char c s = seg :: seg' :: segs.
Proof.
  induction s as [| d rest IH]; cbn [has_char split_char]; [discriminate |].
  destruct (Ascii.eqb d c); cbn [orb].
  - intros _. destruct (split_char_cons c rest) as [seg [segs ->]].
    eexists. eexists. eexists. reflexivity.
  - intro H. destruct (IH H) as [seg [seg' [segs ->]]].
    eexists. eexists. eexists. reflexivity.
Qed.

Lemma after_final_slash_without (s : string) :
  has_char "/" s = false -> after_final_slash s = s.
Proof.
  destruct s as [| d rest]; cbn [has_char after_final_slash]; [reflexivity |].
  intro H. apply orb_false_iff in H as [Hd Hrest].
  rewrite Hrest, Hd. reflexivity.
Qed.

(** ref.split("/").pop() is what follows the final slash. *)
Lemma pop_split_slash (s : string) :
  pop (split_char "/" s) = Some (after_final_slash s).
Proof.
  induction s as [| d rest IH]; [reflexivity |].
  cbn [split_char after_final_slash].
  destruct (has_char "/" rest) eqn:Hrest.
  - destruct (split_char_with _ _ Hrest) as [seg [seg' [segs Hsplit]]].
    rewrite Hsplit in IH |- *.
    destruct (Ascii.eqb d "/"); cbn [pop] in IH |- *; exact IH.
  - rewrite (split_char_without _ _ Hrest).
    destruct (Ascii.eqb d "/") eqn:Hd; cbn [pop]; reflexivity.
Qed.

(** What follows the final slash has no slash, and the string is it,
    or ends with a slash and it. *)
Lemma after_final_slash_spec (s : string) :
  has_char "/" (after_final_slash s) = false
  /\ (after_final_slash s = s
      \/ exists front, s = front ++ "/" ++ after_final_slash s).
Proof.
  induction s as [| d rest [IHno IHshape]]; [split; [reflexivity | left; reflexivity] |].
  cbn [after_final_slash].
  destruct (has_char "/" rest) eqn:Hrest.
  - split; [exact IHno |]. right.
    destruct IHshape as [Hsame | [front Hfront]].
    + rewrite Hsame in IHno. congruence.
    + exists (String d front). cbn [append]. f_equal. exact Hfront.
  - destruct (Ascii.eqb d "/") eqn:Hd.
    + split; [exact Hrest |]. right. exists "".
      apply Ascii.eqb_eq in Hd. subst d. reflexivity.
    + split; [cbn [has_char]; rewrite Hd, Hrest; reflexivity | left; reflexivity].
Qed.

Lemma push_branch_value (ref : value) :
  push_branch ref =
  match ref with
  | VStr r => if is_empty r then "unknown" else after_final_slash r
  | _ => "unknown"
  end.
Proof.
  destruct ref as [| | b | n | r | items | fields]; try reflexivity.
  cbn [push_branch]. rewrite pop_split_slash. reflexivity.
Qed.

Ltac assoc_right :=
  repeat match goal with
         | |- context [append (append ?a ?b) ?c] => rewrite (append_assoc a b c)
         end.

(** C10, as amended.  The name in the headline of a push is what follows
    the final slash of [ref] when [ref] is a non-empty string, and the
    word unknown when [ref] is the empty string, absent, or not a
    string; this for the pushes whose pusher name, when there is one,
    can be converted to a string. *)
Theorem summarizePush_names_the_last_segment (payload : value) :
  let data := ensureMapping payload in
  printable (push_actorName data) = true ->
  exists shown rest,
    summarizePush payload =
      Ok ((if truthy (get data "deleted") then "<b>Deleted</b> " else "<b>Push</b> to ")
          ++ target_label data ++ " <code>" ++ html_escape shown ++ "</code>" ++ rest)
    /\ (forall ref, get data "ref" = VStr ref -> ref <> "" -> shown = after_final_slash ref)
    /\ (get data "ref" = VStr "" -> shown = "unknown")
    /\ ((forall ref, get data "ref" <> VStr ref) -> shown = "unknown").
Proof.
  intros data Hactor.
  destruct (esc_printable _ Hactor) as [actor_text Hesc].
  exists (branch_name data).
  rewrite (summarizePush_value payload actor_text Hesc). fold data.
  assert (Hhead : exists rest,
             join newline (push_lines data actor_text) =
             (if truthy (get data "deleted") then "<b>Deleted</b> " else "<b>Push</b> to ")
             ++ target_label data ++ " <code>" ++ html_escape (branch_name data)
             ++ "</code>" ++ rest).
  { unfold push_lines, deleted_headline, push_headline.
    generalize (target_label data) as kind.
    generalize (html_escape (branch_name data)) as name.
    intros name kind.
    destruct (truthy (get data "deleted"));
      match goal with
      | |- context [join newline (text (?a :: ?b :: ?c :: ?d :: ?e :: ?more) :: ?others)] =>
          destruct (join_cons (text (a :: b :: c :: d :: e :: more)) others) as [tail ->];
          rewrite 5 text_cons;
          generalize (text more) as pieces; intro pieces;
          exists (pieces ++ tail)
      end;
      assoc_right; reflexivity. }
  destruct Hhead as [rest ->]. exists rest.
  split; [reflexivity |].
  unfold branch_name. rewrite push_branch_value.
  repeat split.
  - intros ref Href Hne. rewrite Href. cbn [nullish_or nullish].
    destruct ref; [contradiction Hne; reflexivity | reflexivity].
  - intros Href. rewrite Href. reflexivity.
  - intros Hnot. destruct (get data "ref") as [| | b | n | r | items | fields];
      try reflexivity.
    contradiction (Hnot r). reflexivity.
Qed.

(** The amended C10 at a push to [refs/heads/feature/x]: the headline
    names [x]. *)
Lemma summarizePush_names_the_last_segment_witness :
  exists shown rest,
    summarizePush push_of_six =
      Ok ("<b>Push</b> to branch <code>" ++ html_escape shown ++ "</code>" ++ rest)
    /\ shown = "x".
Proof.
  destruct (summarizePush_names_the_last_segment push_of_six eq_refl)
    as [shown [rest [Hout [Hname _]]]].
  exists shown, rest. split.
  - exact Hout.
  - apply (Hname "refs/heads/feature/x" eq_refl). discriminate.
Defined.

(** C10, as stated, fails for the empty ref: it is a string, what
    follows its final slash is the empty string, and the headline names
    the word unknown.  It fails as well for a push whose pusher name is
    an object with a [toString] property that is no function: printing
    the name throws and no headline is produced. *)
Lemma summarizePush_empty_ref_is_unknown :
  get (ensureMapping push_of_empty_ref) "ref" = VStr ""
  /\ branch_as_specified (VStr "") = ""
  /\ push_branch (VStr "") = "unknown"
  /\ summarizePush push_of_empty_ref =
     Ok "<b>Push</b> to branch <code>unknown</code> in <code>?</code> by <b>unknown</b> (0 commits)"
  /\ get (ensureMapping push_by_unprintable) "ref" = VStr "refs/heads/main"
  /\ summarizePush push_by_unprintable =
     Throw (TypeError "Cannot convert object to primitive value").
Proof. repeat split; vm_compute; reflexivity. Qed.

(** C5, as amended.  A push that is not a deletion, with [count] commits: above
    five, exactly five entries are rendered, one for each of the first
    five commits (short sha, first line of the message, link if any),
    and the last line is the trailer for the [count - 5] others; from
    one to five, all the commits are rendered and there is no trailer;
    with none, the summary stops after the headline and the compare
    link.  This holds of the pushes whose pusher name, when there is
    one, can be converted to a string. *)
Theorem summarizePush_shows_five_commits (payload : value) (commits : list value) :
  let data := ensureMapping payload in
  truthy (get data "deleted") = false ->
  get data "commits" = VArr commits ->
  printable (push_actorName data) = true ->
  exists actor_text,
    esc (push_actorName data) = Ok actor_text /\
    let top := (push_headline data actor_text :: compare_lines data)%list in
    let entries := map commit_entry (firstn 5 commits) in
    let count := List.length commits in
    (5 < count ->
       List.length entries = 5 /\
       summarizePush payload =
       Ok (join newline
             (top ++ "" :: separated entries
              ++ [text ["<i>+"; nat_to_string (count - 5); " more commits</i>"]])%list))
    /\ (0 < count <= 5 ->
          List.length entries = count /\
          summarizePush payload = Ok (join newline (top ++ "" :: separated entries)%list))
    /\ (count = 0 -> summarizePush payload = Ok (join newline top)).
Proof.
  intros data Hdeleted Hcommits Hactor.
  destruct (esc_printable _ Hactor) as [actor_text Hesc].
  exists actor_text. split; [exact Hesc |].
  cbv zeta.
  rewrite (summarizePush_value payload actor_text Hesc). fold data.
  unfold push_lines. rewrite Hdeleted, Hcommits. cbn [array_or_empty].
  unfold commit_block, more_commits.
  change MAX_COMMITS with 5.
  rewrite length_map, length_firstn.
  generalize (push_headline data actor_text) as head.
  generalize (compare_lines data) as compare.
  generalize (map commit_entry (firstn 5 commits)) as entries.
  intros entries compare head.
  split; [intro Hcount; split | split; [intro Hcount; split | intro Hcount]].
  - lia.
  - destruct commits as [| c rest]; [cbn in Hcount; lia |].
    replace (5 <? List.length (c :: rest))%nat with true
      by (symmetry; apply Nat.ltb_lt; exact Hcount).
    reflexivity.
  - lia.
  - destruct commits as [| c rest]; [cbn in Hcount; lia |].
    replace (5 <? List.length (c :: rest))%nat with false
      by (symmetry; apply Nat.ltb_ge; lia).
    rewrite app_nil_r. reflexivity.
  - destruct commits as [| c rest]; [| cbn in Hcount; lia].
    rewrite app_nil_r. reflexivity.
Qed.

(** The amended C5 at a push of six commits: five entries and the
    trailer for one more commit. *)
Lemma summarizePush_shows_five_commits_witness :
  summarizePush push_of_six =
  Ok (join newline
        ["<b>Push</b> to branch <code>x</code> in <code>?</code> by <b>unknown</b> (6 commits)";
         "";
         "<code>aaaaaaa</code> fix aaaaaaa1111"; "";
         "<code>bbbbbbb</code> fix bbbbbbb2222"; "";
         "<code>ccccccc</code> fix ccccccc3333"; "";
         "<code>ddddddd</code> fix ddddddd4444"; "";
         "<code>eeeeeee</code> fix eeeeeee5555";
         "<i>+1 more commits</i>"]).
Proof.
  destruct (summarizePush_shows_five_commits push_of_six six_commits eq_refl eq_refl eq_refl)
    as [actor_text [Hesc [Hmore _]]].
  injection Hesc as <-.
  destruct Hmore as [_ Hout]; [cbn; lia |].
  exact Hout.
Defined.

(** C5, as stated, fails for a push of six commits whose pusher name is
    an object with a [toString] property that is no function: printing
    the name throws, the event is summarised by the fallback line, and
    no commit is shown. *)
Lemma summarizePush_unprintable_pusher_throws :
  get (ensureMapping push_by_unprintable) "commits" = VArr six_commits
  /\ List.length six_commits = 6
  /\ summarizePush push_by_unprintable =
     Throw (TypeError "Cannot convert object to primitive value")
  /\ summarizeGithubEvent "push" push_by_unprintable =
     Ok (VStr "<b>Push</b> event by <b>unknown</b>").
Proof. repeat split; vm_compute; reflexivity. Qed.

(** The lines of the pull request summary once its action is settled. *)
Lemma summarizePullRequest_value (payload : value) (shown : string) :
  let data := ensureMapping payload in
  let pr := ensureMapping (get data "pull_request") in
  (if is_str (get data "action" ?? VStr "") "closed" && truthy (get pr "merged")
   then VStr "merged" else get data "action" ?? VStr "") = VStr shown ->
  forallb printable (pull_request_printed data) = true ->
  exists number_text rest,
    esc (pull_request_number data) = Ok number_text
    /\ summarizePullRequest payload =
       Ok (pull_request_headline data number_text (html_escape shown) ++ rest).
Proof.
  intros data pr Haction Hprint.
  unfold pull_request_printed in Hprint. fold pr in Hprint.
  cbn [forallb] in Hprint.
  repeat (apply andb_true_iff in Hprint as [? Hprint]).
  destruct (esc_printable (pull_request_number data)) as [number_text Hnumber]; [assumption |].
  destruct (esc_printable (get pr "title" ?? VStr "")) as [title Htitle]; [assumption |].
  destruct (esc_printable (dig pr ["head"; "ref"] ?? VStr "?")) as [head Hhead]; [assumption |].
  destruct (esc_printable (dig pr ["base"; "ref"] ?? VStr "?")) as [base Hbase]; [assumption |].
  exists number_text.
  unfold summarizePullRequest. cbv zeta. fold data. fold pr.
  change (get pr "number" ?? get data "number" ?? VStr "?") with (pull_request_number data).
  rewrite Haction, Hnumber, Htitle, Hhead, Hbase, !esc_string.
  rewrite (link_value _ "View pull request") by reflexivity.
  pure_tmpl. rewrite !when_Ok, !single_Ok, <- !map_app, lines_map_Ok.
  unfold pull_request_headline.
  match goal with
  | |- context [join newline ((?l :: nil) ++ ?others)%list] =>
      change ((l :: nil) ++ others)%list with (l :: others);
      destruct (join_cons l others) as [tail ->]
  end.
  exists tail. split; reflexivity.
Qed.

(** C4, as amended.  A pull request event whose action is [closed], and
    whose number, title, head ref and base ref can each be converted to
    a string, is headed [merged] when [pull_request.merged] is true,
    and [closed] when it is false or absent. *)
Theorem summarizePullRequest_closed_and_merged (payload : value) :
  let data := ensureMapping payload in
  let pr := ensureMapping (get data "pull_request") in
  get data "action" = VStr "closed" ->
  forallb printable (pull_request_printed data) = true ->
  (get pr "merged" = VBool true ->
     exists number_text rest,
       esc (pull_request_number data) = Ok number_text
       /\ summarizePullRequest payload =
          Ok (pull_request_headline data number_text "merged" ++ rest))
  /\ (get pr "merged" = VBool false \/ get pr "merged" = VUndef ->
        exists number_text rest,
          esc (pull_request_number data) = Ok number_text
          /\ summarizePullRequest payload =
             Ok (pull_request_headline data number_text "closed" ++ rest)).
Proof.
  intros data pr Haction Hprint. split.
  - intro Hmerged.
    apply (summarizePullRequest_value payload "merged"); [| exact Hprint].
    fold data. fold pr. rewrite Haction, Hmerged. reflexivity.
  - intro Hmerged.
    apply (summarizePullRequest_value payload "closed"); [| exact Hprint].
    fold data. fold pr. rewrite Haction.
    destruct Hmerged as [-> | ->]; reflexivity.
Qed.

(** The amended C4 at a merged and at a closed pull request. *)
Lemma summarizePullRequest_closed_and_merged_witness :
  (exists rest,
     summarizePullRequest merged_pull_request =
     Ok ("<b>Pull request</b> <code>a/b</code> #7 <b>merged</b> by <b>unknown</b>" ++ rest))
  /\ (exists rest,
        summarizePullRequest closed_pull_request =
        Ok ("<b>Pull request</b> <code>a/b</code> #8 <b>closed</b> by <b>unknown</b>" ++ rest)).
Proof.
  split.
  - destruct (summarizePullRequest_closed_and_merged merged_pull_request eq_refl eq_refl)
      as [Hmerged _].
    destruct (Hmerged eq_refl) as [number_text [rest [Hnumber Hout]]].
    injection Hnumber as <-. exists rest. exact Hout.
  - destruct (summarizePullRequest_closed_and_merged closed_pull_request eq_refl eq_refl)
      as [_ Hclosed].
    destruct (Hclosed (or_introl eq_refl)) as [number_text [rest [Hnumber Hout]]].
    injection Hnumber as <-. exists rest. exact Hout.
Defined.

(** C4, as stated, fails for a closed and merged pull request whose
    title is an object with a [toString] property that is no function:
    printing the title throws, the event is summarised by the fallback
    line, and no headline says [merged].  The same holds of the other
    values that the summary prints: the number and the head and base
    refs. *)
Lemma summarizePullRequest_unprintable_title_throws :
  get (ensureMapping untitled_pull_request) "action" = VStr "closed"
  /\ get (ensureMapping (get (ensureMapping untitled_pull_request) "pull_request")) "merged"
     = VBool true
  /\ summarizePullRequest untitled_pull_request =
     Throw (TypeError "Cannot convert object to primitive value")
  /\ summarizeGithubEvent "pull_request" untitled_pull_request =
     Ok (VStr "<b>Pull Request</b> event for <code>a/b</code> by <b>unknown</b>")
  /\ summarizePullRequest
       (VObj [("action", VStr "closed");
              ("pull_request", VObj [("merged", VBool true); ("number", unprintable)])]) =
     Throw (TypeError "Cannot convert object to primitive value")
  /\ summarizePullRequest
       (VObj [("action", VStr "closed");
              ("pull_request",
               VObj [("merged", VBool true); ("head", VObj [("ref", unprintable)])])]) =
     Throw (TypeError "Cannot convert object to primitive value")
  /\ summarizePullRequest
       (VObj [("action", VStr "closed");
              ("pull_request",
               VObj [("merged", VBool true); ("base", VObj [("ref", unprintable)])])]) =
     Throw (TypeError "Cannot convert object to primitive value").
Proof. repeat split; vm_compute; reflexivity. Qed.

(** ** The subject of an event *)










Lemma units_of_bound (c : ascii) : units_of c <= 2.
Proof.
  unfold units_of.
  repeat match goal with
         | |- context [if ?b then _ else _] => destruct b
         end; lia.
Qed.

Lemma units_of_continuation (m : N) : units_of (ascii_of_N (128 + m mod 64)) = 0.
Proof.
  assert (Hm : (m mod 64 < 64)%N) by (apply N.mod_lt; discriminate).
  generalize dependent (m mod 64)%N. intros r Hr.
  unfold units_of, nat_of_ascii.
  rewrite N_ascii_embedding by lia.
  destruct (Nat.ltb_spec (N.to_nat (128 + r)) 128) as [H | _]; [lia |].
  destruct (Nat.ltb_spec (N.to_nat (128 + r)) 192) as [_ | H]; [reflexivity | lia].
Qed.

Lemma length_high_surrogate (a b c d : ascii) : Js.length (high_surrogate a b c d) = 1.
Proof.
  unfold high_surrogate. cbv zeta. cbn [Js.length].
  rewrite !units_of_continuation. reflexivity.
Qed.

Lemma length_slice0 (n : nat) (s : string) : Js.length (slice0 n s) <= n.
Proof.
  revert n.
  induction s as [| a s IH]; intro n; [cbn; lia |].
  cbn [slice0].
  pose proof (units_of_bound a) as Hbound.
  destruct (units_of a) as [| [| u]] eqn:Hunits.
  - cbn [Js.length]. rewrite Hunits. apply IH.
  - destruct n as [| m]; [cbn; lia |].
    cbn [Js.length]. rewrite Hunits. specialize (IH m). lia.
  - destruct n as [| [| m]].
    + cbn. lia.
    + destruct s as [| b [| c [| d s']]]; try (cbn [Js.length]; lia).
      rewrite length_high_surrogate. lia.
    + cbn [Js.length]. rewrite Hunits. specialize (IH m). lia.
Qed.






(** ** The generic summary and its extra lines *)

Lemma join_snoc (l : list string) (x : string) :
  l <> [] -> join newline (l ++ [x]) = join newline l ++ newline ++ x.
Proof.
  induction l as [| a l IH]; [congruence |]. intros _.
  destruct l as [| b l].
  - reflexivity.
  - change (join newline ((a :: b :: l) ++ [x]))
      with (a ++ newline ++ join newline ((b :: l) ++ [x])).
    rewrite IH by discriminate.
    change (join newline (a :: b :: l)) with (a ++ newline ++ join newline (b :: l)).
    now rewrite !append_assoc.
Qed.

Lemma callableExtra_throwing (f : value -> result value) (payload : value)
      (error : thrown) (shown : string) :
  f payload = Throw error ->
  thrown_nullish error = false ->
  js_String (error_text error) = Ok shown ->
  callableExtra (ExtraResolver f) payload =
  Ok ["<i>extra error: " ++ html_escape shown ++ "</i>"].
Proof.
  intros Hf Hnullish Hshown.
  unfold callableExtra. rewrite Hf. cbn [bind try_catch].
  unfold extra_error. rewrite Hnullish.
  fold (error_text error).
  assert (Hesc : esc (error_text error) = Ok (html_escape shown)).
  { unfold esc. replace (error_text error ?? VStr "") with (error_text error).
    - rewrite Hshown. reflexivity.
    - unfold error_text, or_else, nullish_or.
      destruct (truthy (message error)) eqn:Ht; [| reflexivity].
      destruct (message error); try discriminate; reflexivity. }
  rewrite Hesc.
  generalize (html_escape shown) as escaped. intro escaped.
  pure_tmpl. cbn [bind]. unfold text. cbn [String.concat]. reflexivity.
Qed.

Lemma bind_Ok_inv {A B : Type} (c : result A) (k : A -> result B) (b : B) :
  bind c k = Ok b -> exists a, c = Ok a /\ k a = Ok b.
Proof.
  destruct c as [a | e]; cbn [bind]; [| discriminate].
  intro H. exists a. split; [reflexivity | exact H].
Qed.

Lemma genericActionSummary_headline (label : string) (payload : value) (options : Options)
      (summary : string) :
  genericActionSummary label payload options = Ok summary ->
  exists action subjectName rest,
    summary =
    formatMainLine label action subjectName (repo (ensureMapping payload))
                   (str_or (actor (ensureMapping payload)) UNKNOWN) ++ rest.
Proof.
  unfold genericActionSummary. cbv zeta.
  generalize (ensureMapping payload) as data. intros data H.
  apply bind_Ok_inv in H as [action_text [_ H]].
  apply bind_Ok_inv in H as [found [_ H]].
  apply bind_Ok_inv in H as [details [_ H]].
  apply bind_Ok_inv in H as [extras [_ H]].
  match type of H with
  | Ok (join newline ([?line] ++ ?others)%list) = _ =>
      change ([line] ++ others)%list with (line :: others) in H;
      destruct (join_cons line others) as [tail Htail]; rewrite Htail in H
  end.
  injection H as <-.
  eexists. eexists. eexists. reflexivity.
Qed.

(** ** Every handler answers with some text *)

Lemma texty_Ok (s : string) : is_empty s = false -> texty (Ok s).
Proof.
  intros H t Ht. injection Ht as <-. exact H.
Qed.

Lemma texty_lit (s : string) : is_empty s = false -> texty (lit s).
Proof. apply texty_Ok. Qed.

Lemma is_empty_append (a b : string) : is_empty a = false -> is_empty (a ++ b) = false.
Proof.
  destruct a; [discriminate | reflexivity].
Qed.

Lemma texty_tmpl (a : string) (pieces : list (result string)) :
  is_empty a = false -> texty (tmpl (lit a :: pieces)).
Proof.
  intros Ha s. unfold tmpl, lit. cbn [sequence bind].
  destruct (sequence pieces) as [l | e]; cbn [bind]; [| discriminate].
  intro H.
  assert (Hs : s = text (a :: l)) by (unfold text; congruence).
  rewrite Hs, text_cons. apply is_empty_append. exact Ha.
Qed.

Lemma texty_lines (c : result string) (cs : list (result string)) :
  texty c -> texty (lines (c :: cs)).
Proof.
  intros Hc s. unfold lines. cbn [sequence].
  destruct c as [a | e]; cbn [bind]; [| discriminate].
  destruct (sequence cs) as [l | e]; cbn [bind]; [| discriminate].
  intro H.
  assert (Hs : s = join newline (a :: l)) by congruence.
  destruct (join_cons a l) as [tail Htail].
  rewrite Hs, Htail. apply is_empty_append. apply Hc. reflexivity.
Qed.

Lemma texty_bind {A : Type} (c : result A) (k : A -> result string) :
  (forall a, texty (k a)) -> texty (bind c k).
Proof.
  intros Hk s H. apply bind_Ok_inv in H as [a [_ H]]. exact (Hk a s H).
Qed.

Lemma texty_bind_text (c : result string) (k : string -> result string) :
  texty c -> (forall a, is_empty a = false -> texty (k a)) -> texty (bind c k).
Proof.
  intros Hc Hk s H. apply bind_Ok_inv in H as [a [Ha H]].
  exact (Hk a (Hc a Ha) s H).
Qed.

Lemma texty_if (b : bool) (c d : result string) :
  texty c -> texty d -> texty (if b then c else d).
Proof.
  destruct b; auto.
Qed.

Lemma formatMainLine_not_empty (label action subjectName repoName actorName : string) :
  is_empty (formatMainLine label action subjectName repoName actorName) = false.
Proof.
  unfold formatMainLine.
  repeat match goal with
         | |- context [if ?b then _ else _] => destruct b
         end;
    rewrite ?append_assoc; reflexivity.
Qed.

Lemma texty_genericActionSummary (label : string) (payload : value) (options : Options) :
  texty (genericActionSummary label payload options).
Proof.
  intros s H.
  destruct (genericActionSummary_headline _ _ _ _ H) as [action [subjectName [rest ->]]].
  apply is_empty_append, formatMainLine_not_empty.
Qed.

Lemma texty_fallbackSummary (event : string) (payload : value) :
  texty (fallbackSummary event payload).
Proof.
  rewrite fallbackSummary_value. apply texty_Ok. reflexivity.
Qed.

Ltac texty_solve :=
  first
    [ apply texty_genericActionSummary
    | apply texty_fallbackSummary
    | apply texty_tmpl; first [reflexivity | assumption]
    | apply texty_lit; first [reflexivity | assumption]
    | apply texty_Ok; first [reflexivity | assumption]
    | apply texty_lines; texty_solve
    | apply texty_if; texty_solve
    | apply texty_bind_text; [solve [texty_solve] | intros ? ?; texty_solve]
    | apply texty_bind; intro; texty_solve ].

Ltac texty_handler h :=
  intros; unfold h; cbv zeta; cbn [app]; texty_solve.

Ltac unfold_handler :=
  repeat match goal with
         | |- texty (?f ?p) => is_var p; unfold f; cbv zeta
         | |- texty (?f ?p ?e) => is_var p; is_var e; unfold f; cbv zeta
         end.

Lemma texty_summarizePush (payload : value) : texty (summarizePush payload).
Proof.
  unfold summarizePush. cbv zeta.
  destruct (truthy (get (ensureMapping payload) "deleted")); cbn [app]; texty_solve.
Qed.

(** Each handler of the table, when it returns, returns some text. *)
Lemma handlers_answer_text :
  Forall (fun entry =>
            forall h, handler (snd entry) = Some h ->
                      forall payload event, texty (h payload event))
         EVENTS_METADATA.
Proof.
  unfold EVENTS_METADATA.
  repeat (apply Forall_cons;
          [ intros h Hh payload event;
            cbn [snd handler with_handler] in Hh; injection Hh as <-;
            unfold ignoring_event;
            first [ apply texty_summarizePush
                  | unfold_handler; cbn [app]; texty_solve ]
          | ]).
  apply Forall_nil.
Qed.

Lemma own_entries_metadata : own_entries EVENTS_METADATA = EVENTS_METADATA.
Proof. reflexivity. Qed.

Lemma texty_labelled_handler (label : string) (payload : value) (event : string) :
  texty (labelled_handler label payload event).
Proof.
  unfold labelled_handler.
  apply texty_bind. intro text.
  destruct (is_empty text) eqn:H.
  - apply texty_fallbackSummary.
  - apply texty_Ok. exact H.
Qed.

Lemma own_handler_assign (table : list (string * Handler)) (event key : string) (h : Handler) :
  own_handler (assign table event h) key =
  if String.eqb key event then Some h else own_handler table key.
Proof.
  induction table as [| [k h'] rest IH]; cbn [assign own_handler].
  - reflexivity.
  - destruct (String.eqb k event) eqn:Hk; cbn [own_handler].
    + apply String.eqb_eq in Hk. subst k.
      destruct (String.eqb key event); reflexivity.
    + rewrite IH. destruct (String.eqb key k) eqn:Hkey; [| reflexivity].
      apply String.eqb_eq in Hkey. subst key. rewrite Hk. reflexivity.
Qed.

(** Every handler found in HANDLERS, when it returns, returns some
    text. *)
Lemma HANDLERS_answer_text (key : string) (h : Handler) :
  own_handler HANDLERS key = Some h ->
  forall payload event, texty (h payload event).
Proof.
  unfold HANDLERS. rewrite own_entries_metadata.
  assert (Hgen : forall entries table,
             Forall (fun entry =>
                       forall h, handler (snd entry) = Some h ->
                                 forall payload event, texty (h payload event)) entries ->
             (forall key h, own_handler table key = Some h ->
                            forall payload event, texty (h payload event)) ->
             forall key h,
               own_handler
                 (fold_left
                    (fun table entry =>
                       let event := fst entry in
                       let meta := snd entry in
                       match handler meta with
                       | Some h => assign table event h
                       | None =>
                           let label := match label meta with
                                        | Some l => l
                                        | None => prettyLabel event
                                        end in
                           assign table event (labelled_handler label)
                       end) entries table) key = Some h ->
               forall payload event, texty (h payload event)).
  { intro metadata. induction metadata as [| entry metadata IH]; intros table Hentries Htable.
    - exact Htable.
    - inversion Hentries as [| ? ? Hentry Hrest]; subst.
      cbn [fold_left]. apply IH; [exact Hrest |].
      intros key' h'. cbv zeta.
      destruct (handler (snd entry)) as [h0 |] eqn:Hh0;
        rewrite own_handler_assign;
        destruct (String.eqb key' (fst entry)) eqn:Hkey.
      + intro H. injection H as <-. apply Hentry. reflexivity.
      + apply Htable.
      + intro H. injection H as <-. intros. apply texty_labelled_handler.
      + apply Htable. }
  apply Hgen; [exact handlers_answer_text | discriminate].
Qed.

Lemma handler_slot_of_constructor (key : string) :
  handler_slot key = SlotObjectFunction -> key = "constructor".
Proof.
  unfold handler_slot.
  destruct (own_handler HANDLERS key); [discriminate |].
  destruct (String.eqb key "constructor") eqn:H.
  - intros _. apply String.eqb_eq. exact H.
  - destruct (String.eqb key "__proto__"); [discriminate |].
    destruct (existsb _ _); discriminate.
Qed.

(** Away from the event type [constructor], the entry point returns a
    non-empty string. *)
Lemma summarizeGithubEvent_returns_text (event : string) (payload : value) :
  toLowerCase event <> "constructor" ->
  exists text,
    summarizeGithubEvent event payload = Ok (VStr text) /\ is_empty text = false.
Proof.
  intro Hkey. unfold summarizeGithubEvent, summarizeGithubEvent_by. rewrite str_or_empty.
  generalize (texty_fallbackSummary (toLowerCase event) (ensureMapping payload)).
  rewrite fallbackSummary_value.
  match goal with
  | |- texty (Ok ?t) -> _ => generalize t
  end.
  intros fallback Hfallback.
  specialize (Hfallback fallback eq_refl).
  cbn [bind].
  destruct (handler_slot (toLowerCase event)) as [h | | | name |] eqn:Hslot;
    cbn [try_catch call_slot bind].
  - unfold handler_slot in Hslot.
    destruct (own_handler HANDLERS (toLowerCase event)) as [h' |] eqn:Hown.
    + injection Hslot as ->.
      pose proof (HANDLERS_answer_text _ _ Hown (ensureMapping payload) (toLowerCase event))
        as Htext.
      destruct (h (ensureMapping payload) (toLowerCase event)) as [text | e];
        cbn [bind try_catch].
      * exists text. split; [reflexivity | apply Htext; reflexivity].
      * exists fallback. split; [reflexivity | exact Hfallback].
    + destruct (String.eqb _ "constructor"); [discriminate |].
      destruct (String.eqb _ "__proto__"); [discriminate |].
      destruct (existsb _ _); discriminate.
  - contradiction Hkey. apply handler_slot_of_constructor. exact Hslot.
  - exists fallback. split; [reflexivity | exact Hfallback].
  - destruct (String.eqb name "toString"); cbn [try_catch].
    + eexists. split; reflexivity.
    + exists fallback. split; [reflexivity | exact Hfallback].
  - exists fallback. split; [reflexivity | exact Hfallback].
Qed.

(** ** Escaped text carries no markup *)

Lemma has_char_append (c : ascii) (a b : string) :
  has_char c (a ++ b) = has_char c a || has_char c b.
Proof.
  induction a as [| d a IH]; cbn [append has_char]; [reflexivity |].
  rewrite IH. apply orb_assoc.
Qed.

Lemma replace_all_removes (c : ascii) (by_ s : string) :
  has_char c by_ = false -> has_char c (replace_all c by_ s) = false.
Proof.
  intro Hby. induction s as [| d s IH]; cbn [replace_all has_char]; [reflexivity |].
  destruct (Ascii.eqb d c) eqn:Hd.
  - rewrite has_char_append, Hby, IH. reflexivity.
  - cbn [has_char]. rewrite Hd, IH. reflexivity.
Qed.

Lemma replace_all_keeps_out (c d : ascii) (by_ s : string) :
  has_char d by_ = false -> has_char d s = false ->
  has_char d (replace_all c by_ s) = false.
Proof.
  intros Hby. induction s as [| x s IH]; cbn [replace_all has_char]; [reflexivity |].
  intro H. apply orb_false_iff in H as [Hx Hs].
  destruct (Ascii.eqb x c).
  - rewrite has_char_append, Hby, (IH Hs). reflexivity.
  - cbn [has_char]. rewrite Hx, (IH Hs). reflexivity.
Qed.

(** What [esc] returns has no angle bracket and no double quote. *)
Lemma html_escape_has_no_markup (s : string) :
  has_char "<" (html_escape s) = false
  /\ has_char ">" (html_escape s) = false
  /\ has_char (ascii_of_nat 34) (html_escape s) = false.
Proof.
  unfold html_escape. repeat split.
  - apply replace_all_keeps_out; [reflexivity |].
    apply replace_all_keeps_out; [reflexivity |].
    apply replace_all_removes. reflexivity.
  - apply replace_all_keeps_out; [reflexivity |].
    apply replace_all_removes. reflexivity.
  - apply replace_all_removes. reflexivity.
Qed.

(** Escaping brings in no character other than those of the four
    entities. *)
Lemma html_escape_keeps_out (d : ascii) (s : string) :
  has_char d s = false ->
  has_char d "&amp;&lt;&gt;&quot;" = false ->
  has_char d (html_escape s) = false.
Proof.
  intros Hs Hd. unfold html_escape.
  cbn [has_char] in Hd.
  repeat (apply replace_all_keeps_out;
          [cbn [has_char];
           repeat match type of Hd with
                  | (_ || _) = false => apply orb_false_iff in Hd as [? Hd]
                  end;
           repeat match goal with
                  | H : Ascii.eqb _ _ = false |- _ => rewrite H; clear H
                  end; reflexivity |]).
  exact Hs.
Qed.

(** C9, as amended.  When the extra function throws an error object (a
    value that is not null or undefined) whose message (or, for an
    empty message, its inspection) can be converted to a string, the
    generic summary is what it is without the extra, followed by a line
    feed and the escaped message between [<i>extra error: ] and
    [</i>]; that summary starts with the main line; and what is added
    is a single line when the message has no line feed.  The failure of
    the extra does not make the summary throw. *)
Theorem genericActionSummary_renders_the_extra_error
        (label : string) (payload : value) (options : Options)
        (f : value -> result value) (error : thrown) (shown : string) :
  extra options = ExtraResolver f ->
  f (ensureMapping payload) = Throw error ->
  thrown_nullish error = false ->
  js_String (error_text error) = Ok shown ->
  genericActionSummary label payload options =
    (summary <- genericActionSummary label payload (without_extra options) ;;
     Ok (summary ++ newline ++ "<i>extra error: " ++ html_escape shown ++ "</i>"))
  /\ (forall summary,
        genericActionSummary label payload (without_extra options) = Ok summary ->
        exists action subjectName rest,
          summary =
          formatMainLine label action subjectName (repo (ensureMapping payload))
                         (str_or (actor (ensureMapping payload)) UNKNOWN) ++ rest)
  /\ (has_char LF shown = false ->
      has_char LF ("<i>extra error: " ++ html_escape shown ++ "</i>") = false).
Proof.
  intros Hextra Hf Hnullish Hshown.
  split; [| split; [intros summary; apply genericActionSummary_headline |]].
  2: { intro Hline. rewrite !has_char_append, (html_escape_keeps_out LF shown Hline);
       reflexivity. }
  unfold genericActionSummary. cbv zeta.
  rewrite Hextra, (callableExtra_throwing _ _ _ _ Hf Hnullish Hshown).
  cbn [without_extra subject subjectFields urlFields extra callableExtra truthy negb].
  generalize (ensureMapping payload) as data. intro data.
  destruct (js_String (get data "action" ?? VStr "")) as [action_text | e];
    cbn [bind]; [| reflexivity].
  match goal with
  | |- bind ?c _ = _ => destruct c as [found | e]; cbn [bind]; [| reflexivity]
  end.
  match goal with
  | |- bind ?c _ = _ => destruct c as [details | e]; cbn [bind]; [| reflexivity]
  end.
  generalize (html_escape shown) as escaped. intro escaped.
  cbn [filter is_empty append negb].
  rewrite app_nil_r.
  rewrite app_assoc, join_snoc by discriminate.
  reflexivity.
Qed.

(** The amended C9 on a label event whose extra fails with an Error. *)
Lemma genericActionSummary_renders_the_extra_error_witness :
  genericActionSummary "Label" label_created (options_with failing_extra) =
  Ok ("<b>Label</b>: bug <b>created</b>" ++ newline
      ++ "<i>extra error: no &lt;label&gt; here</i>").
Proof.
  destruct (genericActionSummary_renders_the_extra_error
              "Label" label_created (options_with failing_extra)
              (fun _ => Throw (TypeError "no <label> here"))
              (TypeError "no <label> here") "no <label> here"
              eq_refl eq_refl eq_refl eq_refl) as [Hout _].
  exact Hout.
Defined.

(** C9, as stated, fails for an extra that throws an Error whose
    message has two lines: the message is rendered as it is, and what
    follows the main line is two lines, not one. *)
Lemma genericActionSummary_error_of_two_lines :
  genericActionSummary "Label" label_created (options_with two_line_extra) =
  Ok ("<b>Label</b>: bug <b>created</b>" ++ newline
      ++ "<i>extra error: first" ++ newline ++ "second</i>")
  /\ (forall summary,
        genericActionSummary "Label" label_created (options_with two_line_extra) = Ok summary ->
        split_char LF summary =
        ["<b>Label</b>: bug <b>created</b>"; "<i>extra error: first"; "second</i>"]).
Proof.
  split; [vm_compute; reflexivity |].
  intros summary H. vm_compute in H. injection H as <-. vm_compute. reflexivity.
Qed.

(** An extra that throws undefined: reading its message in the catch
    block throws, and the generic summary throws with it. *)
Lemma genericActionSummary_propagates_a_thrown_undefined :
  genericActionSummary "Label" label_created (options_with throwing_undefined) =
  Throw (TypeError "Cannot read properties of undefined (reading 'message')").
Proof. vm_compute. reflexivity. Qed.

(** ** The handlers behind the entry point *)

Lemma handler_slot_push : handler_slot "push" = SlotHandler (ignoring_event summarizePush).
Proof. reflexivity. Qed.

Lemma handler_slot_pull_request :
  handler_slot "pull_request" = SlotHandler (ignoring_event summarizePullRequest).
Proof. reflexivity. Qed.

Lemma ensureMapping_idempotent (v : value) : ensureMapping (ensureMapping v) = ensureMapping v.
Proof.
  destruct v; reflexivity.
Qed.

Lemma summarizePush_of_mapping (payload : value) :
  summarizePush (ensureMapping payload) = summarizePush payload.
Proof.
  unfold summarizePush. rewrite ensureMapping_idempotent. reflexivity.
Qed.

Lemma summarizePullRequest_of_mapping (payload : value) :
  summarizePullRequest (ensureMapping payload) = summarizePullRequest payload.
Proof.
  unfold summarizePullRequest. rewrite ensureMapping_idempotent. reflexivity.
Qed.

(** A push event is answered by [summarizePush], a pull request event by
    [summarizePullRequest], whenever they return. *)
Lemma summarizeGithubEvent_push (payload : value) (text : string) :
  summarizePush payload = Ok text ->
  summarizeGithubEvent "push" payload = Ok (VStr text).
Proof.
  intro H. unfold summarizeGithubEvent, summarizeGithubEvent_by.
  change (toLowerCase (str_or "push" "")) with "push".
  rewrite handler_slot_push.
  cbn [call_slot]. unfold ignoring_event.
  rewrite summarizePush_of_mapping, H. reflexivity.
Qed.

Lemma summarizeGithubEvent_pull_request (payload : value) (text : string) :
  summarizePullRequest payload = Ok text ->
  summarizeGithubEvent "pull_request" payload = Ok (VStr text).
Proof.
  intro H. unfold summarizeGithubEvent, summarizeGithubEvent_by.
  change (toLowerCase (str_or "pull_request" "")) with "pull_request".
  rewrite handler_slot_pull_request.
  cbn [call_slot]. unfold ignoring_event.
  rewrite summarizePullRequest_of_mapping, H. reflexivity.
Qed.

(** The push summary throws when, and only when, the pusher cannot be
    printed. *)
Lemma summarizePush_throws (payload : value) (e : thrown) :
  esc (push_actorName (ensureMapping payload)) = Throw e ->
  summarizePush payload = Throw e.
Proof.
  unfold summarizePush. cbv zeta.
  generalize (ensureMapping payload) as data. intros data H.
  rewrite H, !esc_string.
  destruct (truthy (get data "deleted")); reflexivity.
Qed.

(** A lower-cased key never names a method of Object.prototype: each of
    their names has a capital letter. *)
Lemma lowercase_key_is_no_method (event name : string) :
  handler_slot (toLowerCase event) <> SlotMethod name.
Proof.
  unfold handler_slot.
  destruct (own_handler HANDLERS (toLowerCase event)); [discriminate |].
  destruct (String.eqb (toLowerCase event) "constructor"); [discriminate |].
  destruct (String.eqb (toLowerCase event) "__proto__"); [discriminate |].
  destruct (existsb (String.eqb (toLowerCase event)) OBJECT_PROTOTYPE_METHODS) eqn:H;
    [| discriminate].
  exfalso.
  apply existsb_exists in H as [method [Hin Heq]].
  apply String.eqb_eq in Heq.
  assert (Hfixed : toLowerCase method = method)
    by (rewrite <- Heq; apply toLowerCase_idempotent).
  cbn [OBJECT_PROTOTYPE_METHODS In] in Hin.
  repeat (destruct Hin as [<- | Hin]; [discriminate Hfixed |]).
  exact Hin.
Qed.

(* ================================================================== *)
(** * Further properties of the engine *)
(* ================================================================== *)

(** ** Escaping *)

Lemma replace_all_append (c : ascii) (by_ a b : string) :
  replace_all c by_ (a ++ b) = replace_all c by_ a ++ replace_all c by_ b.
Proof.
  induction a as [| d a IH]; [reflexivity |].
  cbn [append replace_all]. rewrite IH.
  destruct (Ascii.eqb d c); [| reflexivity].
  now rewrite append_assoc.
Qed.

Lemma html_escape_append (a b : string) :
  html_escape (a ++ b) = html_escape a ++ html_escape b.
Proof. unfold html_escape. now rewrite !replace_all_append. Qed.

Lemma html_escape_char (c : ascii) : html_escape (String c EmptyString) = escape_char c.
Proof.
  destruct c as [[] [] [] [] [] [] [] []]; reflexivity.
Qed.

Lemma html_escape_cons (c : ascii) (s : string) :
  html_escape (String c s) = escape_char c ++ html_escape s.
Proof.
  change (String c s) with (String c EmptyString ++ s).
  now rewrite html_escape_append, html_escape_char.
Qed.

Lemma html_escape_is_escape_each (s : string) : html_escape s = escape_each s.
Proof.
  induction s as [| c s IH]; [reflexivity |].
  rewrite html_escape_cons, IH. reflexivity.
Qed.

(** X1: [esc] escapes each character on its own.  The four replacements
    run one after the other over the whole text, the ampersand first, and
    the result is the text in which every ampersand, angle bracket and
    double quote is replaced by its entity and every other character is
    kept: no entity is escaped a second time. *)
Theorem esc_escapes_each_character (s : string) :
  html_escape s = escape_each s
  /\ esc (VStr s) = Ok (escape_each s).
Proof.
  split; [apply html_escape_is_escape_each |].
  now rewrite esc_string, html_escape_is_escape_each.
Qed.

(** X2: whatever value [esc] is given, the text it returns holds no
    angle bracket and no double quote, so it can neither open nor close
    a tag nor end an attribute. *)
Theorem esc_returns_no_markup (v : value) (s : string) :
  esc v = Ok s ->
  has_char "<" s = false
  /\ has_char ">" s = false
  /\ has_char (ascii_of_nat 34) s = false.
Proof.
  unfold esc. intro H.
  destruct (bind_Ok_inv _ _ _ H) as [t [_ Ht]].
  injection Ht as <-. apply html_escape_has_no_markup.
Qed.

Lemma esc_returns_no_markup_witness :
  esc (VArr [VStr "<a href="; VNull; VNum (Int 3)]) = Ok "&lt;a href=,,3"
  /\ has_char "<" "&lt;a href=,,3" = false
  /\ has_char ">" "&lt;a href=,,3" = false
  /\ has_char (ascii_of_nat 34) "&lt;a href=,,3" = false.
Proof.
  split; [reflexivity |].
  apply (esc_returns_no_markup (VArr [VStr "<a href="; VNull; VNum (Int 3)])).
  reflexivity.
Defined.

Lemma escape_char_not_empty (c : ascii) : is_empty (escape_char c) = false.
Proof.
  unfold escape_char.
  repeat match goal with
         | |- context [Ascii.eqb ?x ?y] => destruct (Ascii.eqb x y)
         end; reflexivity.
Qed.

Lemma escape_each_injective (a : string) :
  forall b, escape_each a = escape_each b -> a = b.
Proof.
  induction a as [| c a IH]; intros [| d b] H.
  - reflexivity.
  - cbn [escape_each] in H.
    pose proof (escape_char_not_empty d) as Hd.
    destruct (escape_char d); [discriminate Hd | discriminate H].
  - cbn [escape_each] in H.
    pose proof (escape_char_not_empty c) as Hc.
    destruct (escape_char c); [discriminate Hc | discriminate H].
  - cbn [escape_each] in H. unfold escape_char in H.
    repeat match type of H with
           | context [Ascii.eqb ?x ?y] => destruct (Ascii.eqb_spec x y)
           end;
      subst; cbn [append] in H; try discriminate H;
      try (injection H as H; f_equal; apply IH; exact H);
      try (injection H; intros; congruence);
      try (injection H as Hc H; subst; f_equal; apply IH; exact H).
Qed.

(** X3: escaping loses nothing: two texts that [esc] renders alike are
    the same text. *)
Theorem html_escape_is_injective (a b : string) :
  html_escape a = html_escape b -> a = b.
Proof.
  rewrite !html_escape_is_escape_each. apply escape_each_injective.
Qed.

Lemma html_escape_is_injective_witness : "R&D <1>" = "R&D <1>".
Proof.
  apply (html_escape_is_injective "R&D <1>" "R&D <1>"). reflexivity.
Defined.

(** ** Links and first lines *)

(** X4: [link] makes an anchor only for a target that is a string and
    is not empty.  For any other target the answer is the empty text,
    and the label is not even looked at: a label that cannot be printed
    does no harm. *)
Theorem link_needs_a_target (url label : value) :
  nonempty_string url = false -> link url label = Ok "".
Proof.
  destruct url as [| | | | u | |]; try reflexivity.
  destruct u; [reflexivity | discriminate].
Qed.

Lemma link_needs_a_target_witness :
  link (VNum (Int 5)) unprintable = Ok ""
  /\ link (VStr "") unprintable = Ok "".
Proof.
  split.
  - apply (link_needs_a_target (VNum (Int 5)) unprintable). reflexivity.
  - apply (link_needs_a_target (VStr "") unprintable). reflexivity.
Defined.

(** X5: a link without a label, or with a label that is falsy, is
    labelled with its own target; target and label are both escaped. *)
Theorem link_is_labelled_with_its_target (u : string) (label : value) :
  is_empty u = false ->
  truthy label = false ->
  link (VStr u) label =
  Ok (text ["<a href="; dquote; html_escape u; dquote; ">"; html_escape u; "</a>"]).
Proof.
  intros Hu Hlabel. unfold link. rewrite Hu, Hlabel.
  cbn [bind]. rewrite !esc_string. reflexivity.
Qed.

Lemma link_is_labelled_with_its_target_witness :
  link (VStr "https://x.test/?a=1&b=2") VUndef =
  Ok ("<a href=" ++ dquote ++ "https://x.test/?a=1&amp;b=2" ++ dquote
      ++ ">https://x.test/?a=1&amp;b=2</a>").
Proof.
  apply (link_is_labelled_with_its_target "https://x.test/?a=1&b=2" VUndef);
    reflexivity.
Defined.

Lemma units_of_ascii (c : ascii) : is_ascii c = true -> units_of c = 1.
Proof. unfold is_ascii, units_of. now intros ->. Qed.

Lemma has_char_high_surrogate (x a b c d : ascii) :
  is_ascii x = true -> has_char x (high_surrogate a b c d) = false.
Proof.
  intro Hx. unfold high_surrogate. cbv zeta. cbn [has_char].
  assert (Hother : forall y, units_of y <> 1 -> Ascii.eqb y x = false).
  { intros y Hy. destruct (Ascii.eqb_spec y x) as [-> | _]; [| reflexivity].
    contradiction Hy. now apply units_of_ascii. }
  assert (Hfirst : Ascii.eqb (ascii_of_N 237) x = false).
  { destruct (Ascii.eqb_spec (ascii_of_N 237) x) as [<- | _]; [| reflexivity].
    vm_compute in Hx. discriminate Hx. }
  rewrite Hfirst, !Hother by (rewrite units_of_continuation; discriminate).
  reflexivity.
Qed.

Lemma has_char_slice0 (x : ascii) (s : string) :
  is_ascii x = true ->
  forall n, has_char x s = false -> has_char x (slice0 n s) = false.
Proof.
  intro Hx.
  induction s as [| a s IH]; intros n H; [reflexivity |].
  cbn [has_char] in H. apply orb_false_iff in H as [Ha Hs].
  cbn [slice0].
  destruct (units_of a) as [| [| u]].
  - cbn [has_char]. rewrite Ha. now apply IH.
  - destruct n as [| m]; [reflexivity |].
    cbn [has_char]. rewrite Ha. now apply IH.
  - destruct n as [| [| m]]; [reflexivity | |].
    + destruct s as [| b [| c [| d s']]]; try reflexivity.
      now apply has_char_high_surrogate.
    + cbn [has_char]. rewrite Ha. now apply IH.
Qed.

Lemma first_segment_has_no_line_feed (s : string) : has_char LF (first_segment s) = false.
Proof.
  induction s as [| c s IH]; [reflexivity |].
  cbn [first_segment].
  destruct (Ascii.eqb c LF) eqn:Hc; [reflexivity |].
  destruct (Ascii.eqb c CR && startsWith s newline); [reflexivity |].
  cbn [has_char]. now rewrite Hc, IH.
Qed.

Lemma first_segment_is_a_prefix (s : string) : exists rest, s = first_segment s ++ rest.
Proof.
  induction s as [| c s [rest IH]]; [now exists "" |].
  cbn [first_segment].
  destruct (Ascii.eqb c LF); [now exists (String c s) |].
  destruct (Ascii.eqb c CR && startsWith s newline); [now exists (String c s) |].
  exists rest. cbn [append]. now rewrite <- IH.
Qed.

Lemma one_unit_each_first_segment (s : string) :
  one_unit_each s = true -> one_unit_each (first_segment s) = true.
Proof.
  unfold one_unit_each.
  induction s as [| c s IH]; [reflexivity |].
  cbn [has_only first_segment]. intro H. apply andb_true_iff in H as [Hc Hs].
  destruct (Ascii.eqb c LF); [reflexivity |].
  destruct (Ascii.eqb c CR && startsWith s newline); [reflexivity |].
  cbn [has_only]. now rewrite Hc, IH.
Qed.

Lemma slice0_is_a_prefix (s : string) :
  one_unit_each s = true -> forall n, exists rest, s = slice0 n s ++ rest.
Proof.
  unfold one_unit_each.
  induction s as [| a s IH]; intros H n; [now exists "" |].
  cbn [has_only] in H. apply andb_true_iff in H as [Ha Hs].
  apply Nat.ltb_lt in Ha.
  cbn [slice0].
  destruct (units_of a) as [| [| u]]; [| | lia].
  - destruct (IH Hs n) as [rest Hrest]. exists rest. cbn [append]. now rewrite <- Hrest.
  - destruct n as [| m]; [now exists (String a s) |].
    destruct (IH Hs m) as [rest Hrest]. exists rest. cbn [append]. now rewrite <- Hrest.
Qed.

(** X6: [firstLine] gives one short line: never more than [limit]
    characters, counted as the code counts them, in UTF-16 code units,
    and never a line feed; for a value that is not a string it gives
    the empty text.  It is a beginning of the text whenever no character
    of the text lies past U+FFFF; a cut inside such a character, a pair
    of code units, keeps the first of the two. *)
Theorem firstLine_is_one_short_line (v : value) (limit : nat) :
  Js.length (firstLine v limit) <= limit
  /\ has_char LF (firstLine v limit) = false
  /\ (forall s, v = VStr s -> one_unit_each s = true ->
                exists rest, s = firstLine v limit ++ rest)
  /\ (is_string v = false -> firstLine v limit = "").
Proof.
  split; [| split; [| split]].
  - destruct v as [| | | | s | |]; cbn [firstLine Js.length]; try lia.
    destruct (is_empty s); cbn [Js.length]; [lia |].
    apply length_slice0.
  - destruct v as [| | | | s | |]; try reflexivity.
    cbn [firstLine]. destruct (is_empty s); [reflexivity |].
    apply has_char_slice0; [reflexivity | apply first_segment_has_no_line_feed].
  - intros s -> Hs. cbn [firstLine].
    destruct s as [| c s]; [now exists "" |].
    cbn [is_empty].
    destruct (first_segment_is_a_prefix (String c s)) as [rest Hrest].
    destruct (slice0_is_a_prefix (first_segment (String c s))
                (one_unit_each_first_segment _ Hs) limit) as [rest' Hrest'].
    exists (rest' ++ rest).
    rewrite <- append_assoc, <- Hrest'. exact Hrest.
  - destruct v; try reflexivity. discriminate.
Qed.

(** ** Labels *)

Lemma has_char_skip_spaces (c : ascii) (s : string) :
  forall inside, has_char c s = false -> has_char c (skip_spaces inside s) = false.
Proof.
  induction s as [| d s IH]; intros inside H; [reflexivity |].
  pose proof H as Hs. cbn [has_char] in Hs. apply orb_false_iff in Hs as [_ Hs].
  cbn [skip_spaces].
  destruct inside as [| more]; [| now apply IH].
  destruct (space_width (String d s)); [exact H | now apply IH].
Qed.

Lemma has_char_trimEnd (c : ascii) (s : string) :
  has_char c s = false -> has_char c (trimEnd s) = false.
Proof.
  induction s as [| d s IH]; [reflexivity |].
  intro H. cbn [has_char] in H. apply orb_false_iff in H as [Hd H].
  cbn [trimEnd]. destruct (blank (String d s)); [reflexivity |].
  cbn [has_char]. rewrite Hd. now apply IH.
Qed.

Lemma has_char_trim (c : ascii) (s : string) :
  has_char c s = false -> has_char c (trim s) = false.
Proof. intro H. now apply has_char_trimEnd, has_char_skip_spaces. Qed.

Lemma has_char_split_spaces (c : ascii) (s : string) :
  forall in_separator inside,
    has_char c s = false ->
    Forall (fun segment => has_char c segment = false)
           (split_spaces_from in_separator inside s).
Proof.
  induction s as [| d s IH]; intros in_separator inside H.
  - repeat constructor.
  - cbn [has_char] in H. apply orb_false_iff in H as [Hd H].
    cbn [split_spaces_from].
    destruct inside as [| more]; [| now apply IH].
    destruct (space_width (String d s)) as [| more].
    + specialize (IH false 0 H).
      destruct (split_spaces_from false 0 s) as [| segment segments].
      * repeat constructor. cbn [has_char]. now rewrite Hd.
      * inversion IH as [| ? ? Hsegment Hsegments]; subst.
        constructor; [| exact Hsegments].
        cbn [has_char]. now rewrite Hd.
    + destruct in_separator; [now apply IH |].
      constructor; [reflexivity | now apply IH].
Qed.

Lemma split_spaces_not_nil (s : string) :
  forall in_separator inside, split_spaces_from in_separator inside s <> [].
Proof.
  induction s as [| d s IH]; intros in_separator inside; [discriminate |].
  cbn [split_spaces_from].
  destruct inside as [| more]; [| apply IH].
  destruct (space_width (String d s)) as [| more].
  - destruct (split_spaces_from false 0 s); discriminate.
  - destruct in_separator; [apply IH | discriminate].
Qed.

(** The words of a text that is not empty: a first word that is not
    empty, or more than one word. *)
Lemma split_spaces_first (d : ascii) (s : string) :
  exists segment segments,
    split_spaces (String d s) = segment :: segments
    /\ (is_empty segment = false \/ segments <> []).
Proof.
  unfold split_spaces. cbn [split_spaces_from].
  destruct (space_width (String d s)) as [| more].
  - destruct (split_spaces_from false 0 s) as [| segment segments];
      eexists; eexists; (split; [reflexivity | now left]).
  - eexists. eexists. split; [reflexivity |]. right. apply split_spaces_not_nil.
Qed.

Lemma upper_char_is_no_underscore (c : ascii) :
  Ascii.eqb (upper_char c) "_" = Ascii.eqb c "_".
Proof. destruct c as [[] [] [] [] [] [] [] []]; reflexivity. Qed.

Lemma has_char_capitalize (word : string) :
  has_char "_" word = false -> has_char "_" (capitalize word) = false.
Proof.
  destruct word as [| c word]; [reflexivity |].
  cbn [has_char]. intro H. apply orb_false_iff in H as [Hc H].
  unfold capitalize. cbn [charAt0 toUpperCase map_chars slice1 append has_char].
  now rewrite upper_char_is_no_underscore, Hc, H.
Qed.

Lemma has_char_join_spaces (c : ascii) (l : list string) :
  Ascii.eqb " " c = false ->
  Forall (fun segment => has_char c segment = false) l ->
  has_char c (join " " l) = false.
Proof.
  intros Hc H. unfold join.
  induction H as [| x l Hx Hl IH]; [reflexivity |].
  cbn [String.concat]. destruct l as [| y l]; [exact Hx |].
  rewrite !has_char_append, Hx, IH. cbn [has_char]. now rewrite Hc.
Qed.

(** X7: [prettyLabel] always gives a label: it is never empty, it holds
    no underscore, and a name made of underscores and white space only
    gets the label [Event]. *)
Theorem prettyLabel_is_a_label (event : string) :
  is_empty (prettyLabel event) = false
  /\ has_char "_" (prettyLabel event) = false
  /\ (is_empty (trim (replace_all "_" " " event)) = true -> prettyLabel event = "Event").
Proof.
  unfold prettyLabel.
  assert (Hclean : has_char "_" (trim (replace_all "_" " " event)) = false)
    by (apply has_char_trim, replace_all_removes; reflexivity).
  destruct (trim (replace_all "_" " " event)) as [| c words] eqn:Hwords.
  - repeat split; reflexivity.
  - cbn [is_empty]. split; [| split; [| discriminate]].
    + destruct (split_spaces_first c words) as [segment [segments [-> Hfirst]]].
      cbn [map]. unfold join. cbn [String.concat].
      destruct Hfirst as [Hsegment | Hsegments].
      * destruct segment as [| e segment]; [discriminate Hsegment |].
        destruct (map capitalize segments); reflexivity.
      * destruct segments as [| word segments]; [now contradiction Hsegments |].
        cbn [map]. destruct (capitalize segment); reflexivity.
    + apply has_char_join_spaces; [reflexivity |].
      apply Forall_map.
      eapply Forall_impl; [| apply has_char_split_spaces; exact Hclean].
      intros word. apply has_char_capitalize.
Qed.

Lemma formatMainLine_placeholder
      (label action subjectName repoName actorName : string) :
  formatMainLine label action subjectName repoName (str_or actorName UNKNOWN)
  = formatMainLine label action subjectName repoName actorName.
Proof.
  unfold formatMainLine, str_or.
  destruct actorName as [| c actorName]; reflexivity.
Qed.

(** X8: the main line of a generic summary credits nobody when the
    actor is missing, and nobody either when the actor is called
    [unknown]: the placeholder and the empty name give the same line. *)
Theorem formatMainLine_credits_no_unknown_actor
        (label action subjectName repoName actorName : string) :
  formatMainLine label action subjectName repoName (str_or actorName UNKNOWN)
  = formatMainLine label action subjectName repoName actorName
  /\ formatMainLine label action subjectName repoName UNKNOWN
     = formatMainLine label action subjectName repoName "".
Proof.
  split; [apply formatMainLine_placeholder | reflexivity].
Qed.

(** ** Payload navigation *)

Lemma dig_nullish (data : value) (path : list string) :
  nullish data = true -> nullish (dig data path) = true.
Proof.
  intro H. destruct path as [| key rest]; [exact H |].
  destruct data; try discriminate H; reflexivity.
Qed.

(** X9: [dig] composes.  Reading a path and then another from what was
    found is reading the two paths joined, as long as the first reading
    finds something; when it finds nothing, null or undefined, the joined
    path finds nothing either. *)
Theorem dig_composes (data : value) (front back : list string) :
  if nullish (dig data front)
  then nullish (dig data (front ++ back)) = true
  else dig data (front ++ back) = dig (dig data front) back.
Proof.
  revert data.
  induction front as [| key front IH]; intro data.
  - cbn [dig app]. destruct (nullish data) eqn:H; [| reflexivity].
    now apply dig_nullish.
  - cbn [dig app].
    destruct (negb (truthy data) || negb (typeof_object data)); [reflexivity |].
    destruct (nullish (get data key)) eqn:Hkey.
    + rewrite Hkey. reflexivity.
    + apply IH.
Qed.

Lemma first_string_finds (data : value) (paths : list (list string)) :
  (first_string data paths = ""
   /\ Forall (fun path => nonempty_string (dig data path) = false) paths)
  \/ (exists front path rest,
        paths = (front ++ path :: rest)%list
        /\ Forall (fun path => nonempty_string (dig data path) = false) front
        /\ dig data path = VStr (first_string data paths)
        /\ is_empty (first_string data paths) = false).
Proof.
  induction paths as [| path paths IH].
  - left. split; [reflexivity | constructor].
  - cbn [first_string].
    assert (Hskip : nonempty_string (dig data path) = false ->
                    (first_string data paths = ""
                     /\ Forall (fun path => nonempty_string (dig data path) = false)
                               (path :: paths))
                    \/ (exists front path' rest,
                          (path :: paths = front ++ path' :: rest)%list
                          /\ Forall (fun path => nonempty_string (dig data path) = false) front
                          /\ dig data path' = VStr (first_string data paths)
                          /\ is_empty (first_string data paths) = false)).
    { intro Hpath. destruct IH as [[Hnone Hall] | [front [path' [rest [-> [Hfront Hfound]]]]]].
      - left. split; [exact Hnone | now constructor].
      - right. exists (path :: front), path', rest.
        split; [reflexivity |]. split; [now constructor | exact Hfound]. }
    destruct (dig data path) as [| | | | s | |] eqn:Hdig;
      try (apply Hskip; reflexivity).
    destruct s as [| c s]; [apply Hskip; reflexivity |].
    cbn [is_empty]. right. exists [], path, paths.
    repeat split; [constructor | exact Hdig].
Qed.

(** X10: the actor and the repository of a payload are looked for under
    a list of paths, in order.  The name that is returned is the first
    non-empty string found under them, and it is empty only when none of
    the paths holds a non-empty string: a number, a boolean or an object
    under a path is passed over, never printed. *)
Theorem actor_and_repo_are_the_first_string_found (payload : value) :
  let found (name : string) (paths : list (list string)) :=
    (name = ""
     /\ Forall (fun path => nonempty_string (dig payload path) = false) paths)
    \/ (exists front path rest,
          paths = (front ++ path :: rest)%list
          /\ Forall (fun path => nonempty_string (dig payload path) = false) front
          /\ dig payload path = VStr name
          /\ is_empty name = false) in
  found (actor payload)
        [ ["sender"; "login"]; ["sender"; "name"]; ["user"; "login"]; ["user"; "name"];
          ["actor"; "login"]; ["actor"; "name"]; ["pusher"; "name"]; ["pusher"; "email"];
          ["installation"; "account"; "login"]; ["installation"; "account"; "name"] ]
  /\ found (repo payload) [ ["repository"; "full_name"]; ["repository"; "name"] ].
Proof.
  cbv zeta. split; apply first_string_finds.
Qed.

Lemma first_truthy_finds (payload : value) (paths : list (list string)) :
  first_truthy payload paths = VNull
  \/ (truthy (first_truthy payload paths) = true
      /\ exists path, In path paths /\ dig payload path = first_truthy payload paths).
Proof.
  induction paths as [| path paths IH]; [now left |].
  cbn [first_truthy].
  destruct (truthy (dig payload path)) eqn:Hpath.
  - right. split; [exact Hpath |]. exists path. split; [now left | reflexivity].
  - destruct IH as [IH | [Htruthy [path' [Hin Hdig]]]]; [now left |].
    right. split; [exact Htruthy |]. exists path'. split; [now right | exact Hdig].
Qed.

(** X11: [resolveSubject] answers null or a truthy value read under one
    of the paths of its specification: never undefined, and never an
    empty string, a zero or false that a path may hold. *)
Theorem resolveSubject_is_null_or_truthy (payload : value) (spec : SubjectSpec) :
  resolveSubject payload spec = VNull
  \/ (truthy (resolveSubject payload spec) = true
      /\ exists path,
           In path (spec_paths spec)
           /\ dig payload path = resolveSubject payload spec).
Proof.
  destruct spec as [| field | items]; [now left | |];
    apply first_truthy_finds.
Qed.

(** ** The generic summary *)

(** X12: with no subject and no extra, the generic summary is the main
    line alone: the label, the action without the white space around
    it, the repository and the actor.  It fails only when the action
    cannot be printed, and a payload with no actor is credited to
    nobody. *)
Theorem genericActionSummary_without_options (label : string) (payload : value) :
  let data := ensureMapping payload in
  genericActionSummary label payload no_options =
    (action <- js_String (get data "action" ?? VStr "") ;;
     Ok (formatMainLine label (trim action) "" (repo data) (actor data)))
  /\ (forall action,
        get data "action" = VStr action ->
        genericActionSummary label payload no_options =
        Ok (formatMainLine label (trim action) "" (repo data) (actor data))).
Proof.
  cbv zeta.
  assert (H : genericActionSummary label payload no_options =
              (action <- js_String (get (ensureMapping payload) "action" ?? VStr "") ;;
               Ok (formatMainLine label (trim action) ""
                                  (repo (ensureMapping payload))
                                  (actor (ensureMapping payload))))).
  { unfold genericActionSummary. cbv zeta.
    generalize (ensureMapping payload) as data. intro data.
    destruct (js_String (get data "action" ?? VStr "")) as [action | e];
      cbn [bind]; [| reflexivity].
    cbn [no_options subject subjectFields urlFields extra resolveSubject nullish
         bind name url is_empty callableExtra truthy negb filter app].
    rewrite formatMainLine_placeholder.
    unfold join. cbn [String.concat]. reflexivity. }
  split; [exact H |].
  intros action Haction. rewrite H, Haction. reflexivity.
Qed.

(** X13: an extra that is a non-empty string is added to the generic
    summary as one more line, as it stands: the summary is what it is
    without the extra, a line feed, and the string, which is not
    escaped. *)
Theorem genericActionSummary_appends_a_string_extra
        (label : string) (payload : value) (options : Options) (line : string) :
  extra options = ExtraValue (VStr line) ->
  is_empty line = false ->
  genericActionSummary label payload options =
    (summary <- genericActionSummary label payload (without_extra options) ;;
     Ok (summary ++ newline ++ line)).
Proof.
  intros Hextra Hline.
  unfold genericActionSummary. cbv zeta.
  rewrite Hextra.
  cbn [without_extra subject subjectFields urlFields extra callableExtra truthy negb
       extra_lines].
  rewrite Hline.
  generalize (ensureMapping payload) as data. intro data.
  destruct (js_String (get data "action" ?? VStr "")) as [action_text | e];
    cbn [bind]; [| reflexivity].
  match goal with
  | |- bind ?c _ = _ => destruct c as [found | e]; cbn [bind]; [| reflexivity]
  end.
  match goal with
  | |- bind ?c _ = _ => destruct c as [details | e]; cbn [bind]; [| reflexivity]
  end.
  cbn [negb bind filter]. rewrite Hline. cbn [negb].
  rewrite app_nil_r.
  rewrite app_assoc, join_snoc by discriminate.
  reflexivity.
Qed.

Lemma genericActionSummary_appends_a_string_extra_witness :
  genericActionSummary "Label" label_created (options_with (ExtraValue (VStr "<i>x</i>"))) =
  Ok ("<b>Label</b>: bug <b>created</b>" ++ newline ++ "<i>x</i>").
Proof.
  apply (genericActionSummary_appends_a_string_extra
           "Label" label_created (options_with (ExtraValue (VStr "<i>x</i>"))) "<i>x</i>");
    reflexivity.
Defined.

(** ** The entry point *)

Lemma fallback_value (key : string) (payload : value) :
  (text <- fallbackSummary key payload ;; Ok (VStr text))
  = Ok (VStr (fallback_line key payload)).
Proof.
  rewrite fallbackSummary_value. unfold fallback_line, text.
  generalize (html_escape (prettyLabel (str_or key "event"))) as label.
  generalize (html_escape (str_or (actor payload) UNKNOWN)) as actorName.
  generalize (html_escape (repo payload)) as repoName.
  intros repoName actorName label.
  destruct (is_empty (repo payload)); cbn [bind String.concat append]; reflexivity.
Qed.

Lemma handler_slot_own (key : string) (h : Handler) :
  own_handler HANDLERS key = Some h -> handler_slot key = SlotHandler h.
Proof. intro H. unfold handler_slot. now rewrite H. Qed.

Lemma handler_slot_none (key : string) :
  own_handler HANDLERS (toLowerCase key) = None ->
  toLowerCase key <> "constructor" ->
  handler_slot (toLowerCase key) = SlotUndefined
  \/ handler_slot (toLowerCase key) = SlotObjectPrototype.
Proof.
  intros Hown Hkey.
  pose proof (lowercase_key_is_no_method key) as Hmethod.
  unfold handler_slot in *. rewrite Hown in *.
  destruct (String.eqb_spec (toLowerCase key) "constructor"); [contradiction |].
  destruct (String.eqb (toLowerCase key) "__proto__"); [now right |].
  destruct (existsb _ _); [| now left].
  exfalso. now apply (Hmethod (toLowerCase key)).
Qed.

Lemma handler_answer (event : string) (payload : value) (h : Handler) :
  own_handler HANDLERS (toLowerCase event) = Some h ->
  summarizeGithubEvent event payload =
  match h (ensureMapping payload) (toLowerCase event) with
  | Ok text => Ok (VStr text)
  | Throw _ => Ok (VStr (fallback_line (toLowerCase event) (ensureMapping payload)))
  end.
Proof.
  intro Hown. unfold summarizeGithubEvent, summarizeGithubEvent_by. rewrite str_or_empty.
  rewrite (handler_slot_own _ _ Hown), fallback_value.
  cbn [call_slot].
  destruct (h (ensureMapping payload) (toLowerCase event)); reflexivity.
Qed.

(** X14: the entry point never throws, whatever the event type and the
    payload.  Its answer is a text that is not empty, but for the event
    type [constructor], in any letter case, for which it is the payload
    made into an object. *)
Theorem summarizeGithubEvent_always_answers (event : string) (payload : value) :
  exists answer,
    summarizeGithubEvent event payload = Ok answer
    /\ ((toLowerCase event = "constructor" /\ answer = ensureMapping payload)
        \/ (exists text, answer = VStr text /\ is_empty text = false)).
Proof.
  destruct (String.eqb_spec (toLowerCase event) "constructor") as [Hkey | Hkey].
  - exists (ensureMapping payload). split; [| now left].
    unfold summarizeGithubEvent, summarizeGithubEvent_by. rewrite str_or_empty, Hkey. reflexivity.
  - destruct (summarizeGithubEvent_returns_text event payload Hkey) as [text [H Htext]].
    exists (VStr text). split; [exact H |]. right. now exists text.
Qed.

(** X15: an event type that has a handler gets the answer of its
    handler, unchanged, whenever the handler returns one. *)
Theorem summarizeGithubEvent_returns_the_answer_of_the_handler
        (event : string) (payload : value) (h : Handler) (text : string) :
  own_handler HANDLERS (toLowerCase event) = Some h ->
  h (ensureMapping payload) (toLowerCase event) = Ok text ->
  summarizeGithubEvent event payload = Ok (VStr text).
Proof.
  intros Hown Htext. now rewrite (handler_answer _ _ _ Hown), Htext.
Qed.

Lemma summarizeGithubEvent_returns_the_answer_of_the_handler_witness :
  summarizeGithubEvent "CREATE" (VObj [("ref", VStr "v1"); ("ref_type", VStr "tag")])
  = Ok (VStr "<b>Create</b> tag <code>v1</code> by <b>unknown</b>").
Proof.
  apply (summarizeGithubEvent_returns_the_answer_of_the_handler
           "CREATE" (VObj [("ref", VStr "v1"); ("ref_type", VStr "tag")])
           (ignoring_event summarizeCreate));
    reflexivity.
Defined.

(** X16: a handler that throws is replaced by the fallback line: the
    answer is the line that an unregistered event of that name gets. *)
Theorem summarizeGithubEvent_falls_back_when_the_handler_throws
        (event : string) (payload : value) (h : Handler) (error : thrown) :
  own_handler HANDLERS (toLowerCase event) = Some h ->
  h (ensureMapping payload) (toLowerCase event) = Throw error ->
  summarizeGithubEvent event payload =
  Ok (VStr (fallback_line (toLowerCase event) (ensureMapping payload))).
Proof.
  intros Hown Hthrow. now rewrite (handler_answer _ _ _ Hown), Hthrow.
Qed.

Lemma summarizeGithubEvent_falls_back_when_the_handler_throws_witness :
  summarizeGithubEvent "issues" (VObj [("action", unprintable)])
  = Ok (VStr "<b>Issues</b> event by <b>unknown</b>").
Proof.
  apply (summarizeGithubEvent_falls_back_when_the_handler_throws
           "issues" (VObj [("action", unprintable)])
           (ignoring_event summarizeIssues)
           (TypeError "Cannot convert object to primitive value"));
    reflexivity.
Defined.

(** X17: an event type written in ASCII characters and with no handler
    gets the fallback line: the label made from its name, the
    repository when the payload names one, and the actor or the word
    [unknown]. *)
Theorem summarizeGithubEvent_falls_back_without_a_handler
        (event : string) (payload : value) :
  ascii_text event = true ->
  own_handler HANDLERS (toLowerCase event) = None ->
  toLowerCase event <> "constructor" ->
  summarizeGithubEvent event payload =
  Ok (VStr (fallback_line (toLowerCase event) (ensureMapping payload))).
Proof.
  intros _ Hown Hkey. unfold summarizeGithubEvent, summarizeGithubEvent_by. rewrite str_or_empty, fallback_value.
  destruct (handler_slot_none _ Hown Hkey) as [-> | ->]; reflexivity.
Qed.

Lemma summarizeGithubEvent_falls_back_without_a_handler_witness :
  summarizeGithubEvent "Pull_Request_Target"
    (VObj [("sender", VObj [("login", VStr "octo<cat>")])])
  = Ok (VStr "<b>Pull Request Target</b> event by <b>octo&lt;cat&gt;</b>").
Proof.
  apply (summarizeGithubEvent_falls_back_without_a_handler
           "Pull_Request_Target" (VObj [("sender", VObj [("login", VStr "octo<cat>")])])).
  - reflexivity.
  - reflexivity.
  - discriminate.
Defined.

(** X18: the entry point sees a payload only as an object.  The answer
    for a payload is the answer for the payload made into an object,
    and every payload that is not an object (an array, a string, a
    number, null) is answered as the empty object is. *)
Theorem summarizeGithubEvent_reads_the_payload_as_an_object
        (event : string) (payload : value) :
  summarizeGithubEvent event payload = summarizeGithubEvent event (ensureMapping payload)
  /\ (ensureMapping payload = payload
      \/ summarizeGithubEvent event payload = summarizeGithubEvent event (VObj [])).
Proof.
  split.
  - unfold summarizeGithubEvent, summarizeGithubEvent_by. now rewrite ensureMapping_idempotent.
  - destruct payload; try (right; reflexivity). now left.
Qed.

(** ** Handlers that fail *)

Lemma handler_slot_commit_comment :
  own_handler HANDLERS "commit_comment" = Some (ignoring_event summarizeCommitComment).
Proof. reflexivity. Qed.

Lemma summarizeCommitComment_of_mapping (payload : value) :
  summarizeCommitComment (ensureMapping payload) = summarizeCommitComment payload.
Proof. unfold summarizeCommitComment. now rewrite ensureMapping_idempotent. Qed.

(** X19: the commit comment handler cuts the commit id with a string
    method.  When the payload carries an id that is truthy and is
    neither a string nor an array (a number, say), the handler throws a
    TypeError, and the entry point answers with the fallback line of
    the event. *)
Theorem summarizeCommitComment_fails_on_an_id_that_is_no_string
        (payload : value) (commitId : value) :
  get (ensureMapping (get (ensureMapping payload) "comment")) "commit_id" = commitId ->
  truthy commitId = true ->
  is_string commitId = false ->
  isArray commitId = false ->
  (exists error, summarizeCommitComment payload = Throw error)
  /\ summarizeGithubEvent "commit_comment" payload =
     Ok (VStr (fallback_line "commit_comment" (ensureMapping payload))).
Proof.
  intros Hid Htruthy Hstring Harray.
  assert (Hthrow : summarizeCommitComment payload
                   = Throw (TypeError "slice is not a function")).
  { unfold summarizeCommitComment. cbv zeta. rewrite Hid.
    assert (Hkept : commitId ?? VStr "" = commitId)
      by (destruct commitId; try discriminate Htruthy; reflexivity).
    rewrite Hkept, Htruthy.
    assert (Hslice : call_slice0 7 commitId = Throw (TypeError "slice is not a function"))
      by (destruct commitId; try discriminate; reflexivity).
    rewrite Hslice.
    generalize (ensureMapping payload) as data. intro data.
    rewrite !esc_string.
    generalize (html_escape (str_or (repo data) "?")) as repoName.
    generalize (html_escape (str_or (actor data) UNKNOWN)) as actorName.
    intros actorName repoName.
    unfold lines, when_, tmpl, lit. cbn [app sequence bind]. reflexivity. }
  split; [eexists; exact Hthrow |].
  rewrite (handler_answer "commit_comment" payload _ handler_slot_commit_comment).
  unfold ignoring_event.
  change (toLowerCase "commit_comment") with "commit_comment".
  now rewrite summarizeCommitComment_of_mapping, Hthrow.
Qed.

Lemma summarizeCommitComment_fails_on_an_id_that_is_no_string_witness :
  (exists error, summarizeCommitComment numbered_commit_comment = Throw error)
  /\ summarizeGithubEvent "commit_comment" numbered_commit_comment =
     Ok (VStr "<b>Commit Comment</b> event for <code>a/b</code> by <b>unknown</b>").
Proof.
  apply (summarizeCommitComment_fails_on_an_id_that_is_no_string
           numbered_commit_comment (VNum (Int 1234567)));
    reflexivity.
Defined.

(** ** The total of a marketplace purchase *)






(** ** The routes *)

(** X21: the events route sorts a copy of the event names before it
    answers.  The names are the keys of the table, which is written in
    ascending order, so the sort changes nothing: the route lists the
    75 event types in the order of the table. *)
Theorem events_route_lists_the_event_names :
  Routes.events = EVENT_NAMES /\ List.length Routes.events = 75.
Proof. split; vm_compute; reflexivity. Qed.

Lemma prefix_append (pattern s : string) : prefix pattern (pattern ++ s) = true.
Proof.
  induction pattern as [| c pattern IH]; [now destruct s |].
  cbn [append prefix].
  destruct (ascii_dec c c) as [_ | Hc]; [exact IH | now contradiction Hc].
Qed.

Lemma drop_append (pattern s : string) : drop (String.length pattern) (pattern ++ s) = s.
Proof. induction pattern as [| c pattern IH]; [reflexivity | exact IH]. Qed.

Lemma remove_first_unfold (pattern s : string) :
  remove_first pattern s =
  if prefix pattern s then drop (String.length pattern) s
  else match s with
       | EmptyString => EmptyString
       | String c rest => String c (remove_first pattern rest)
       end.
Proof. destruct s; reflexivity. Qed.

Lemma remove_first_prefix (pattern s : string) :
  remove_first pattern (pattern ++ s) = s.
Proof.
  rewrite remove_first_unfold, prefix_append. apply drop_append.
Qed.

(** X22: the signature check accepts a header exactly when the header
    is not empty and, with its first [sha256=] taken out, is the digest
    of the body under the secret.  In particular the header made of the
    prefix and the digest is accepted, and a request with no signature
    header is refused without any digest being compared. *)
Theorem verifyGithubSignature_accepts_the_digest
        (world : Routes.Services) (secret body : string) (header : option string) :
  (Routes.verifyGithubSignature world secret body header = Ok true
   <-> exists h, header = Some h
                 /\ is_empty h = false
                 /\ remove_first "sha256=" h = Routes.hmac_sha256_hex world secret body)
  /\ Routes.verifyGithubSignature world secret body
       (Some ("sha256=" ++ Routes.hmac_sha256_hex world secret body)) = Ok true
  /\ Routes.verifyGithubSignature world secret body None = Ok false.
Proof.
  split; [| split; [| reflexivity]].
  - unfold Routes.verifyGithubSignature, Routes.timingSafeEqual. split.
    + destruct header as [h |]; [| discriminate].
      destruct (is_empty h) eqn:Hh; [discriminate |].
      destruct (_ =? _)%nat; [| discriminate].
      intros [= Heq]. exists h. repeat split; [exact Hh |].
      symmetry. now apply String.eqb_eq.
    + intros [h [-> [Hh Heq]]]. rewrite Hh, Heq, Nat.eqb_refl, String.eqb_refl.
      reflexivity.
  - unfold Routes.verifyGithubSignature, Routes.timingSafeEqual.
    change (is_empty ("sha256=" ++ Routes.hmac_sha256_hex world secret body)) with false.
    cbv iota.
    rewrite (remove_first_prefix "sha256="), Nat.eqb_refl, String.eqb_refl.
    reflexivity.
Qed.

(** X23: the digests are compared as buffers, which must have the same
    length.  A signature header that is not empty and whose signature
    has another length than the digest is not refused: the comparison
    throws, the handler of the webhook route rejects, and neither an
    answer nor a log entry is written by it. *)
Theorem webhook_rejects_on_a_signature_of_another_length
        (world : Routes.Services) (req : Routes.Request)
        (bodyBuffer : string) (subscription : Routes.Subscription) (header : string) :
  Routes.rawBody req = Some bodyBuffer ->
  Routes.getSubscriptionByHook world (Routes.hookId req) = Some subscription ->
  Routes.x_hub_signature_256 req = Some header ->
  is_empty header = false ->
  String.length (remove_first "sha256=" header)
  <> String.length (Routes.hmac_sha256_hex world (Routes.secret subscription) bodyBuffer) ->
  exists error,
    Routes.verifyGithubSignature world (Routes.secret subscription) bodyBuffer (Some header)
    = Throw error
    /\ Routes.webhook world req = Throw error.
Proof.
  intros Hbody Hsubscription Hheader Hempty Hlength.
  unfold Routes.webhook. rewrite Hbody, Hsubscription, Hheader.
  unfold Routes.verifyGithubSignature, Routes.timingSafeEqual. rewrite Hempty.
  destruct (Nat.eqb_spec
              (String.length (Routes.hmac_sha256_hex world (Routes.secret subscription)
                                                     bodyBuffer))
              (String.length (remove_first "sha256=" header))) as [Heq | _].
  - contradiction Hlength. now symmetry.
  - eexists. split; reflexivity.
Qed.

Lemma webhook_rejects_on_a_signature_of_another_length_witness :
  exists error, 
    Routes.verifyGithubSignature sample_world "s3cret" "{}" (Some "sha256=00") = Throw error
    /\ Routes.webhook sample_world short_signature = Throw error.
Proof.
  apply (webhook_rejects_on_a_signature_of_another_length
           sample_world short_signature "{}"
           {| Routes.secret := "s3cret"; Routes.eventsCsv := "push, issues";
              Routes.botId := 1; Routes.destinationId := 2 |}
           "sha256=00");
    try reflexivity.
  cbn. lia.
Defined.

Lemma createLog_entry (world : Routes.Services) (eventType status : string)
      (summary : value) (entry : Routes.Effect) :
  Routes.createLog world eventType status summary = Ok entry ->
  entry = Routes.logged eventType status summary.
Proof.
  unfold Routes.createLog.
  destruct summary; try discriminate.
  destruct (Routes.insertLog world eventType status s); cbn [bind]; [| discriminate].
  now intros [= <-].
Qed.

Lemma createLog_text (world : Routes.Services) (eventType status text : string) :
  (forall eventType status text, Routes.insertLog world eventType status text = Ok tt) ->
  Routes.createLog world eventType status (VStr text)
  = Ok (Routes.logged eventType status (VStr text)).
Proof. intro Hinsert. unfold Routes.createLog. now rewrite Hinsert. Qed.

(** An answer whose only effect is an entry of the log. *)
Ltac log_only :=
  match goal with
  | |- bind (Routes.createLog ?w ?t ?s ?v) _ = _ -> _ =>
      let entry := fresh "entry" in
      let Hlog := fresh "Hlog" in
      let H := fresh "H" in
      destruct (Routes.createLog w t s v) as [entry | ?] eqn:Hlog; cbn [bind];
      [ intros [= <- <-] [H | []];
        rewrite (createLog_entry _ _ _ _ _ Hlog) in H; discriminate H
      | discriminate ]
  end.

(** X24: the webhook route hands a message to Telegram only for a
    request whose signature was accepted, whose event the subscription
    does not filter out and whose body parses; the text of the message
    is the summary of the parsed payload under the event type of the
    request. *)
Theorem webhook_sends_the_summary_of_a_verified_request
        (world : Routes.Services) (req : Routes.Request)
        (response : Routes.Response) (effects : list Routes.Effect)
        (token chatId : string) (text : value) (topicId : option Z) :
  Routes.webhook world req = Ok (response, effects) ->
  In (Routes.telegramMessage token chatId text topicId) effects ->
  exists bodyBuffer subscription payload,
    Routes.rawBody req = Some bodyBuffer
    /\ Routes.getSubscriptionByHook world (Routes.hookId req) = Some subscription
    /\ Routes.verifyGithubSignature world (Routes.secret subscription) bodyBuffer
         (Routes.x_hub_signature_256 req) = Ok true
    /\ Routes.event_ignored subscription (Routes.eventType req) = false
    /\ Routes.JSON_parse world bodyBuffer = Ok payload
    /\ summarizeGithubEvent (Routes.eventType req) payload = Ok text.
Proof.
  unfold Routes.webhook, Routes.answer.
  destruct (Routes.rawBody req) as [bodyBuffer |] eqn:Hbody;
    [| intros [= <- <-] []].
  destruct (Routes.getSubscriptionByHook world (Routes.hookId req)) as [subscription |]
    eqn:Hsubscription; [| intros [= <- <-] []].
  destruct (Routes.verifyGithubSignature world (Routes.secret subscription) bodyBuffer
              (Routes.x_hub_signature_256 req)) as [[|] | error] eqn:Hverified;
    cbn [bind negb]; [| log_only | discriminate].
  destruct (Routes.event_ignored subscription (Routes.eventType req)) eqn:Hignored;
    [log_only |].
  destruct (Routes.JSON_parse world bodyBuffer) as [payload | error] eqn:Hparsed;
    [| log_only].
  destruct (Routes.getBot world (Routes.botId subscription)) as [bot |]; [| log_only].
  destruct (Routes.getDestination world (Routes.destinationId subscription))
    as [destination |]; [| log_only].
  destruct (summarizeGithubEvent (Routes.eventType req) payload) as [summary | error]
    eqn:Hsummary; cbn [bind]; [| discriminate].
  intros Hanswer Hin.
  exists bodyBuffer, subscription, payload.
  do 5 (split; [first [reflexivity | assumption] |]).
  rewrite Hsummary. f_equal.
  assert (Heffects : exists entry status,
             effects = [Routes.telegramMessage (Routes.token bot) (Routes.chatId destination)
                          summary (Routes.topicId destination); entry]
             /\ entry = Routes.logged (Routes.eventType req) status summary).
  { destruct (Routes.sendTelegramMessage world (Routes.token bot) (Routes.chatId destination)
                summary (Routes.topicId destination));
      [destruct (Routes.createLog world (Routes.eventType req) "success" summary)
         as [entry |] eqn:Hlog |];
      [ injection Hanswer as _ <-; exists entry, "success";
        split; [reflexivity | exact (createLog_entry _ _ _ _ _ Hlog)]
      | | ];
      (destruct (Routes.createLog world (Routes.eventType req) "error" summary)
         as [entry |] eqn:Hlog'; cbn [bind] in Hanswer; [| discriminate Hanswer];
       injection Hanswer as _ <-; exists entry, "error";
       split; [reflexivity | exact (createLog_entry _ _ _ _ _ Hlog')]). }
  destruct Heffects as [entry [status [-> ->]]].
  destruct Hin as [H | [H | []]].
  - now injection H.
  - discriminate H.
Qed.

Lemma webhook_sends_the_summary_of_a_verified_request_witness :
  exists bodyBuffer subscription payload,
    Routes.rawBody signed_push = Some bodyBuffer
    /\ Routes.getSubscriptionByHook sample_world (Routes.hookId signed_push)
       = Some subscription
    /\ Routes.verifyGithubSignature sample_world (Routes.secret subscription) bodyBuffer
         (Routes.x_hub_signature_256 signed_push) = Ok true
    /\ Routes.event_ignored subscription (Routes.eventType signed_push) = false
    /\ Routes.JSON_parse sample_world bodyBuffer = Ok payload
    /\ summarizeGithubEvent (Routes.eventType signed_push) payload
       = Ok (VStr "<b>Push</b> to branch <code>unknown</code> in <code>?</code> by <b>unknown</b> (0 commits)").
Proof.
  apply (webhook_sends_the_summary_of_a_verified_request
           sample_world signed_push
           {| Routes.status := 200; Routes.body := "Event push forwarded" |}
           [Routes.telegramMessage "t" "c"
              (VStr "<b>Push</b> to branch <code>unknown</code> in <code>?</code> by <b>unknown</b> (0 commits)")
              None;
            Routes.logged "push" "success"
              (VStr "<b>Push</b> to branch <code>unknown</code> in <code>?</code> by <b>unknown</b> (0 commits)")]
           "t" "c"
           (VStr "<b>Push</b> to branch <code>unknown</code> in <code>?</code> by <b>unknown</b> (0 commits)")
           None).
  - reflexivity.
  - left. reflexivity.
Defined.

(** X25: the comparison of the digests is the only place where the
    handler of the webhook route can fail, as long as the look-ups of
    the subscription, the bot and the destination answer, the event log
    takes every entry and the event type is not [constructor].
    Summarising the event never throws and gives a text, which the log
    can hold; a body that does not parse and a message that Telegram
    refuses are answered with an error status.  So a rejection of the
    handler is then the error thrown by the signature check.  (For the
    event type [constructor] the summary is an object, which the log
    cannot hold.) *)
Theorem webhook_rejects_only_in_the_signature_check
        (world : Routes.Services) (req : Routes.Request) (error : thrown) :
  (forall eventType status text, Routes.insertLog world eventType status text = Ok tt) ->
  toLowerCase (Routes.eventType req) <> "constructor" ->
  Routes.webhook world req = Throw error ->
  exists bodyBuffer subscription,
    Routes.rawBody req = Some bodyBuffer
    /\ Routes.getSubscriptionByHook world (Routes.hookId req) = Some subscription
    /\ Routes.verifyGithubSignature world (Routes.secret subscription) bodyBuffer
         (Routes.x_hub_signature_256 req) = Throw error.
Proof.
  intros Hinsert Hkey.
  unfold Routes.webhook, Routes.answer.
  destruct (Routes.rawBody req) as [bodyBuffer |] eqn:Hbody; [| discriminate].
  destruct (Routes.getSubscriptionByHook world (Routes.hookId req)) as [subscription |]
    eqn:Hsubscription; [| discriminate].
  destruct (Routes.verifyGithubSignature world (Routes.secret subscription) bodyBuffer
              (Routes.x_hub_signature_256 req)) as [[|] | e] eqn:Hverified;
    cbn [bind negb].
  - destruct (Routes.event_ignored subscription (Routes.eventType req));
      [rewrite (createLog_text _ _ _ _ Hinsert); discriminate |].
    destruct (Routes.JSON_parse world bodyBuffer) as [payload | e];
      [| rewrite (createLog_text _ _ _ _ Hinsert); discriminate].
    destruct (Routes.getBot world (Routes.botId subscription)) as [bot |];
      [| rewrite (createLog_text _ _ _ _ Hinsert); discriminate].
    destruct (Routes.getDestination world (Routes.destinationId subscription))
      as [destination |]; [| rewrite (createLog_text _ _ _ _ Hinsert); discriminate].
    destruct (summarizeGithubEvent_returns_text (Routes.eventType req) payload Hkey)
      as [summary [-> _]].
    cbn [bind]. rewrite !(createLog_text _ _ _ _ Hinsert). cbn [bind].
    destruct (Routes.sendTelegramMessage world (Routes.token bot)
                (Routes.chatId destination) (VStr summary) (Routes.topicId destination));
      discriminate.
  - rewrite (createLog_text _ _ _ _ Hinsert). discriminate.
  - intros [= ->]. exists bodyBuffer, subscription.
    repeat split; first [reflexivity | assumption].
Qed.

Lemma webhook_rejects_only_in_the_signature_check_witness :
  exists bodyBuffer subscription,
    Routes.rawBody short_signature = Some bodyBuffer
    /\ Routes.getSubscriptionByHook sample_world (Routes.hookId short_signature)
       = Some subscription
    /\ Routes.verifyGithubSignature sample_world (Routes.secret subscription) bodyBuffer
         (Routes.x_hub_signature_256 short_signature)
       = Throw (RangeError "Input buffers must have the same byte length").
Proof.
  apply (webhook_rejects_only_in_the_signature_check sample_world short_signature).
  - reflexivity.
  - intro H. vm_compute in H. discriminate H.
  - reflexivity.
Defined.

Lemma trim_blank (s : string) :
  has_only is_space s = true -> trim s = "".
Proof.
  intro H. unfold trim.
  assert (Hstart : trimStart s = "").
  { unfold trimStart.
    induction s as [| c s IH]; [reflexivity |].
    cbn [has_only] in H. apply andb_true_iff in H as [Hc H].
    cbn [skip_spaces space_width]. rewrite Hc. now apply IH. }
  now rewrite Hstart.
Qed.

Lemma split_char_blank (s : string) :
  has_only (fun c => is_space c || Ascii.eqb c ",") s = true ->
  Forall (fun item => has_only is_space item = true) (split_char "," s).
Proof.
  induction s as [| c s IH]; intro H.
  - repeat constructor.
  - cbn [has_only] in H. apply andb_true_iff in H as [Hc H].
    specialize (IH H). cbn [split_char].
    destruct (Ascii.eqb c ",") eqn:Hcomma.
    + constructor; [reflexivity | exact IH].
    + rewrite orb_false_r in Hc.
      destruct (split_char "," s) as [| item items].
      * repeat constructor. cbn [has_only]. now rewrite Hc.
      * inversion IH as [| ? ? Hitem Hitems]; subst.
        constructor; [| exact Hitems].
        cbn [has_only]. now rewrite Hc.
Qed.

Lemma allowed_events_blank (csv : string) :
  has_only (fun c => is_space c || Ascii.eqb c ",") csv = true ->
  Routes.allowed_events csv = [].
Proof.
  intro H. unfold Routes.allowed_events.
  pose proof (split_char_blank csv H) as Hitems.
  induction Hitems as [| item items Hitem _ IH]; [reflexivity |].
  cbn [map filter]. rewrite (trim_blank item Hitem). exact IH.
Qed.

(** X26: a subscription filters events only when its list names one.
    A list made of commas and white space only, like the empty list and
    the star, lets every event through. *)
Theorem event_ignored_needs_a_named_event
        (subscription : Routes.Subscription) (eventType : string) :
  has_only (fun c => is_space c || Ascii.eqb c ",") (Routes.eventsCsv subscription) = true ->
  Routes.event_ignored subscription eventType = false.
Proof.
  intro H. unfold Routes.event_ignored. cbv zeta.
  destruct (Routes.eventsCsv subscription) as [| c csv] eqn:Hcsv; [reflexivity |].
  cbn [str_or is_empty].
  destruct (String.eqb (String c csv) "*"); [reflexivity |].
  now rewrite (allowed_events_blank _ H).
Qed.

Lemma event_ignored_needs_a_named_event_witness :
  Routes.event_ignored
    {| Routes.secret := "s"; Routes.eventsCsv := " , ,"; Routes.botId := 1;
       Routes.destinationId := 2 |} "push" = false.
Proof.
  apply (event_ignored_needs_a_named_event
           {| Routes.secret := "s"; Routes.eventsCsv := " , ,"; Routes.botId := 1;
              Routes.destinationId := 2 |} "push").
  reflexivity.
Defined.

(** X27: a request with no event header, or with an empty one, is
    handled as the event [unknown], which has no handler: whatever the
    payload, its summary is the fallback line labelled [Unknown]. *)
Theorem webhook_names_a_missing_event_unknown (req : Routes.Request) (payload : value) :
  (forall name, Routes.x_github_event req = Some name -> name = "") ->
  Routes.eventType req = "unknown"
  /\ summarizeGithubEvent (Routes.eventType req) payload =
     Ok (VStr (text ["<b>Unknown</b> event";
                     if is_empty (repo (ensureMapping payload)) then ""
                     else text [" for <code>"; html_escape (repo (ensureMapping payload));
                                "</code>"];
                     " by <b>"; html_escape (str_or (actor (ensureMapping payload)) UNKNOWN);
                     "</b>"])).
Proof.
  intro Hheader.
  assert (Htype : Routes.eventType req = "unknown").
  { unfold Routes.eventType.
    destruct (Routes.x_github_event req) as [name |]; [| reflexivity].
    now rewrite (Hheader name eq_refl). }
  split; [exact Htype |].
  rewrite Htype.
  unfold summarizeGithubEvent, summarizeGithubEvent_by.
  change (handler_slot (toLowerCase (str_or "unknown" ""))) with SlotUndefined.
  cbv iota. rewrite fallback_value. reflexivity.
Qed.

Lemma webhook_names_a_missing_event_unknown_witness :
  Routes.eventType
    {| Routes.rawBody := Some "{}"; Routes.x_hub_signature_256 := None;
       Routes.x_github_event := None; Routes.hookId := "h1" |} = "unknown"
  /\ summarizeGithubEvent
       (Routes.eventType
          {| Routes.rawBody := Some "{}"; Routes.x_hub_signature_256 := None;
             Routes.x_github_event := None; Routes.hookId := "h1" |})
       (VObj [("repository", VObj [("name", VStr "r")])])
     = Ok (VStr "<b>Unknown</b> event for <code>r</code> by <b>unknown</b>").
Proof.
  apply (webhook_names_a_missing_event_unknown
           {| Routes.rawBody := Some "{}"; Routes.x_hub_signature_256 := None;
              Routes.x_github_event := None; Routes.hookId := "h1" |}
           (VObj [("repository", VObj [("name", VStr "r")])])).
  intros name H. discriminate H.
Defined.

(** ** A push that deletes a ref *)

(** X28: a push that deletes a ref, and whose pusher name, when there
    is one, can be converted to a string, is reported in one line,
    followed by the link of the repository when the payload has one.
    No commit is listed and no compare link is given, whatever else the
    payload carries. *)
Theorem summarizePush_reports_a_deleted_ref_in_one_line (payload : value) :
  let data := ensureMapping payload in
  truthy (get data "deleted") = true ->
  printable (push_actorName data) = true ->
  exists actor_text,
    esc (push_actorName data) = Ok actor_text
    /\ summarizePush payload =
       Ok (join newline
             (deleted_headline data actor_text
              :: if truthy (dig data ["repository"; "html_url"])
                 then [link_value_text (dig data ["repository"; "html_url"]) "Repository"]
                 else [])).
Proof.
  cbv zeta. intros Hdeleted Hprintable.
  destruct (esc_printable _ Hprintable) as [actor_text Hactor].
  exists actor_text. split; [exact Hactor |].
  rewrite (summarizePush_value payload actor_text Hactor).
  unfold push_lines. now rewrite Hdeleted.
Qed.

Lemma summarizePush_reports_a_deleted_ref_in_one_line_witness :
  summarizePush
    (VObj [("ref", VStr "refs/tags/v1"); ("deleted", VBool true);
           ("commits", VArr six_commits); ("compare", VStr "https://x.test/c")])
  = Ok "<b>Deleted</b> tag <code>v1</code> from <code>?</code> by <b>unknown</b>".
Proof.
  destruct (summarizePush_reports_a_deleted_ref_in_one_line
              (VObj [("ref", VStr "refs/tags/v1"); ("deleted", VBool true);
                     ("commits", VArr six_commits); ("compare", VStr "https://x.test/c")])
              eq_refl eq_refl)
    as [actor_text [Hactor H]].
  injection Hactor as <-. exact H.
Defined.
